(** * Pipeline layouts, compute pipelines and their caches

    A shallow embedding of [aten/src/ATen/native/vulkan/api/Pipeline.cpp].

    The C++ code talks to a Vulkan driver and to mutexes.  Both are made
    explicit here: every driver call, every lock and every unlock is appended
    to a trace of events, and the driver is a parameter that chooses the
    result of each creation call from the history of calls it has seen.
    A failing [VK_CHECK] ends the run ([Fatal]). *)

From Stdlib Require Import ZArith List Bool String Lia Permutation.
Import ListNotations.
Local Open Scope Z_scope.

(** ** The Vulkan surface the file uses *)

Module Vk.

Definition VkDevice := Z.
Definition VkDescriptorSetLayout := Z.
Definition VkShaderModule := Z.
Definition VkPipelineLayout := Z.
Definition VkPipeline := Z.
Definition VkPipelineCache := Z.

Definition VK_NULL_HANDLE : Z := 0.

Inductive VkResult : Type :=
| VK_SUCCESS
| VK_ERROR (code : Z).

Inductive VkStructureType : Type :=
| VK_STRUCTURE_TYPE_PIPELINE_LAYOUT_CREATE_INFO
| VK_STRUCTURE_TYPE_PIPELINE_SHADER_STAGE_CREATE_INFO
| VK_STRUCTURE_TYPE_COMPUTE_PIPELINE_CREATE_INFO
| VK_STRUCTURE_TYPE_PIPELINE_CACHE_CREATE_INFO.

Inductive VkShaderStageFlagBits : Type :=
| VK_SHADER_STAGE_VERTEX_BIT
| VK_SHADER_STAGE_FRAGMENT_BIT
| VK_SHADER_STAGE_COMPUTE_BIT.

Record VkPipelineLayoutCreateInfo : Type := {
  pl_sType : VkStructureType;
  pl_pNext : option Z;
  pl_flags : Z;
  setLayoutCount : Z;
  pSetLayouts : list VkDescriptorSetLayout;
  pushConstantRangeCount : Z;
  pPushConstantRanges : list Z
}.

Record VkSpecializationMapEntry : Type := {
  constantID : Z;
  offset : Z;
  size : Z
}.

Record VkSpecializationInfo : Type := {
  mapEntryCount : Z;
  pMapEntries : list VkSpecializationMapEntry;
  dataSize : Z;
  pData : list Z
}.

Record VkPipelineShaderStageCreateInfo : Type := {
  ss_sType : VkStructureType;
  ss_pNext : option Z;
  ss_flags : Z;
  stage : VkShaderStageFlagBits;
  module : VkShaderModule;
  pName : string;
  pSpecializationInfo : option VkSpecializationInfo
}.

Record VkComputePipelineCreateInfo : Type := {
  cp_sType : VkStructureType;
  cp_pNext : option Z;
  cp_flags : Z;
  cp_stage : VkPipelineShaderStageCreateInfo;
  layout : VkPipelineLayout;
  basePipelineHandle : VkPipeline;
  basePipelineIndex : Z
}.

Record VkPipelineCacheCreateInfo : Type := {
  pc_sType : VkStructureType;
  pc_pNext : option Z;
  pc_flags : Z;
  initialDataSize : Z;
  pInitialData : list Z
}.

Definition success (r : VkResult) : bool :=
  match r with
  | VK_SUCCESS => true
  | VK_ERROR _ => false
  end.

End Vk.
Import Vk.

(** ** Events, the driver, and the monad of the embedding *)

Definition MutexId := nat.

Inductive Event : Type :=
| EvLock (m : MutexId)
| EvUnlock (m : MutexId)
| EvCreatePipelineLayout
    (device : VkDevice) (info : VkPipelineLayoutCreateInfo)
    (r : VkResult) (h : VkPipelineLayout)
| EvDestroyPipelineLayout (device : VkDevice) (h : VkPipelineLayout)
| EvCreateComputePipelines
    (device : VkDevice) (pipeline_cache : VkPipelineCache) (createInfoCount : Z)
    (info : VkComputePipelineCreateInfo) (r : VkResult) (h : VkPipeline)
| EvDestroyPipeline (device : VkDevice) (h : VkPipeline)
| EvCreatePipelineCache
    (device : VkDevice) (info : VkPipelineCacheCreateInfo)
    (r : VkResult) (h : VkPipelineCache)
| EvDestroyPipelineCache (device : VkDevice) (h : VkPipelineCache).

Definition Trace := list Event.

(** The driver: for each creation entry point, the result code and the handle
    written through the out-pointer, as a function of the calls made so far
    and of the arguments. *)
Record Driver : Type := {
  vkCreatePipelineLayout :
    Trace -> VkDevice -> VkPipelineLayoutCreateInfo -> VkResult * VkPipelineLayout;
  vkCreateComputePipelines :
    Trace -> VkDevice -> VkPipelineCache -> Z -> VkComputePipelineCreateInfo ->
    VkResult * VkPipeline;
  vkCreatePipelineCache :
    Trace -> VkDevice -> VkPipelineCacheCreateInfo -> VkResult * VkPipelineCache
}.

Inductive Outcome (A : Type) : Type :=
| Ok (a : A) (tr : Trace)
| Fatal (tr : Trace).
Arguments Ok {A} a tr.
Arguments Fatal {A} tr.

Definition M (A : Type) : Type := Trace -> Outcome A.

Definition ret {A : Type} (a : A) : M A := fun tr => Ok a tr.

Definition bind {A B : Type} (c : M A) (k : A -> M B) : M B :=
  fun tr =>
    match c tr with
    | Ok a tr' => k a tr'
    | Fatal tr' => Fatal tr'
    end.

Declare Scope vk_scope.
Delimit Scope vk_scope with vk.
Notation "x <- c ;; k" := (bind c (fun x => k))
  (at level 61, c at next level, right associativity) : vk_scope.
Notation "' p <- c ;; k" := (bind c (fun x => let p := x in k))
  (at level 61, p pattern, c at next level, right associativity) : vk_scope.
Notation "c ;;; k" := (bind c (fun _ => k))
  (at level 61, right associativity) : vk_scope.
Local Open Scope vk_scope.

Definition emit (e : Event) : M unit := fun tr => Ok tt (tr ++ [e]).

(** Modelled from the spec: the macro [VK_CHECK] (Common.h is not part of the
    sources at hand).  A creation call that does not return success is an
    unrecoverable failure: the run stops there. *)
Definition VK_CHECK (r : VkResult) : M unit :=
  fun tr => if success r then Ok tt tr else Fatal tr.

(** [std::lock_guard<std::mutex> lock(m)] around the rest of a scope. *)
Definition lock_guard {A : Type} (m : MutexId) (body : M A) : M A :=
  emit (EvLock m) ;;;
  a <- body ;;
  emit (EvUnlock m) ;;;
  ret a.

Section DriverCalls.
Variable drv : Driver.

Definition call_vkCreatePipelineLayout
    (device : VkDevice) (info : VkPipelineLayoutCreateInfo)
  : M (VkResult * VkPipelineLayout) :=
  fun tr =>
    let rh := vkCreatePipelineLayout drv tr device info in
    Ok rh (tr ++ [EvCreatePipelineLayout device info (fst rh) (snd rh)]).

Definition call_vkCreateComputePipelines
    (device : VkDevice) (pipeline_cache : VkPipelineCache) (createInfoCount : Z)
    (info : VkComputePipelineCreateInfo)
  : M (VkResult * VkPipeline) :=
  fun tr =>
    let rh := vkCreateComputePipelines drv tr device pipeline_cache createInfoCount info in
    Ok rh (tr ++ [EvCreateComputePipelines device pipeline_cache createInfoCount info
                    (fst rh) (snd rh)]).

Definition call_vkCreatePipelineCache
    (device : VkDevice) (info : VkPipelineCacheCreateInfo)
  : M (VkResult * VkPipelineCache) :=
  fun tr =>
    let rh := vkCreatePipelineCache drv tr device info in
    Ok rh (tr ++ [EvCreatePipelineCache device info (fst rh) (snd rh)]).
End DriverCalls.

Definition call_vkDestroyPipelineLayout (device : VkDevice) (h : VkPipelineLayout) : M unit :=
  emit (EvDestroyPipelineLayout device h).

Definition call_vkDestroyPipeline (device : VkDevice) (h : VkPipeline) : M unit :=
  emit (EvDestroyPipeline device h).

Definition call_vkDestroyPipelineCache (device : VkDevice) (h : VkPipelineCache) : M unit :=
  emit (EvDestroyPipelineCache device h).

(** ** utils::uvec3 *)

Module utils.

(** Modelled from the spec: [utils::uvec3] (Utils.h is not part of the sources
    at hand), the 3-component unsigned launch-geometry vector: three 32-bit
    unsigned components [data[0]], [data[1]], [data[2]] laid out one after the
    other, compared component by component. *)
Record uvec3 : Type := mk_uvec3 {
  data0 : Z;
  data1 : Z;
  data2 : Z
}.

Definition data (v : uvec3) (i : Z) : Z :=
  if i =? 0 then data0 v else if i =? 1 then data1 v else data2 v.

Definition uvec3_eq (a b : uvec3) : bool :=
  (data0 a =? data0 b) && (data1 a =? data1 b) && (data2 a =? data2 b).

Definition sizeof_component : Z := 4.
Definition offsetof_data (i : Z) : Z := sizeof_component * i.
Definition sizeof_uvec3 : Z := 3 * sizeof_component.

(** The bytes of a 32-bit unsigned value, least significant first. *)
Definition uint32_bytes (v : Z) : list Z :=
  [v mod 256; (v / 256) mod 256; (v / 65536) mod 256; (v / 16777216) mod 256].

Fixpoint bytes_value (bs : list Z) : Z :=
  match bs with
  | [] => 0
  | b :: bs' => b + 256 * bytes_value bs'
  end.

Definition uvec3_bytes (v : uvec3) : list Z :=
  uint32_bytes (data0 v) ++ uint32_bytes (data1 v) ++ uint32_bytes (data2 v).

Definition is_uint32 (v : Z) : Prop := 0 <= v < 4294967296.

End utils.

(** ** PipelineLayout *)

Module PipelineLayout.

Record t : Type := mk {
  device_ : VkDevice;
  handle_ : VkPipelineLayout
}.

Definition handle (self : t) : VkPipelineLayout := handle_ self.

Definition create_info (descriptor_layout : VkDescriptorSetLayout)
  : VkPipelineLayoutCreateInfo :=
  {| pl_sType := VK_STRUCTURE_TYPE_PIPELINE_LAYOUT_CREATE_INFO;
     pl_pNext := None;
     pl_flags := 0;
     setLayoutCount := 1;
     pSetLayouts := [descriptor_layout];
     pushConstantRangeCount := 0;
     pPushConstantRanges := [] |}.

Definition ctor (drv : Driver) (device : VkDevice)
    (descriptor_layout : VkDescriptorSetLayout) : M t :=
  let pipeline_layout_create_info := create_info descriptor_layout in
  rh <- call_vkCreatePipelineLayout drv device pipeline_layout_create_info ;;
  VK_CHECK (fst rh) ;;;
  ret {| device_ := device; handle_ := snd rh |}.

(** [PipelineLayout(PipelineLayout&& other)]: the new object, and [other]
    as the constructor leaves it. *)
Definition move_ctor (other : t) : t * t :=
  ({| device_ := device_ other; handle_ := handle_ other |},
   {| device_ := device_ other; handle_ := VK_NULL_HANDLE |}).

Definition dtor (self : t) : M t :=
  if VK_NULL_HANDLE =? handle_ self then ret self
  else
    call_vkDestroyPipelineLayout (device_ self) (handle_ self) ;;;
    ret {| device_ := device_ self; handle_ := VK_NULL_HANDLE |}.

Definition swap (lhs rhs : t) : t * t :=
  let tmp_device := device_ lhs in
  let tmp_handle := handle_ lhs in
  ({| device_ := device_ rhs; handle_ := handle_ rhs |},
   {| device_ := tmp_device; handle_ := tmp_handle |}).

End PipelineLayout.

(** ** ComputePipeline *)

Module ComputePipeline.

Record Descriptor : Type := {
  pipeline_layout : VkPipelineLayout;
  shader_module : VkShaderModule;
  local_work_group : utils.uvec3
}.

Record t : Type := mk {
  device_ : VkDevice;
  handle_ : VkPipeline
}.

Definition handle (self : t) : VkPipeline := handle_ self.

Definition specialization_map_entires : list VkSpecializationMapEntry :=
  [ {| constantID := 0;
       offset := utils.offsetof_data 0;
       size := utils.sizeof_component |};
    {| constantID := 1;
       offset := utils.offsetof_data 1;
       size := utils.sizeof_component |};
    {| constantID := 2;
       offset := utils.offsetof_data 2;
       size := utils.sizeof_component |} ].

Definition specialization_info (descriptor : Descriptor) : VkSpecializationInfo :=
  {| mapEntryCount := 3;
     pMapEntries := specialization_map_entires;
     dataSize := utils.sizeof_uvec3;
     pData := utils.uvec3_bytes (local_work_group descriptor) |}.

Definition shader_stage_create_info (descriptor : Descriptor)
  : VkPipelineShaderStageCreateInfo :=
  {| ss_sType := VK_STRUCTURE_TYPE_PIPELINE_SHADER_STAGE_CREATE_INFO;
     ss_pNext := None;
     ss_flags := 0;
     stage := VK_SHADER_STAGE_COMPUTE_BIT;
     module := shader_module descriptor;
     pName := "main"%string;
     pSpecializationInfo := Some (specialization_info descriptor) |}.

Definition compute_pipeline_create_info (descriptor : Descriptor)
  : VkComputePipelineCreateInfo :=
  {| cp_sType := VK_STRUCTURE_TYPE_COMPUTE_PIPELINE_CREATE_INFO;
     cp_pNext := None;
     cp_flags := 0;
     cp_stage := shader_stage_create_info descriptor;
     layout := pipeline_layout descriptor;
     basePipelineHandle := VK_NULL_HANDLE;
     basePipelineIndex := 0 |}.

Definition ctor (drv : Driver) (device : VkDevice) (descriptor : Descriptor)
    (pipeline_cache : VkPipelineCache) : M t :=
  rh <- call_vkCreateComputePipelines drv device pipeline_cache 1
          (compute_pipeline_create_info descriptor) ;;
  VK_CHECK (fst rh) ;;;
  ret {| device_ := device; handle_ := snd rh |}.

Definition move_ctor (other : t) : t * t :=
  ({| device_ := device_ other; handle_ := handle_ other |},
   {| device_ := device_ other; handle_ := VK_NULL_HANDLE |}).

Definition dtor (self : t) : M t :=
  if VK_NULL_HANDLE =? handle_ self then ret self
  else
    call_vkDestroyPipeline (device_ self) (handle_ self) ;;;
    ret {| device_ := device_ self; handle_ := VK_NULL_HANDLE |}.

Definition swap (lhs rhs : t) : t * t :=
  let tmp_device := device_ lhs in
  let tmp_handle := handle_ lhs in
  ({| device_ := device_ rhs; handle_ := handle_ rhs |},
   {| device_ := tmp_device; handle_ := tmp_handle |}).

(** [operator==] on descriptors. *)
Definition Descriptor_eq (_1 _2 : Descriptor) : bool :=
  (pipeline_layout _1 =? pipeline_layout _2) &&
  (shader_module _1 =? shader_module _2) &&
  utils.uvec3_eq (local_work_group _1) (local_work_group _2).

End ComputePipeline.

(** ** The container behind [cache_] *)

Module CacheMap.

(** Modelled from the spec: the container type of [cache_] (declared in
    Pipeline.h together with the key hashers, not part of the sources at hand).
    A mapping from keys to owned values with unique keys, looked up with the
    key's equality; the container owns its values, so erasing an entry runs
    the value's destructor and inserting one move-constructs it into the
    container.  A moved-from container is empty. *)
Section CacheMap.
Context {K V : Type}.
Variable key_eq : K -> K -> bool.
Variable move_value : V -> V * V.
Variable destroy_value : V -> M V.

Definition t : Type := list (K * V).

Fixpoint find (key : K) (m : t) : option V :=
  match m with
  | [] => None
  | (k, v) :: m' => if key_eq k key then Some v else find key m'
  end.

(** [insert(value_type&&)]: the container afterwards, the element the
    returned iterator points at, and the argument as the call leaves it
    (moved from when the insertion took place). *)
Definition insert (kv : K * V) (m : t) : t * V * (K * V) :=
  match find (fst kv) m with
  | Some v => (m, v, kv)
  | None =>
      let (node, moved) := move_value (snd kv) in
      ((fst kv, node) :: m, node, (fst kv, moved))
  end.

Fixpoint destroy_all (m : t) : M unit :=
  match m with
  | [] => ret tt
  | (_, v) :: m' => destroy_value v ;;; destroy_all m'
  end.

Definition clear (m : t) : M t :=
  destroy_all m ;;; ret [].

(** [dst = std::move(src)]: the two containers afterwards. *)
Definition move_assign (dst src : t) : M (t * t) :=
  clear dst ;;; ret (src, []).

Definition dtor (m : t) : M unit := destroy_all m.
End CacheMap.

End CacheMap.

(** ** PipelineLayoutCache *)

Module PipelineLayoutCache.

Definition Key := VkDescriptorSetLayout.
Definition Value := PipelineLayout.t.

(** Keys are raw descriptor-set-layout references, compared by identity. *)
Definition Key_eq (a b : Key) : bool := a =? b.

Record t : Type := mk {
  cache_mutex_ : MutexId;
  device_ : VkDevice;
  cache_ : @CacheMap.t Key Value
}.

Definition set_cache_ (self : t) (c : @CacheMap.t Key Value) : t :=
  {| cache_mutex_ := cache_mutex_ self; device_ := device_ self; cache_ := c |}.

Definition find := @CacheMap.find Key Value Key_eq.
Definition insert := @CacheMap.insert Key Value Key_eq PipelineLayout.move_ctor.
Definition clear := @CacheMap.clear Key Value PipelineLayout.dtor.
Definition move_assign := @CacheMap.move_assign Key Value PipelineLayout.dtor.

(** [mutex] names the freshly constructed [cache_mutex_] of the new object. *)
Definition ctor (mutex : MutexId) (device : VkDevice) : t :=
  {| cache_mutex_ := mutex; device_ := device; cache_ := [] |}.

(** The new cache, and [other] as the constructor leaves it. *)
Definition move_ctor (mutex : MutexId) (other : t) : M (t * t) :=
  let self := {| cache_mutex_ := mutex; device_ := device_ other; cache_ := [] |} in
  lock_guard (cache_mutex_ other) (
    cc <- move_assign (cache_ self) (cache_ other) ;;
    ret (set_cache_ self (fst cc), set_cache_ other (snd cc))).

(** On a miss: build the value, insert it, and let the temporaries of the
    full expression [cache_.insert({key, Value(device_, key)})] die. *)
Definition emplace (drv : Driver) (self : t) (key : Key) : M (Value * t) :=
  tmp <- PipelineLayout.ctor drv (device_ self) key ;;
  let (elem, tmp') := PipelineLayout.move_ctor tmp in
  let '(cache', it, arg') := insert (key, elem) (cache_ self) in
  PipelineLayout.dtor (snd arg') ;;;
  PipelineLayout.dtor tmp' ;;;
  ret (it, set_cache_ self cache').

Definition retrieve_locked (drv : Driver) (self : t) (key : Key)
  : M (VkPipelineLayout * t) :=
  match find key (cache_ self) with
  | Some it => ret (PipelineLayout.handle it, self)
  | None =>
      r <- emplace drv self key ;;
      ret (PipelineLayout.handle (fst r), snd r)
  end.

Definition retrieve (drv : Driver) (self : t) (key : Key)
  : M (VkPipelineLayout * t) :=
  lock_guard (cache_mutex_ self) (retrieve_locked drv self key).

Definition purge (self : t) : M t :=
  lock_guard (cache_mutex_ self) (
    c <- clear (cache_ self) ;;
    ret (set_cache_ self c)).

(** The destructor body, then the destruction of the member [cache_]. *)
Definition dtor (self : t) : M t :=
  self' <- purge self ;;
  CacheMap.dtor PipelineLayout.dtor (cache_ self') ;;;
  ret self'.

End PipelineLayoutCache.

(** ** ComputePipelineCache *)

Module ComputePipelineCache.

Definition Key := ComputePipeline.Descriptor.
Definition Value := ComputePipeline.t.

Definition Key_eq : Key -> Key -> bool := ComputePipeline.Descriptor_eq.

Record t : Type := mk {
  cache_mutex_ : MutexId;
  device_ : VkDevice;
  pipeline_cache_ : VkPipelineCache;
  cache_ : @CacheMap.t Key Value
}.

Definition set_cache_ (self : t) (c : @CacheMap.t Key Value) : t :=
  {| cache_mutex_ := cache_mutex_ self; device_ := device_ self;
     pipeline_cache_ := pipeline_cache_ self; cache_ := c |}.

Definition set_pipeline_cache_ (self : t) (h : VkPipelineCache) : t :=
  {| cache_mutex_ := cache_mutex_ self; device_ := device_ self;
     pipeline_cache_ := h; cache_ := cache_ self |}.

Definition find := @CacheMap.find Key Value Key_eq.
Definition insert := @CacheMap.insert Key Value Key_eq ComputePipeline.move_ctor.
Definition clear := @CacheMap.clear Key Value ComputePipeline.dtor.
Definition move_assign := @CacheMap.move_assign Key Value ComputePipeline.dtor.

Definition pipeline_cache_create_info : VkPipelineCacheCreateInfo :=
  {| pc_sType := VK_STRUCTURE_TYPE_PIPELINE_CACHE_CREATE_INFO;
     pc_pNext := None;
     pc_flags := 0;
     initialDataSize := 0;
     pInitialData := [] |}.

Definition ctor (drv : Driver) (mutex : MutexId) (device : VkDevice) : M t :=
  rh <- call_vkCreatePipelineCache drv device pipeline_cache_create_info ;;
  VK_CHECK (fst rh) ;;;
  ret {| cache_mutex_ := mutex; device_ := device;
         pipeline_cache_ := snd rh; cache_ := [] |}.

Definition move_ctor (mutex : MutexId) (other : t) : M (t * t) :=
  let self := {| cache_mutex_ := mutex; device_ := device_ other;
                 pipeline_cache_ := pipeline_cache_ other; cache_ := [] |} in
  lock_guard (cache_mutex_ other) (
    cc <- move_assign (cache_ self) (cache_ other) ;;
    ret (set_cache_ self (fst cc),
         set_pipeline_cache_ (set_cache_ other (snd cc)) VK_NULL_HANDLE)).

Definition emplace (drv : Driver) (self : t) (key : Key) : M (Value * t) :=
  tmp <- ComputePipeline.ctor drv (device_ self) key (pipeline_cache_ self) ;;
  let (elem, tmp') := ComputePipeline.move_ctor tmp in
  let '(cache', it, arg') := insert (key, elem) (cache_ self) in
  ComputePipeline.dtor (snd arg') ;;;
  ComputePipeline.dtor tmp' ;;;
  ret (it, set_cache_ self cache').

Definition retrieve_locked (drv : Driver) (self : t) (key : Key)
  : M (VkPipeline * t) :=
  match find key (cache_ self) with
  | Some it => ret (ComputePipeline.handle it, self)
  | None =>
      r <- emplace drv self key ;;
      ret (ComputePipeline.handle (fst r), snd r)
  end.

Definition retrieve (drv : Driver) (self : t) (key : Key) : M (VkPipeline * t) :=
  lock_guard (cache_mutex_ self) (retrieve_locked drv self key).

Definition purge (self : t) : M t :=
  c <- clear (cache_ self) ;;
  ret (set_cache_ self c).

Definition dtor (self : t) : M t :=
  self1 <- purge self ;;
  self2 <- (if VK_NULL_HANDLE =? pipeline_cache_ self1 then ret self1
            else
              call_vkDestroyPipelineCache (device_ self1) (pipeline_cache_ self1) ;;;
              ret (set_pipeline_cache_ self1 VK_NULL_HANDLE)) ;;
  CacheMap.dtor ComputePipeline.dtor (cache_ self2) ;;;
  ret self2.

End ComputePipelineCache.

(** ** Observations on traces *)

Definition is_lock_event (e : Event) : bool :=
  match e with
  | EvLock _ | EvUnlock _ => true
  | _ => false
  end.

Definition is_layout_creation (e : Event) : bool :=
  match e with
  | EvCreatePipelineLayout _ _ _ _ => true
  | _ => false
  end.

Definition is_pipeline_creation (e : Event) : bool :=
  match e with
  | EvCreateComputePipelines _ _ _ _ _ _ => true
  | _ => false
  end.

Definition is_pipeline_destruction (e : Event) : bool :=
  match e with
  | EvDestroyPipeline _ _ => true
  | _ => false
  end.

(** How many creation calls a stretch of trace holds. *)
Definition layout_creations (evs : Trace) : nat :=
  List.length (filter is_layout_creation evs).

Definition pipeline_creations (evs : Trace) : nat :=
  List.length (filter is_pipeline_creation evs).

(** The handles released by a stretch of trace, oldest first. *)
Fixpoint released_layouts (evs : Trace) : list VkPipelineLayout :=
  match evs with
  | [] => []
  | EvDestroyPipelineLayout _ h :: evs' => h :: released_layouts evs'
  | _ :: evs' => released_layouts evs'
  end.

Fixpoint released_pipelines (evs : Trace) : list VkPipeline :=
  match evs with
  | [] => []
  | EvDestroyPipeline _ h :: evs' => h :: released_pipelines evs'
  | _ :: evs' => released_pipelines evs'
  end.

Fixpoint released_pipeline_caches (evs : Trace) : list VkPipelineCache :=
  match evs with
  | [] => []
  | EvDestroyPipelineCache _ h :: evs' => h :: released_pipeline_caches evs'
  | _ :: evs' => released_pipeline_caches evs'
  end.

(** The handles a trace has handed out through successful creation calls. *)
Fixpoint created_layouts (evs : Trace) : list VkPipelineLayout :=
  match evs with
  | [] => []
  | EvCreatePipelineLayout _ _ VK_SUCCESS h :: evs' => h :: created_layouts evs'
  | _ :: evs' => created_layouts evs'
  end.

Fixpoint created_pipelines (evs : Trace) : list VkPipeline :=
  match evs with
  | [] => []
  | EvCreateComputePipelines _ _ _ _ VK_SUCCESS h :: evs' => h :: created_pipelines evs'
  | _ :: evs' => created_pipelines evs'
  end.

(** The pipelines that are alive at the end of a trace: created with success
    and not released since.  The trace is read oldest event first. *)
Fixpoint live_pipelines_from (live : list VkPipeline) (evs : Trace) : list VkPipeline :=
  match evs with
  | [] => live
  | EvCreateComputePipelines _ _ _ _ VK_SUCCESS h :: evs' =>
      live_pipelines_from (h :: live) evs'
  | EvDestroyPipeline _ h :: evs' =>
      live_pipelines_from (filter (fun x => negb (x =? h)) live) evs'
  | _ :: evs' => live_pipelines_from live evs'
  end.

Definition live_pipelines (tr : Trace) : list VkPipeline :=
  live_pipelines_from [] tr.

(** What the driver reads for specialization constant [id]: the bytes of
    [pData] that the map entry with that id points at. *)
Definition specialization_constant (info : VkSpecializationInfo) (id : Z) : option Z :=
  match List.find (fun e => constantID e =? id)
          (firstn (Z.to_nat (mapEntryCount info)) (pMapEntries info)) with
  | Some e =>
      Some (utils.bytes_value
              (firstn (Z.to_nat (size e)) (skipn (Z.to_nat (offset e)) (pData info))))
  | None => None
  end.

(** The release calls that destroying the values of a container makes, in
    the container's order: one per value whose handle is not the empty
    sentinel. *)
Definition layout_release_events
    (m : @CacheMap.t PipelineLayoutCache.Key PipelineLayoutCache.Value) : Trace :=
  flat_map (fun kv =>
              if VK_NULL_HANDLE =? PipelineLayout.handle_ (snd kv) then []
              else [EvDestroyPipelineLayout (PipelineLayout.device_ (snd kv))
                                            (PipelineLayout.handle_ (snd kv))]) m.

Definition pipeline_release_events
    (m : @CacheMap.t ComputePipelineCache.Key ComputePipelineCache.Value) : Trace :=
  flat_map (fun kv =>
              if VK_NULL_HANDLE =? ComputePipeline.handle_ (snd kv) then []
              else [EvDestroyPipeline (ComputePipeline.device_ (snd kv))
                                      (ComputePipeline.handle_ (snd kv))]) m.

(** Two pipeline keys that differ in exactly one field: the layout, the
    shader module, or one component of the launch geometry. *)
Definition differ_in_one_field (k1 k2 : ComputePipeline.Descriptor) : Prop :=
  let l1 := ComputePipeline.pipeline_layout k1 in
  let l2 := ComputePipeline.pipeline_layout k2 in
  let s1 := ComputePipeline.shader_module k1 in
  let s2 := ComputePipeline.shader_module k2 in
  let g1 := ComputePipeline.local_work_group k1 in
  let g2 := ComputePipeline.local_work_group k2 in
  (l1 <> l2 /\ s1 = s2 /\ g1 = g2) \/
  (l1 = l2 /\ s1 <> s2 /\ g1 = g2) \/
  (l1 = l2 /\ s1 = s2 /\
   ((utils.data0 g1 <> utils.data0 g2 /\ utils.data1 g1 = utils.data1 g2 /\
     utils.data2 g1 = utils.data2 g2) \/
    (utils.data0 g1 = utils.data0 g2 /\ utils.data1 g1 <> utils.data1 g2 /\
     utils.data2 g1 = utils.data2 g2) \/
    (utils.data0 g1 = utils.data0 g2 /\ utils.data1 g1 = utils.data1 g2 /\
     utils.data2 g1 <> utils.data2 g2))).

(** ** Assumptions one may make about a driver, and two drivers *)

(** A successful creation never returns the handle of an object that is
    still alive. *)
Definition unique_live_pipelines (drv : Driver) : Prop :=
  forall tr device pipeline_cache n info h,
    vkCreateComputePipelines drv tr device pipeline_cache n info = (VK_SUCCESS, h) ->
    ~ In h (live_pipelines tr).

(** A successful creation never returns a handle value it has returned
    before, whether or not the earlier object has been released since. *)
Definition never_reissues_pipelines (drv : Driver) : Prop :=
  forall tr device pipeline_cache n info h,
    vkCreateComputePipelines drv tr device pipeline_cache n info = (VK_SUCCESS, h) ->
    ~ In h (created_pipelines tr).

Definition never_reissues_layouts (drv : Driver) : Prop :=
  forall tr device info h,
    vkCreatePipelineLayout drv tr device info = (VK_SUCCESS, h) ->
    ~ In h (created_layouts tr).

Definition above (l : list Z) : Z := 1 + fold_right Z.max 0 l.

(** A driver that numbers its objects one after the other and never uses a
    number twice. *)
Definition counting_driver : Driver :=
  {| vkCreatePipelineLayout := fun tr _ _ => (VK_SUCCESS, above (created_layouts tr));
     vkCreateComputePipelines :=
       fun tr _ _ _ _ => (VK_SUCCESS, above (created_pipelines tr));
     vkCreatePipelineCache := fun tr _ _ => (VK_SUCCESS, 1 + Z.of_nat (List.length tr)) |}.

(** A driver that hands out the first handle value above those of the objects
    that are alive, so the value of a released handle comes back. *)
Definition recycling_driver : Driver :=
  {| vkCreatePipelineLayout := fun tr _ _ => (VK_SUCCESS, above (created_layouts tr));
     vkCreateComputePipelines :=
       fun tr _ _ _ _ => (VK_SUCCESS, above (live_pipelines tr));
     vkCreatePipelineCache := fun tr _ _ => (VK_SUCCESS, 1 + Z.of_nat (List.length tr)) |}.

(** A driver whose creation calls fail. *)
Definition failing_driver : Driver :=
  {| vkCreatePipelineLayout := fun _ _ _ => (VK_ERROR (-1), VK_NULL_HANDLE);
     vkCreateComputePipelines := fun _ _ _ _ _ => (VK_ERROR (-1), VK_NULL_HANDLE);
     vkCreatePipelineCache := fun _ _ _ => (VK_ERROR (-1), VK_NULL_HANDLE) |}.

(** A driver whose handles do not tell its objects apart: every creation
    succeeds and returns the same value. *)
Definition constant_driver : Driver :=
  {| vkCreatePipelineLayout := fun _ _ _ => (VK_SUCCESS, 9);
     vkCreateComputePipelines := fun _ _ _ _ _ => (VK_SUCCESS, 9);
     vkCreatePipelineCache := fun _ _ _ => (VK_SUCCESS, 9) |}.

(** Sample keys and caches used to exercise the definitions. *)
Definition sample_key (l s x y z : Z) : ComputePipeline.Descriptor :=
  {| ComputePipeline.pipeline_layout := l;
     ComputePipeline.shader_module := s;
     ComputePipeline.local_work_group := utils.mk_uvec3 x y z |}.

Definition key_8_8_1 : ComputePipeline.Descriptor := sample_key 11 21 8 8 1.
Definition key_16_16_1 : ComputePipeline.Descriptor := sample_key 11 21 16 16 1.
Definition key_8_16_1 : ComputePipeline.Descriptor := sample_key 11 21 8 16 1.

Definition empty_pipeline_cache : ComputePipelineCache.t :=
  ComputePipelineCache.mk 7%nat 1 5 [].

Definition populated_pipeline_cache : ComputePipelineCache.t :=
  ComputePipelineCache.mk 7%nat 1 5
    [(key_16_16_1, ComputePipeline.mk 1 43); (key_8_8_1, ComputePipeline.mk 1 42)].

Definition empty_layout_cache : PipelineLayoutCache.t :=
  PipelineLayoutCache.mk 3%nat 1 [].

Definition populated_layout_cache : PipelineLayoutCache.t :=
  PipelineLayoutCache.mk 3%nat 1
    [(31, PipelineLayout.mk 1 61); (30, PipelineLayout.mk 1 60)].

Definition is_pipeline_cache_release (e : Event) : bool :=
  match e with
  | EvDestroyPipelineCache _ _ => true
  | _ => false
  end.


(** ** Objects of a handle type and what can happen to them *)

(** What the two owning types have in common. *)
Class HandleType (T : Type) : Type := {
  ht_handle : T -> Z;
  ht_move_ctor : T -> T * T;
  ht_dtor : T -> M T;
  ht_swap : T -> T -> T * T;
  ht_released : Trace -> list Z
}.

#[export] Instance PipelineLayout_HandleType : HandleType PipelineLayout.t := {|
  ht_handle := PipelineLayout.handle_;
  ht_move_ctor := PipelineLayout.move_ctor;
  ht_dtor := PipelineLayout.dtor;
  ht_swap := PipelineLayout.swap;
  ht_released := released_layouts
|}.

#[export] Instance ComputePipeline_HandleType : HandleType ComputePipeline.t := {|
  ht_handle := ComputePipeline.handle_;
  ht_move_ctor := ComputePipeline.move_ctor;
  ht_dtor := ComputePipeline.dtor;
  ht_swap := ComputePipeline.swap;
  ht_released := released_pipelines
|}.

(** The objects of a program, by position; an operation names its objects by
    position.  Moving from an object constructs a new object at the end. *)
Inductive HandleOp : Type :=
| OpMove (other : nat)
| OpDestroy (self : nat)
| OpSwap (lhs rhs : nat).

Fixpoint put {A : Type} (i : nat) (x : A) (l : list A) : list A :=
  match l, i with
  | [], _ => []
  | _ :: l', O => x :: l'
  | y :: l', S i' => y :: put i' x l'
  end.

Definition run_op {T : Type} `{HandleType T} (op : HandleOp) (objs : list T)
  : M (list T) :=
  match op with
  | OpMove other =>
      match nth_error objs other with
      | Some o =>
          let (new, o') := ht_move_ctor o in
          ret (put other o' objs ++ [new])
      | None => ret objs
      end
  | OpDestroy self =>
      match nth_error objs self with
      | Some o => o' <- ht_dtor o ;; ret (put self o' objs)
      | None => ret objs
      end
  | OpSwap lhs rhs =>
      match nth_error objs lhs, nth_error objs rhs with
      | Some l, Some r =>
          let (l', r') := ht_swap l r in
          ret (put rhs r' (put lhs l' objs))
      | _, _ => ret objs
      end
  end.

Fixpoint run_ops {T : Type} `{HandleType T} (ops : list HandleOp) (objs : list T)
  : M (list T) :=
  match ops with
  | [] => ret objs
  | op :: ops' => objs' <- run_op op objs ;; run_ops ops' objs'
  end.

Definition nonempty (h : Z) : bool := negb (VK_NULL_HANDLE =? h).

(** The native resources a collection of objects owns. *)
Definition owned {T : Type} `{HandleType T} (objs : list T) : list Z :=
  filter nonempty (map ht_handle objs).

(** ** A whole run *)

(** The life of a pipeline cache in one run: construction, two retrievals
    of one key, one of a second key, a purge, the first key again, and the
    destruction of the cache.  The result lists the four handles returned. *)
Definition pipeline_cache_life (drv : Driver) (k1 k2 : ComputePipelineCache.Key)
  : M (list VkPipeline) :=
  c0 <- ComputePipelineCache.ctor drv 7%nat 1 ;;
  r1 <- ComputePipelineCache.retrieve drv c0 k1 ;;
  r2 <- ComputePipelineCache.retrieve drv (snd r1) k1 ;;
  r3 <- ComputePipelineCache.retrieve drv (snd r2) k2 ;;
  c4 <- ComputePipelineCache.purge (snd r3) ;;
  r5 <- ComputePipelineCache.retrieve drv c4 k1 ;;
  ComputePipelineCache.dtor (snd r5) ;;;
  ret [fst r1; fst r2; fst r3; fst r5].

(** ** Sequences of calls on a cache *)

(** What a user of a cache does with it between its construction and its
    destruction. *)
Inductive CacheOp (K : Type) : Type :=
| CacheRetrieve (key : K)
| CachePurge.
Arguments CacheRetrieve {K} key.
Arguments CachePurge {K}.

Section CacheOps.
Context {K C : Type}.
Variable retrieve : C -> K -> M (Z * C).
Variable purge : C -> M C.

(** The calls of [ops] one after the other; the result lists the handles the
    retrievals returned, in order, and the cache as the calls leave it. *)
Fixpoint run_cache_ops (ops : list (CacheOp K)) (self : C) : M (list Z * C) :=
  match ops with
  | [] => ret ([], self)
  | CacheRetrieve key :: ops' =>
      r <- retrieve self key ;;
      rs <- run_cache_ops ops' (snd r) ;;
      ret (fst r :: fst rs, snd rs)
  | CachePurge :: ops' =>
      self' <- purge self ;;
      run_cache_ops ops' self'
  end.
End CacheOps.

Definition layout_cache_run (drv : Driver) :=
  run_cache_ops (PipelineLayoutCache.retrieve drv) PipelineLayoutCache.purge.

Definition pipeline_cache_run (drv : Driver) :=
  run_cache_ops (ComputePipelineCache.retrieve drv) ComputePipelineCache.purge.

(** The keys, the handles and the handle of a key that a cache holds. *)
Definition layout_keys (c : PipelineLayoutCache.t) : list PipelineLayoutCache.Key :=
  map fst (PipelineLayoutCache.cache_ c).

Definition layout_handles (c : PipelineLayoutCache.t) : list VkPipelineLayout :=
  map (fun kv => PipelineLayout.handle (snd kv)) (PipelineLayoutCache.cache_ c).

Definition layout_lookup (c : PipelineLayoutCache.t) (key : PipelineLayoutCache.Key)
  : option VkPipelineLayout :=
  option_map PipelineLayout.handle
    (PipelineLayoutCache.find key (PipelineLayoutCache.cache_ c)).

Definition pipeline_keys (c : ComputePipelineCache.t) : list ComputePipelineCache.Key :=
  map fst (ComputePipelineCache.cache_ c).

Definition pipeline_handles (c : ComputePipelineCache.t) : list VkPipeline :=
  map (fun kv => ComputePipeline.handle (snd kv)) (ComputePipelineCache.cache_ c).

Definition pipeline_lookup (c : ComputePipelineCache.t) (key : ComputePipelineCache.Key)
  : option VkPipeline :=
  option_map ComputePipeline.handle
    (ComputePipelineCache.find key (ComputePipelineCache.cache_ c)).

(** The keys of [ks] that call for a creation when they are retrieved in
    order from a cache whose resident keys are [resident]: those that are
    neither resident nor earlier in [ks]. *)
Fixpoint new_keys {K : Type} (key_eq : K -> K -> bool) (resident ks : list K) : list K :=
  match ks with
  | [] => []
  | k :: ks' =>
      if existsb (fun r => key_eq r k) resident then new_keys key_eq resident ks'
      else k :: new_keys key_eq (k :: resident) ks'
  end.

Fixpoint created_pipeline_caches (evs : Trace) : list VkPipelineCache :=
  match evs with
  | [] => []
  | EvCreatePipelineCache _ _ VK_SUCCESS h :: evs' => h :: created_pipeline_caches evs'
  | _ :: evs' => created_pipeline_caches evs'
  end.

(** ** Lock discipline on a trace *)

(** Reading a trace with an eye on mutex [m]: [Some held] tells whether [m]
    is held at the end; [None] tells that [m] was locked while held, unlocked
    while free, or that an event that [needs_lock] came while [m] was free. *)
Fixpoint scan_lock (needs_lock : Event -> bool) (m : MutexId) (held : bool) (evs : Trace)
  : option bool :=
  match evs with
  | [] => Some held
  | EvLock m' :: evs' =>
      if Nat.eqb m' m
      then (if held then None else scan_lock needs_lock m true evs')
      else scan_lock needs_lock m held evs'
  | EvUnlock m' :: evs' =>
      if Nat.eqb m' m
      then (if held then scan_lock needs_lock m false evs' else None)
      else scan_lock needs_lock m held evs'
  | e :: evs' =>
      if needs_lock e && negb held then None
      else scan_lock needs_lock m held evs'
  end.

Definition is_driver_call (e : Event) : bool := negb (is_lock_event e).

(** The life of a layout cache and of a pipeline cache: construction, the
    calls of [ops], destruction. *)
Definition layout_cache_whole_life (drv : Driver) (mutex : MutexId) (device : VkDevice)
    (ops : list (CacheOp PipelineLayoutCache.Key))
  : M (list VkPipelineLayout * PipelineLayoutCache.t) :=
  r <- layout_cache_run drv ops (PipelineLayoutCache.ctor mutex device) ;;
  c <- PipelineLayoutCache.dtor (snd r) ;;
  ret (fst r, c).

Definition pipeline_cache_whole_life (drv : Driver) (mutex : MutexId) (device : VkDevice)
    (ops : list (CacheOp ComputePipelineCache.Key))
  : M (list VkPipeline * ComputePipelineCache.t) :=
  c0 <- ComputePipelineCache.ctor drv mutex device ;;
  r <- pipeline_cache_run drv ops c0 ;;
  c <- ComputePipelineCache.dtor (snd r) ;;
  ret (fst r, c).

Definition sample_keys : list ComputePipelineCache.Key :=
  [key_8_8_1; key_16_16_1; key_8_8_1; key_8_16_1; key_16_16_1].

Definition sample_ops : list (CacheOp ComputePipelineCache.Key) :=
  [CacheRetrieve key_8_8_1; CacheRetrieve key_16_16_1; CacheRetrieve key_8_8_1;
   CachePurge; CacheRetrieve key_8_8_1; CacheRetrieve key_8_16_1].

Definition sample_layout_ops : list (CacheOp PipelineLayoutCache.Key) :=
  [CacheRetrieve 30; CacheRetrieve 31; CacheRetrieve 30; CachePurge; CacheRetrieve 31].

(** ** What the calls of a cache may look like *)

(** An event that a pipeline cache [c] may cause: a lock or unlock of its own
    mutex, the successful creation of one pipeline on its device with its
    acceleration object from the create-info of some key, or the release of
    a pipeline with a handle on its device. *)
Definition pipeline_event_of (c : ComputePipelineCache.t) (e : Event) : Prop :=
  match e with
  | EvLock m | EvUnlock m => m = ComputePipelineCache.cache_mutex_ c
  | EvCreateComputePipelines d pc n info r _ =>
      d = ComputePipelineCache.device_ c /\
      pc = ComputePipelineCache.pipeline_cache_ c /\
      n = 1 /\ r = VK_SUCCESS /\
      exists key, info = ComputePipeline.compute_pipeline_create_info key
  | EvDestroyPipeline d h =>
      d = ComputePipelineCache.device_ c /\ h <> VK_NULL_HANDLE
  | _ => False
  end.

Definition layout_event_of (c : PipelineLayoutCache.t) (e : Event) : Prop :=
  match e with
  | EvLock m | EvUnlock m => m = PipelineLayoutCache.cache_mutex_ c
  | EvCreatePipelineLayout d info r _ =>
      d = PipelineLayoutCache.device_ c /\ r = VK_SUCCESS /\
      exists key, info = PipelineLayout.create_info key
  | EvDestroyPipelineLayout d h =>
      d = PipelineLayoutCache.device_ c /\ h <> VK_NULL_HANDLE
  | _ => False
  end.

(** Every resident value remembers the device of its cache. *)
Definition pipelines_on_device (c : ComputePipelineCache.t) : Prop :=
  Forall (fun kv => ComputePipeline.device_ (snd kv) = ComputePipelineCache.device_ c)
         (ComputePipelineCache.cache_ c).

Definition layouts_on_device (c : PipelineLayoutCache.t) : Prop :=
  Forall (fun kv => PipelineLayout.device_ (snd kv) = PipelineLayoutCache.device_ c)
         (PipelineLayoutCache.cache_ c).

(** ** The device a handle is released on *)

Fixpoint released_layouts_on (evs : Trace) : list (VkDevice * VkPipelineLayout) :=
  match evs with
  | [] => []
  | EvDestroyPipelineLayout d h :: evs' => (d, h) :: released_layouts_on evs'
  | _ :: evs' => released_layouts_on evs'
  end.

Fixpoint released_pipelines_on (evs : Trace) : list (VkDevice * VkPipeline) :=
  match evs with
  | [] => []
  | EvDestroyPipeline d h :: evs' => (d, h) :: released_pipelines_on evs'
  | _ :: evs' => released_pipelines_on evs'
  end.

(** The device and the handle of the objects that own a resource. *)
Definition held_pairs {T : Type} `{HandleType T} (device_of : T -> VkDevice) (objs : list T)
  : list (VkDevice * Z) :=
  map (fun o => (device_of o, ht_handle o))
      (filter (fun o => nonempty (ht_handle o)) objs).

Definition layout_pairs (objs : list PipelineLayout.t) : list (VkDevice * VkPipelineLayout) :=
  map (fun o => (PipelineLayout.device_ o, PipelineLayout.handle_ o))
      (filter (fun o => nonempty (PipelineLayout.handle_ o)) objs).

Definition pipeline_pairs (objs : list ComputePipeline.t) : list (VkDevice * VkPipeline) :=
  map (fun o => (ComputePipeline.device_ o, ComputePipeline.handle_ o))
      (filter (fun o => nonempty (ComputePipeline.handle_ o)) objs).

(** A value as [retrieve] builds it on a miss and as the cache destroys it in
    the end: constructed, moved into the pair, moved into the container, the
    two temporaries destroyed, and at last the resident value destroyed. *)
Definition layout_built_moved_destroyed (drv : Driver) (device : VkDevice)
    (key : VkDescriptorSetLayout) : M PipelineLayout.t :=
  tmp <- PipelineLayout.ctor drv device key ;;
  let (elem, tmp') := PipelineLayout.move_ctor tmp in
  let (node, elem') := PipelineLayout.move_ctor elem in
  PipelineLayout.dtor elem' ;;;
  PipelineLayout.dtor tmp' ;;;
  PipelineLayout.dtor node.

Definition pipeline_built_moved_destroyed (drv : Driver) (device : VkDevice)
    (descriptor : ComputePipeline.Descriptor) (pipeline_cache : VkPipelineCache)
  : M ComputePipeline.t :=
  tmp <- ComputePipeline.ctor drv device descriptor pipeline_cache ;;
  let (elem, tmp') := ComputePipeline.move_ctor tmp in
  let (node, elem') := ComputePipeline.move_ctor elem in
  ComputePipeline.dtor elem' ;;;
  ComputePipeline.dtor tmp' ;;;
  ComputePipeline.dtor node.

(** A cache is move-constructed from [other]; then the moved-from source is
    destroyed, then the new cache. *)
Definition layout_cache_moved_then_destroyed (mutex : MutexId)
    (other : PipelineLayoutCache.t) : M (PipelineLayoutCache.t * PipelineLayoutCache.t) :=
  r <- PipelineLayoutCache.move_ctor mutex other ;;
  src <- PipelineLayoutCache.dtor (snd r) ;;
  dst <- PipelineLayoutCache.dtor (fst r) ;;
  ret (src, dst).

Definition pipeline_cache_moved_then_destroyed (mutex : MutexId)
    (other : ComputePipelineCache.t) : M (ComputePipelineCache.t * ComputePipelineCache.t) :=
  r <- ComputePipelineCache.move_ctor mutex other ;;
  src <- ComputePipelineCache.dtor (snd r) ;;
  dst <- ComputePipelineCache.dtor (fst r) ;;
  ret (src, dst).

(** ** Threads that call [retrieve] on one cache *)

(** [retrieve] is a [lock_guard] on the mutex of the cache around the rest
    of the function.  With several threads in it, the constructor of the
    [lock_guard] waits until the mutex is free and takes it, the rest runs
    with the mutex held, and the destructor of the [lock_guard] gives the
    mutex back.  A thread is before the [lock_guard]; past its constructor;
    past the guarded body, with the handle to return; or it has returned. *)
Inductive ThreadState : Type :=
| AtEntry
| Inside
| Leaving (h : Z)
| Returned (h : Z).

Record Config (C : Type) : Type := mk_config {
  mutex_held : bool;
  object : C;
  history : Trace;
  threads : list ThreadState
}.
Arguments mk_config {C} _ _ _ _.
Arguments mutex_held {C} _.
Arguments object {C} _.
Arguments history {C} _.
Arguments threads {C} _.

Section Threads.
Context {C : Type}.
(** The two arguments of the [lock_guard]: the mutex of the object and the
    guarded body. *)
Variable mutex_of : C -> MutexId.
Variable body : C -> M (Z * C).

(** One step of thread [i].  The events are those [lock_guard] emits, and
    the body is run on the shared object.  A thread that waits for the
    mutex, or that has returned, stays where it is; a fatal failure in the
    body ends the whole run. *)
Definition thread_step (i : nat) (cfg : Config C) : option (Config C) :=
  match nth_error (threads cfg) i with
  | None => Some cfg
  | Some AtEntry =>
      if mutex_held cfg then Some cfg
      else Some (mk_config true (object cfg)
                   (history cfg ++ [EvLock (mutex_of (object cfg))])
                   (put i Inside (threads cfg)))
  | Some Inside =>
      match body (object cfg) (history cfg) with
      | Ok (h, c') tr' =>
          Some (mk_config (mutex_held cfg) c' tr' (put i (Leaving h) (threads cfg)))
      | Fatal _ => None
      end
  | Some (Leaving h) =>
      Some (mk_config false (object cfg)
              (history cfg ++ [EvUnlock (mutex_of (object cfg))])
              (put i (Returned h) (threads cfg)))
  | Some (Returned _) => Some cfg
  end.

(** The threads run one step at a time, in the order a schedule gives. *)
Fixpoint run_threads (sched : list nat) (cfg : Config C) : option (Config C) :=
  match sched with
  | [] => Some cfg
  | i :: sched' =>
      match thread_step i cfg with
      | Some cfg' => run_threads sched' cfg'
      | None => None
      end
  end.

Definition start_threads (n : nat) (c : C) (tr : Trace) : Config C :=
  mk_config false c tr (repeat AtEntry n).
End Threads.

(** Threads that call [retrieve] for [key] on a layout cache, and on a
    pipeline cache: the mutex and the body are those [retrieve] hands to its
    [lock_guard]. *)
Definition layout_run_threads (drv : Driver) (key : PipelineLayoutCache.Key) :=
  run_threads PipelineLayoutCache.cache_mutex_
    (fun c => PipelineLayoutCache.retrieve_locked drv c key).

Definition pipeline_run_threads (drv : Driver) (key : ComputePipelineCache.Key) :=
  run_threads ComputePipelineCache.cache_mutex_
    (fun c => ComputePipelineCache.retrieve_locked drv c key).

Definition is_returned (t : ThreadState) : bool :=
  match t with
  | Returned _ => true
  | _ => false
  end.

Definition all_returned {C : Type} (cfg : Config C) : bool :=
  forallb is_returned (threads cfg).

(** A thread between taking the mutex and giving it back. *)
Definition inside (t : ThreadState) : bool :=
  match t with
  | Inside | Leaving _ => true
  | AtEntry | Returned _ => false
  end.

Definition inside_count (l : list ThreadState) : nat :=
  List.length (filter inside l).

(** The handles of the threads that have returned. *)
Definition returned_handles (l : list ThreadState) : list Z :=
  flat_map (fun t => match t with Returned h => [h] | _ => [] end) l.

(** The schedule that lets the threads run one after the other, three steps
    each, and one that lets three threads take turns and wait. *)
Definition one_after_the_other (n : nat) : list nat :=
  flat_map (fun i => [i; i; i]) (seq 0 n).

Definition sample_schedule : list nat :=
  [1; 0; 2; 1; 0; 1; 2; 0; 2; 2; 0; 0; 0]%nat.

(** What a thread inside has done, when the calls that have returned amount
    to a run of [retrieve] that left the cache [c1] and the trace [tr1]. *)
Definition thread_phase {C : Type} (mutex_of : C -> MutexId) (body : C -> M (Z * C))
    (c1 : C) (tr1 : Trace) (cfg : Config C) (t : ThreadState) : Prop :=
  match t with
  | Inside => object cfg = c1 /\ history cfg = tr1 ++ [EvLock (mutex_of c1)]
  | Leaving h => body c1 (tr1 ++ [EvLock (mutex_of c1)]) = Ok (h, object cfg) (history cfg)
  | AtEntry | Returned _ => True
  end.

(** What holds of every configuration the threads can reach: the mutex is
    held exactly when one thread is inside, and the calls that have returned
    amount to that many calls of [retrieve] one after the other, which
    returned the handles those threads have. *)
Definition serial_shape {K C : Type} (retrieve : C -> K -> M (Z * C)) (purge : C -> M C)
    (mutex_of : C -> MutexId) (body : C -> M (Z * C)) (key : K)
    (n : nat) (c : C) (tr : Trace) (cfg : Config C) : Prop :=
  List.length (threads cfg) = n /\
  inside_count (threads cfg) = (if mutex_held cfg then 1%nat else 0%nat) /\
  exists hs c1 tr1,
    run_cache_ops retrieve purge (map CacheRetrieve (repeat key (List.length hs))) c tr
    = Ok (hs, c1) tr1 /\
    Permutation hs (returned_handles (threads cfg)) /\
    (mutex_held cfg = false -> object cfg = c1 /\ history cfg = tr1) /\
    Forall (thread_phase mutex_of body c1 tr1 cfg) (threads cfg).

(** A thread that has no handle, or has the handle [h]. *)
Definition late (h : Z) (t : ThreadState) : Prop :=
  match t with
  | AtEntry | Inside => True
  | Leaving h' | Returned h' => h' = h
  end.

(** What holds of every configuration the threads can reach from a start
    with the key resident with handle [h] in cache [c]: the cache is as it
    was, nothing has been created, and every handle a thread has is [h]. *)
Definition resident_shape {C : Type} (creations : Trace -> nat)
    (n : nat) (c : C) (h : Z) (tr0 : Trace) (cfg : Config C) : Prop :=
  List.length (threads cfg) = n /\
  object cfg = c /\
  exists evs,
    history cfg = tr0 ++ evs /\ creations evs = 0%nat /\
    Forall (late h) (threads cfg).
(** * Proofs *)

(** ** Running the monad *)

Ltac run_m :=
  unfold lock_guard, bind, ret, emit, VK_CHECK,
    call_vkCreatePipelineLayout, call_vkCreateComputePipelines,
    call_vkCreatePipelineCache, call_vkDestroyPipelineLayout,
    call_vkDestroyPipeline, call_vkDestroyPipelineCache in *;
  cbn [fst snd] in *.

(** ** The two handle types *)

Lemma layout_dtor_run (v : PipelineLayout.t) (tr : Trace) :
  PipelineLayout.dtor v tr
  = Ok (PipelineLayout.mk (PipelineLayout.device_ v)
          (if VK_NULL_HANDLE =? PipelineLayout.handle_ v
           then PipelineLayout.handle_ v else VK_NULL_HANDLE))
       (tr ++ (if VK_NULL_HANDLE =? PipelineLayout.handle_ v then []
               else [EvDestroyPipelineLayout (PipelineLayout.device_ v)
                                             (PipelineLayout.handle_ v)])).
Proof.
  unfold PipelineLayout.dtor. destruct v as [d h].
  cbn [PipelineLayout.handle_ PipelineLayout.device_].
  destruct (VK_NULL_HANDLE =? h); run_m; [now rewrite app_nil_r | reflexivity].
Qed.

Lemma pipeline_dtor_run (v : ComputePipeline.t) (tr : Trace) :
  ComputePipeline.dtor v tr
  = Ok (ComputePipeline.mk (ComputePipeline.device_ v)
          (if VK_NULL_HANDLE =? ComputePipeline.handle_ v
           then ComputePipeline.handle_ v else VK_NULL_HANDLE))
       (tr ++ (if VK_NULL_HANDLE =? ComputePipeline.handle_ v then []
               else [EvDestroyPipeline (ComputePipeline.device_ v)
                                       (ComputePipeline.handle_ v)])).
Proof.
  unfold ComputePipeline.dtor. destruct v as [d h].
  cbn [ComputePipeline.handle_ ComputePipeline.device_].
  destruct (VK_NULL_HANDLE =? h); run_m; [now rewrite app_nil_r | reflexivity].
Qed.

(** ** Retrieval: the hit and the miss *)

Lemma layout_retrieve_hit drv self key it tr :
  PipelineLayoutCache.find key (PipelineLayoutCache.cache_ self) = Some it ->
  PipelineLayoutCache.retrieve drv self key tr
  = Ok (PipelineLayout.handle it, self)
       (tr ++ [EvLock (PipelineLayoutCache.cache_mutex_ self);
               EvUnlock (PipelineLayoutCache.cache_mutex_ self)]).
Proof.
  intros Hf. unfold PipelineLayoutCache.retrieve, PipelineLayoutCache.retrieve_locked.
  rewrite Hf. run_m. now rewrite <- app_assoc.
Qed.

Lemma layout_retrieve_miss drv self key tr :
  PipelineLayoutCache.find key (PipelineLayoutCache.cache_ self) = None ->
  let m := PipelineLayoutCache.cache_mutex_ self in
  let d := PipelineLayoutCache.device_ self in
  let rh := vkCreatePipelineLayout drv (tr ++ [EvLock m]) d
              (PipelineLayout.create_info key) in
  let ev := EvCreatePipelineLayout d (PipelineLayout.create_info key) (fst rh) (snd rh) in
  PipelineLayoutCache.retrieve drv self key tr
  = if success (fst rh)
    then Ok (snd rh,
             PipelineLayoutCache.set_cache_ self
               ((key, PipelineLayout.mk d (snd rh)) :: PipelineLayoutCache.cache_ self))
            (tr ++ [EvLock m; ev; EvUnlock m])
    else Fatal (tr ++ [EvLock m; ev]).
Proof.
  intros Hf m d rh ev.
  unfold PipelineLayoutCache.retrieve, PipelineLayoutCache.retrieve_locked.
  rewrite Hf.
  unfold PipelineLayoutCache.emplace, PipelineLayout.ctor,
    PipelineLayoutCache.insert, CacheMap.insert.
  run_m. fold m d. fold rh.
  destruct (success (fst rh)).
  - cbn [PipelineLayout.move_ctor fst snd].
    unfold PipelineLayoutCache.find in Hf. rewrite Hf.
    cbn. rewrite <- !app_assoc. reflexivity.
  - rewrite <- !app_assoc. reflexivity.
Qed.

Lemma pipeline_retrieve_hit drv self key it tr :
  ComputePipelineCache.find key (ComputePipelineCache.cache_ self) = Some it ->
  ComputePipelineCache.retrieve drv self key tr
  = Ok (ComputePipeline.handle it, self)
       (tr ++ [EvLock (ComputePipelineCache.cache_mutex_ self);
               EvUnlock (ComputePipelineCache.cache_mutex_ self)]).
Proof.
  intros Hf. unfold ComputePipelineCache.retrieve, ComputePipelineCache.retrieve_locked.
  rewrite Hf. run_m. now rewrite <- app_assoc.
Qed.

Lemma pipeline_retrieve_miss drv self key tr :
  ComputePipelineCache.find key (ComputePipelineCache.cache_ self) = None ->
  let m := ComputePipelineCache.cache_mutex_ self in
  let d := ComputePipelineCache.device_ self in
  let pc := ComputePipelineCache.pipeline_cache_ self in
  let info := ComputePipeline.compute_pipeline_create_info key in
  let rh := vkCreateComputePipelines drv (tr ++ [EvLock m]) d pc 1 info in
  let ev := EvCreateComputePipelines d pc 1 info (fst rh) (snd rh) in
  ComputePipelineCache.retrieve drv self key tr
  = if success (fst rh)
    then Ok (snd rh,
             ComputePipelineCache.set_cache_ self
               ((key, ComputePipeline.mk d (snd rh)) :: ComputePipelineCache.cache_ self))
            (tr ++ [EvLock m; ev; EvUnlock m])
    else Fatal (tr ++ [EvLock m; ev]).
Proof.
  intros Hf m d pc info rh ev.
  unfold ComputePipelineCache.retrieve, ComputePipelineCache.retrieve_locked.
  rewrite Hf.
  unfold ComputePipelineCache.emplace, ComputePipeline.ctor,
    ComputePipelineCache.insert, CacheMap.insert.
  run_m. fold m d pc info. fold rh.
  destruct (success (fst rh)).
  - cbn [ComputePipeline.move_ctor fst snd].
    unfold ComputePipelineCache.find in Hf. rewrite Hf.
    cbn. rewrite <- !app_assoc. reflexivity.
  - rewrite <- !app_assoc. reflexivity.
Qed.

(** ** Emptying a container *)

Lemma layout_destroy_all_run m tr :
  CacheMap.destroy_all PipelineLayout.dtor m tr
  = Ok tt (tr ++ layout_release_events m).
Proof.
  revert tr. induction m as [|[k v] m IH]; intros tr; cbn [CacheMap.destroy_all].
  - unfold ret. cbn. now rewrite app_nil_r.
  - unfold bind. rewrite layout_dtor_run, IH.
    cbn [layout_release_events flat_map snd]. now rewrite <- app_assoc.
Qed.

Lemma pipeline_destroy_all_run m tr :
  CacheMap.destroy_all ComputePipeline.dtor m tr
  = Ok tt (tr ++ pipeline_release_events m).
Proof.
  revert tr. induction m as [|[k v] m IH]; intros tr; cbn [CacheMap.destroy_all].
  - unfold ret. cbn. now rewrite app_nil_r.
  - unfold bind. rewrite pipeline_dtor_run, IH.
    cbn [pipeline_release_events flat_map snd]. now rewrite <- app_assoc.
Qed.

Lemma layout_clear_run m tr :
  PipelineLayoutCache.clear m tr = Ok [] (tr ++ layout_release_events m).
Proof.
  unfold PipelineLayoutCache.clear, CacheMap.clear, bind.
  now rewrite layout_destroy_all_run.
Qed.

Lemma pipeline_clear_run m tr :
  ComputePipelineCache.clear m tr = Ok [] (tr ++ pipeline_release_events m).
Proof.
  unfold ComputePipelineCache.clear, CacheMap.clear, bind.
  now rewrite pipeline_destroy_all_run.
Qed.

Lemma layout_purge_run self tr :
  PipelineLayoutCache.purge self tr
  = Ok (PipelineLayoutCache.set_cache_ self [])
       (tr ++ EvLock (PipelineLayoutCache.cache_mutex_ self)
           :: layout_release_events (PipelineLayoutCache.cache_ self)
           ++ [EvUnlock (PipelineLayoutCache.cache_mutex_ self)]).
Proof.
  unfold PipelineLayoutCache.purge, lock_guard, bind, emit, ret.
  rewrite layout_clear_run. rewrite <- !app_assoc. reflexivity.
Qed.

Lemma pipeline_purge_run self tr :
  ComputePipelineCache.purge self tr
  = Ok (ComputePipelineCache.set_cache_ self [])
       (tr ++ pipeline_release_events (ComputePipelineCache.cache_ self)).
Proof.
  unfold ComputePipelineCache.purge, bind, ret.
  now rewrite pipeline_clear_run.
Qed.

Lemma pipeline_release_events_no_lock m :
  filter is_lock_event (pipeline_release_events m) = [].
Proof.
  induction m as [|[k v] m IH]; [reflexivity|].
  cbn [pipeline_release_events flat_map snd].
  rewrite filter_app. fold (pipeline_release_events m). rewrite IH.
  now destruct (VK_NULL_HANDLE =? ComputePipeline.handle_ v).
Qed.

(** C1 (as the code has it): [ComputePipelineCache::purge] empties the map
    of the cache, releasing every resident pipeline, without ever locking or
    unlocking a mutex; [ComputePipelineCache::retrieve] on the same cache
    starts by locking [cache_mutex_], and [PipelineLayoutCache::purge] runs
    between a lock and an unlock of its [cache_mutex_]. *)
Theorem C1_pipeline_purge_takes_no_lock :
  forall (drv : Driver) (self : ComputePipelineCache.t)
         (other : PipelineLayoutCache.t) (key : ComputePipelineCache.Key) (tr : Trace),
    (exists evs,
        ComputePipelineCache.purge self tr
        = Ok (ComputePipelineCache.set_cache_ self []) (tr ++ evs)
        /\ evs = pipeline_release_events (ComputePipelineCache.cache_ self)
        /\ filter is_lock_event evs = []) /\
    (exists evs,
        (ComputePipelineCache.retrieve drv self key tr
         = Fatal (tr ++ EvLock (ComputePipelineCache.cache_mutex_ self) :: evs)
         \/ exists r,
            ComputePipelineCache.retrieve drv self key tr
            = Ok r (tr ++ EvLock (ComputePipelineCache.cache_mutex_ self) :: evs
                       ++ [EvUnlock (ComputePipelineCache.cache_mutex_ self)]))) /\
    PipelineLayoutCache.purge other tr
    = Ok (PipelineLayoutCache.set_cache_ other [])
         (tr ++ EvLock (PipelineLayoutCache.cache_mutex_ other)
             :: layout_release_events (PipelineLayoutCache.cache_ other)
             ++ [EvUnlock (PipelineLayoutCache.cache_mutex_ other)]).
Proof.
  intros drv self other key tr. split; [|split].
  - exists (pipeline_release_events (ComputePipelineCache.cache_ self)).
    split; [apply pipeline_purge_run|].
    split; [reflexivity | apply pipeline_release_events_no_lock].
  - destruct (ComputePipelineCache.find key (ComputePipelineCache.cache_ self))
      as [it|] eqn:Hf.
    + exists []. right. eexists. now rewrite (pipeline_retrieve_hit drv _ _ _ tr Hf).
    + pose proof (pipeline_retrieve_miss drv self key tr Hf) as Hr. cbv zeta in Hr.
      rewrite Hr.
      match goal with
      | |- context [success ?r] => destruct (success r)
      end.
      * eexists [_]. right. eexists. reflexivity.
      * eexists [_]. left. reflexivity.
  - apply layout_purge_run.
Qed.

(** The purge of a pipeline cache with two resident pipelines: two release
    calls and nothing else, where the layout cache brackets its release calls
    with its mutex. *)
Example pipeline_purge_on_populated_cache :
  ComputePipelineCache.purge populated_pipeline_cache []
  = Ok empty_pipeline_cache [EvDestroyPipeline 1 43; EvDestroyPipeline 1 42]
  /\ PipelineLayoutCache.purge populated_layout_cache []
     = Ok empty_layout_cache
          [EvLock 3%nat; EvDestroyPipelineLayout 1 61; EvDestroyPipelineLayout 1 60;
           EvUnlock 3%nat].
Proof. split; reflexivity. Qed.

(** ** Key equality *)

Lemma uvec3_eq_true (a b : utils.uvec3) :
  utils.uvec3_eq a b = true <-> a = b.
Proof.
  unfold utils.uvec3_eq. destruct a as [a0 a1 a2], b as [b0 b1 b2]; cbn.
  rewrite !andb_true_iff, !Z.eqb_eq. split.
  - intros [[-> ->] ->]. reflexivity.
  - intros E. injection E as -> -> ->. auto.
Qed.

Lemma Descriptor_eq_true (a b : ComputePipeline.Descriptor) :
  ComputePipeline.Descriptor_eq a b = true <-> a = b.
Proof.
  unfold ComputePipeline.Descriptor_eq. destruct a as [al am ag], b as [bl bm bg]; cbn.
  rewrite !andb_true_iff, !Z.eqb_eq, uvec3_eq_true. split.
  - intros [[-> ->] ->]. reflexivity.
  - intros E. injection E as -> -> ->. auto.
Qed.

Lemma Descriptor_eq_refl (a : ComputePipeline.Descriptor) :
  ComputePipeline.Descriptor_eq a a = true.
Proof. now apply Descriptor_eq_true. Qed.

Lemma layout_Key_eq_true (a b : PipelineLayoutCache.Key) :
  PipelineLayoutCache.Key_eq a b = true <-> a = b.
Proof. apply Z.eqb_eq. Qed.

(** ** Two retrievals of equal keys *)

Lemma layout_retrieve_twice drv self k1 k2 tr h1 self1 tr1 :
  PipelineLayoutCache.Key_eq k1 k2 = true ->
  PipelineLayoutCache.retrieve drv self k1 tr = Ok (h1, self1) tr1 ->
  exists evs1 evs2,
    tr1 = tr ++ evs1 /\
    PipelineLayoutCache.retrieve drv self1 k2 tr1 = Ok (h1, self1) (tr1 ++ evs2) /\
    layout_creations evs2 = 0%nat /\
    (PipelineLayoutCache.find k1 (PipelineLayoutCache.cache_ self) = None ->
     layout_creations (evs1 ++ evs2) = 1%nat).
Proof.
  intros Hk Hr. apply layout_Key_eq_true in Hk. subst k2.
  destruct (PipelineLayoutCache.find k1 (PipelineLayoutCache.cache_ self))
    as [it|] eqn:Hf.
  - rewrite (layout_retrieve_hit drv _ _ _ tr Hf) in Hr. injection Hr as <- <- <-.
    do 2 eexists. split; [reflexivity|]. split; [|split].
    + rewrite (layout_retrieve_hit drv self k1 it _ Hf). reflexivity.
    + reflexivity.
    + discriminate.
  - pose proof (layout_retrieve_miss drv self k1 tr Hf) as Hm. cbv zeta in Hm.
    rewrite Hm in Hr. clear Hm.
    destruct (success _) eqn:Hs in Hr; [|discriminate].
    injection Hr as <- <- <-.
    do 2 eexists. split; [reflexivity|]. split; [|split].
    + match goal with
      | |- PipelineLayoutCache.retrieve _
             (PipelineLayoutCache.set_cache_ _ ((_, ?v) :: _)) _ _ = _ =>
          rewrite (layout_retrieve_hit drv _ k1 v)
      end; [reflexivity|].
      cbn. unfold PipelineLayoutCache.Key_eq. now rewrite Z.eqb_refl.
    + reflexivity.
    + intros _. reflexivity.
Qed.

Lemma pipeline_retrieve_twice drv self k1 k2 tr h1 self1 tr1 :
  ComputePipelineCache.Key_eq k1 k2 = true ->
  ComputePipelineCache.retrieve drv self k1 tr = Ok (h1, self1) tr1 ->
  exists evs1 evs2,
    tr1 = tr ++ evs1 /\
    ComputePipelineCache.retrieve drv self1 k2 tr1 = Ok (h1, self1) (tr1 ++ evs2) /\
    pipeline_creations evs2 = 0%nat /\
    (ComputePipelineCache.find k1 (ComputePipelineCache.cache_ self) = None ->
     pipeline_creations (evs1 ++ evs2) = 1%nat).
Proof.
  intros Hk Hr. apply Descriptor_eq_true in Hk. subst k2.
  destruct (ComputePipelineCache.find k1 (ComputePipelineCache.cache_ self))
    as [it|] eqn:Hf.
  - rewrite (pipeline_retrieve_hit drv _ _ _ tr Hf) in Hr. injection Hr as <- <- <-.
    do 2 eexists. split; [reflexivity|]. split; [|split].
    + rewrite (pipeline_retrieve_hit drv self k1 it _ Hf). reflexivity.
    + reflexivity.
    + discriminate.
  - pose proof (pipeline_retrieve_miss drv self k1 tr Hf) as Hm. cbv zeta in Hm.
    rewrite Hm in Hr. clear Hm.
    destruct (success _) eqn:Hs in Hr; [|discriminate].
    injection Hr as <- <- <-.
    do 2 eexists. split; [reflexivity|]. split; [|split].
    + match goal with
      | |- ComputePipelineCache.retrieve _
             (ComputePipelineCache.set_cache_ _ ((_, ?v) :: _)) _ _ = _ =>
          rewrite (pipeline_retrieve_hit drv _ k1 v)
      end; [reflexivity|].
      cbn. unfold ComputePipelineCache.Key_eq. now rewrite Descriptor_eq_refl.
    + reflexivity.
    + intros _. reflexivity.
Qed.


(** ** Keys that differ, and the handles a driver gives them *)

Lemma differ_in_one_field_neq k1 k2 :
  differ_in_one_field k1 k2 -> k1 <> k2.
Proof.
  unfold differ_in_one_field. intros H E. subst k2.
  repeat match goal with
         | H : _ \/ _ |- _ => destruct H
         | H : _ /\ _ |- _ => destruct H
         end; congruence.
Qed.

Lemma Descriptor_eq_false (a b : ComputePipeline.Descriptor) :
  a <> b -> ComputePipeline.Descriptor_eq a b = false.
Proof.
  intros N. destruct (ComputePipeline.Descriptor_eq a b) eqn:E; [|reflexivity].
  apply Descriptor_eq_true in E. contradiction.
Qed.

Lemma success_true r : success r = true -> r = VK_SUCCESS.
Proof. destruct r; [reflexivity | discriminate]. Qed.

Lemma live_pipelines_from_app live evs1 evs2 :
  live_pipelines_from live (evs1 ++ evs2)
  = live_pipelines_from (live_pipelines_from live evs1) evs2.
Proof.
  revert live. induction evs1 as [|e evs1 IH]; intros live; [reflexivity|].
  destruct e; cbn [app live_pipelines_from]; try apply IH.
  destruct r; apply IH.
Qed.

Lemma created_pipelines_app evs1 evs2 :
  created_pipelines (evs1 ++ evs2) = created_pipelines evs1 ++ created_pipelines evs2.
Proof.
  induction evs1 as [|e evs1 IH]; [reflexivity|].
  destruct e; cbn [app created_pipelines]; try apply IH.
  destruct r; [cbn; now rewrite IH | apply IH].
Qed.

Lemma created_layouts_app evs1 evs2 :
  created_layouts (evs1 ++ evs2) = created_layouts evs1 ++ created_layouts evs2.
Proof.
  induction evs1 as [|e evs1 IH]; [reflexivity|].
  destruct e; cbn [app created_layouts]; try apply IH.
  destruct r; [cbn; now rewrite IH | apply IH].
Qed.

Lemma le_above (l : list Z) (x : Z) : In x l -> x < above l.
Proof.
  unfold above. induction l as [|y l IH]; cbn [fold_right In]; [tauto|].
  intros [->|H]; [lia|]. specialize (IH H). lia.
Qed.

Lemma above_fresh (l : list Z) : ~ In (above l) l.
Proof. intros H. apply le_above in H. lia. Qed.

Lemma recycling_driver_unique_live : unique_live_pipelines recycling_driver.
Proof.
  intros tr device pc n info h E. cbn in E. injection E as <-. apply above_fresh.
Qed.

Lemma counting_driver_never_reissues_pipelines :
  never_reissues_pipelines counting_driver.
Proof.
  intros tr device pc n info h E. cbn in E. injection E as <-. apply above_fresh.
Qed.

Lemma counting_driver_never_reissues_layouts :
  never_reissues_layouts counting_driver.
Proof.
  intros tr device info h E. cbn in E. injection E as <-. apply above_fresh.
Qed.

Lemma pipeline_retrieve_miss_ok drv self key tr h self' tr' :
  ComputePipelineCache.find key (ComputePipelineCache.cache_ self) = None ->
  ComputePipelineCache.retrieve drv self key tr = Ok (h, self') tr' ->
  let m := ComputePipelineCache.cache_mutex_ self in
  let d := ComputePipelineCache.device_ self in
  let pc := ComputePipelineCache.pipeline_cache_ self in
  let info := ComputePipeline.compute_pipeline_create_info key in
  vkCreateComputePipelines drv (tr ++ [EvLock m]) d pc 1 info = (VK_SUCCESS, h) /\
  self' = ComputePipelineCache.set_cache_ self
            ((key, ComputePipeline.mk d h) :: ComputePipelineCache.cache_ self) /\
  tr' = tr ++ [EvLock m; EvCreateComputePipelines d pc 1 info VK_SUCCESS h; EvUnlock m].
Proof.
  intros Hf Hr m d pc info.
  pose proof (pipeline_retrieve_miss drv self key tr Hf) as Hm. cbv zeta in Hm.
  fold m d pc info in Hm. rewrite Hm in Hr. clear Hm.
  destruct (vkCreateComputePipelines drv (tr ++ [EvLock m]) d pc 1 info) as [r x].
  cbn [fst snd] in Hr. destruct r; cbn [success] in Hr; [|discriminate].
  injection Hr as <- <- <-. auto.
Qed.

Lemma layout_retrieve_miss_ok drv self key tr h self' tr' :
  PipelineLayoutCache.find key (PipelineLayoutCache.cache_ self) = None ->
  PipelineLayoutCache.retrieve drv self key tr = Ok (h, self') tr' ->
  let m := PipelineLayoutCache.cache_mutex_ self in
  let d := PipelineLayoutCache.device_ self in
  let info := PipelineLayout.create_info key in
  vkCreatePipelineLayout drv (tr ++ [EvLock m]) d info = (VK_SUCCESS, h) /\
  self' = PipelineLayoutCache.set_cache_ self
            ((key, PipelineLayout.mk d h) :: PipelineLayoutCache.cache_ self) /\
  tr' = tr ++ [EvLock m; EvCreatePipelineLayout d info VK_SUCCESS h; EvUnlock m].
Proof.
  intros Hf Hr m d info.
  pose proof (layout_retrieve_miss drv self key tr Hf) as Hm. cbv zeta in Hm.
  fold m d info in Hm. rewrite Hm in Hr. clear Hm.
  destruct (vkCreatePipelineLayout drv (tr ++ [EvLock m]) d info) as [r x].
  cbn [fst snd] in Hr. destruct r; cbn [success] in Hr; [|discriminate].
  injection Hr as <- <- <-. auto.
Qed.

(** C3 (amended): two pipeline keys that differ in exactly one field (the
    layout, the shader module, or one component of the launch geometry)
    compare unequal; when neither is resident, [retrieve(k1)] followed by
    [retrieve(k2)] makes two creation calls and returns the two handles the
    driver gave for them, in that order; the two handles differ provided the
    driver gives a new pipeline a handle that no living pipeline has. *)
Theorem C3_keys_differing_in_one_field :
  forall (drv : Driver) (self : ComputePipelineCache.t)
         (k1 k2 : ComputePipelineCache.Key) (tr : Trace)
         h1 self1 tr1 h2 self2 tr2,
    differ_in_one_field k1 k2 ->
    ComputePipelineCache.find k1 (ComputePipelineCache.cache_ self) = None ->
    ComputePipelineCache.find k2 (ComputePipelineCache.cache_ self) = None ->
    ComputePipelineCache.retrieve drv self k1 tr = Ok (h1, self1) tr1 ->
    ComputePipelineCache.retrieve drv self1 k2 tr1 = Ok (h2, self2) tr2 ->
    ComputePipeline.Descriptor_eq k1 k2 = false /\
    (exists evs, tr2 = tr ++ evs /\ pipeline_creations evs = 2%nat /\
                 created_pipelines evs = [h1; h2]) /\
    (unique_live_pipelines drv -> h1 <> h2).
Proof.
  intros drv self k1 k2 tr h1 self1 tr1 h2 self2 tr2 Hd Hf1 Hf2 Hr1 Hr2.
  pose proof (Descriptor_eq_false _ _ (differ_in_one_field_neq _ _ Hd)) as Hne.
  split; [exact Hne|].
  destruct (pipeline_retrieve_miss_ok _ _ _ _ _ _ _ Hf1 Hr1) as (Hc1 & -> & ->).
  assert (Hf2' : ComputePipelineCache.find k2
                   (ComputePipelineCache.cache_
                      (ComputePipelineCache.set_cache_ self
                         ((k1, ComputePipeline.mk (ComputePipelineCache.device_ self) h1)
                            :: ComputePipelineCache.cache_ self))) = None).
  { cbn. unfold ComputePipelineCache.Key_eq. rewrite Hne. exact Hf2. }
  destruct (pipeline_retrieve_miss_ok _ _ _ _ _ _ _ Hf2' Hr2) as (Hc2 & -> & ->).
  split.
  - eexists. rewrite <- app_assoc. split; [reflexivity|].
    split; [unfold pipeline_creations; cbn; reflexivity | reflexivity].
  - intros Hdrv E. apply Hdrv in Hc2. apply Hc2. unfold live_pipelines.
    rewrite <- app_assoc, live_pipelines_from_app.
    cbn. left. exact E.
Qed.

Lemma C3_keys_differing_in_one_field_witness :
  unique_live_pipelines recycling_driver /\
  differ_in_one_field key_8_8_1 key_8_16_1 /\
  ComputePipelineCache.retrieve recycling_driver empty_pipeline_cache key_8_8_1 []
  = Ok (1, ComputePipelineCache.mk 7%nat 1 5 [(key_8_8_1, ComputePipeline.mk 1 1)])
       [EvLock 7%nat;
        EvCreateComputePipelines 1 5 1
          (ComputePipeline.compute_pipeline_create_info key_8_8_1) VK_SUCCESS 1;
        EvUnlock 7%nat] /\
  ComputePipeline.Descriptor_eq key_8_8_1 key_8_16_1 = false /\
  (exists evs,
    [EvLock 7%nat;
     EvCreateComputePipelines 1 5 1
       (ComputePipeline.compute_pipeline_create_info key_8_8_1) VK_SUCCESS 1;
     EvUnlock 7%nat;
     EvLock 7%nat;
     EvCreateComputePipelines 1 5 1
       (ComputePipeline.compute_pipeline_create_info key_8_16_1) VK_SUCCESS 2;
     EvUnlock 7%nat] = [] ++ evs
    /\ pipeline_creations evs = 2%nat
    /\ created_pipelines evs = [1; 2]) /\
  1 <> 2.
Proof.
  assert (Hd : differ_in_one_field key_8_8_1 key_8_16_1).
  { right. right. cbn. repeat split; try reflexivity.
    right. left. repeat split; try reflexivity. discriminate. }
  split; [apply recycling_driver_unique_live|].
  split; [exact Hd|].
  split; [reflexivity|].
  cut (ComputePipeline.Descriptor_eq key_8_8_1 key_8_16_1 = false /\
       (exists evs,
           [EvLock 7%nat;
            EvCreateComputePipelines 1 5 1
              (ComputePipeline.compute_pipeline_create_info key_8_8_1) VK_SUCCESS 1;
            EvUnlock 7%nat;
            EvLock 7%nat;
            EvCreateComputePipelines 1 5 1
              (ComputePipeline.compute_pipeline_create_info key_8_16_1) VK_SUCCESS 2;
            EvUnlock 7%nat] = [] ++ evs
           /\ pipeline_creations evs = 2%nat
           /\ created_pipelines evs = [1; 2]) /\
       (unique_live_pipelines recycling_driver -> 1 <> 2)).
  { intros (Hne & Hevs & Hdist).
    split; [exact Hne|]. split; [exact Hevs|].
    exact (Hdist recycling_driver_unique_live). }
  apply (C3_keys_differing_in_one_field recycling_driver empty_pipeline_cache
           key_8_8_1 key_8_16_1 [] 1
           (ComputePipelineCache.mk 7%nat 1 5 [(key_8_8_1, ComputePipeline.mk 1 1)])
           [EvLock 7%nat;
            EvCreateComputePipelines 1 5 1
              (ComputePipeline.compute_pipeline_create_info key_8_8_1) VK_SUCCESS 1;
            EvUnlock 7%nat]
           2
           (ComputePipelineCache.mk 7%nat 1 5
              [(key_8_16_1, ComputePipeline.mk 1 2); (key_8_8_1, ComputePipeline.mk 1 1)])).
  - exact Hd.
  - reflexivity.
  - reflexivity.
  - reflexivity.
  - reflexivity.
Defined.

(** C3 as stated does not hold: the handles are the driver's to choose.
    With a driver that returns the same value from every creation, two keys
    that differ in the second component of the launch geometry, retrieved
    from an empty cache, lead to two creation calls and to one handle. *)
Lemma C3_one_handle_for_two_keys :
  ~ (forall (drv : Driver) (self : ComputePipelineCache.t)
            (k1 k2 : ComputePipelineCache.Key) (tr : Trace)
            h1 self1 tr1 h2 self2 tr2,
        differ_in_one_field k1 k2 ->
        ComputePipelineCache.find k1 (ComputePipelineCache.cache_ self) = None ->
        ComputePipelineCache.find k2 (ComputePipelineCache.cache_ self) = None ->
        ComputePipelineCache.retrieve drv self k1 tr = Ok (h1, self1) tr1 ->
        ComputePipelineCache.retrieve drv self1 k2 tr1 = Ok (h2, self2) tr2 ->
        ComputePipeline.Descriptor_eq k1 k2 = false /\
        h1 <> h2 /\
        exists evs, tr2 = tr ++ evs /\ pipeline_creations evs = 2%nat).
Proof.
  intros H.
  assert (Hd : differ_in_one_field key_8_8_1 key_8_16_1).
  { right. right. cbn. repeat split; try reflexivity.
    right. left. repeat split; try reflexivity. discriminate. }
  destruct (H constant_driver empty_pipeline_cache key_8_8_1 key_8_16_1 [] 9
              (ComputePipelineCache.mk 7%nat 1 5 [(key_8_8_1, ComputePipeline.mk 1 9)])
              [EvLock 7%nat;
               EvCreateComputePipelines 1 5 1
                 (ComputePipeline.compute_pipeline_create_info key_8_8_1) VK_SUCCESS 9;
               EvUnlock 7%nat]
              9
              (ComputePipelineCache.mk 7%nat 1 5
                 [(key_8_16_1, ComputePipeline.mk 1 9); (key_8_8_1, ComputePipeline.mk 1 9)])
              [EvLock 7%nat;
               EvCreateComputePipelines 1 5 1
                 (ComputePipeline.compute_pipeline_create_info key_8_8_1) VK_SUCCESS 9;
               EvUnlock 7%nat;
               EvLock 7%nat;
               EvCreateComputePipelines 1 5 1
                 (ComputePipeline.compute_pipeline_create_info key_8_16_1) VK_SUCCESS 9;
               EvUnlock 7%nat]
              Hd eq_refl eq_refl eq_refl eq_refl) as (_ & Hne & _).
  now apply Hne.
Qed.


(** ** Purge, then retrieve *)

Lemma layout_purge_then_retrieve drv self k it tr h' self2 tr2 :
  PipelineLayoutCache.find k (PipelineLayoutCache.cache_ self) = Some it ->
  exists self1 evs1,
    PipelineLayoutCache.purge self tr = Ok self1 (tr ++ evs1) /\
    PipelineLayoutCache.cache_ self1 = [] /\
    (PipelineLayoutCache.retrieve drv self1 k (tr ++ evs1) = Ok (h', self2) tr2 ->
     exists evs2,
       tr2 = (tr ++ evs1) ++ evs2 /\
       layout_creations evs2 = 1%nat /\
       created_layouts evs2 = [h'] /\
       (never_reissues_layouts drv ->
        In (PipelineLayout.handle it) (created_layouts tr) ->
        h' <> PipelineLayout.handle it)).
Proof.
  intros Hf. do 2 eexists. split; [apply layout_purge_run|]. split; [reflexivity|].
  intros Hr.
  apply layout_retrieve_miss_ok in Hr; [|reflexivity].
  destruct Hr as (Hc & -> & ->).
  eexists. split; [reflexivity|]. split; [reflexivity|]. split; [reflexivity|].
  intros Hdrv Hin E. apply Hdrv in Hc. apply Hc.
  rewrite !created_layouts_app. apply in_or_app. left. apply in_or_app. left.
  now rewrite E.
Qed.

Lemma pipeline_purge_then_retrieve drv self k it tr h' self2 tr2 :
  ComputePipelineCache.find k (ComputePipelineCache.cache_ self) = Some it ->
  exists self1 evs1,
    ComputePipelineCache.purge self tr = Ok self1 (tr ++ evs1) /\
    ComputePipelineCache.cache_ self1 = [] /\
    (ComputePipelineCache.retrieve drv self1 k (tr ++ evs1) = Ok (h', self2) tr2 ->
     exists evs2,
       tr2 = (tr ++ evs1) ++ evs2 /\
       pipeline_creations evs2 = 1%nat /\
       created_pipelines evs2 = [h'] /\
       (never_reissues_pipelines drv ->
        In (ComputePipeline.handle it) (created_pipelines tr) ->
        h' <> ComputePipeline.handle it)).
Proof.
  intros Hf. do 2 eexists. split; [apply pipeline_purge_run|]. split; [reflexivity|].
  intros Hr.
  apply pipeline_retrieve_miss_ok in Hr; [|reflexivity].
  destruct Hr as (Hc & -> & ->).
  eexists. split; [reflexivity|]. split; [reflexivity|]. split; [reflexivity|].
  intros Hdrv Hin E. apply Hdrv in Hc. apply Hc.
  rewrite !created_pipelines_app. apply in_or_app. left. apply in_or_app. left.
  now rewrite E.
Qed.

(** C4 (amended): for a key [k] resident in a layout cache or in a pipeline
    cache, [purge()] succeeds and leaves the map empty, and a following
    [retrieve(k)] that returns makes exactly one creation call and returns
    the handle which that call produced.  That handle differs from the
    pre-purge handle of [k] whenever the driver never hands out again a
    handle value it has handed out before. *)
Theorem C4_purge_then_retrieve_creates_anew :
  forall (drv : Driver),
    (forall self k it tr h' self2 tr2,
        PipelineLayoutCache.find k (PipelineLayoutCache.cache_ self) = Some it ->
        exists self1 evs1,
          PipelineLayoutCache.purge self tr = Ok self1 (tr ++ evs1) /\
          PipelineLayoutCache.cache_ self1 = [] /\
          (PipelineLayoutCache.retrieve drv self1 k (tr ++ evs1) = Ok (h', self2) tr2 ->
           exists evs2,
             tr2 = (tr ++ evs1) ++ evs2 /\
             layout_creations evs2 = 1%nat /\
             created_layouts evs2 = [h'] /\
             (never_reissues_layouts drv ->
              In (PipelineLayout.handle it) (created_layouts tr) ->
              h' <> PipelineLayout.handle it))) /\
    (forall self k it tr h' self2 tr2,
        ComputePipelineCache.find k (ComputePipelineCache.cache_ self) = Some it ->
        exists self1 evs1,
          ComputePipelineCache.purge self tr = Ok self1 (tr ++ evs1) /\
          ComputePipelineCache.cache_ self1 = [] /\
          (ComputePipelineCache.retrieve drv self1 k (tr ++ evs1) = Ok (h', self2) tr2 ->
           exists evs2,
             tr2 = (tr ++ evs1) ++ evs2 /\
             pipeline_creations evs2 = 1%nat /\
             created_pipelines evs2 = [h'] /\
             (never_reissues_pipelines drv ->
              In (ComputePipeline.handle it) (created_pipelines tr) ->
              h' <> ComputePipeline.handle it))).
Proof.
  intros drv. split; intros.
  - now apply layout_purge_then_retrieve.
  - now apply pipeline_purge_then_retrieve.
Qed.

(** C4 as stated does not hold: with a driver that gives a new pipeline the
    first handle value that no living pipeline has, a key retrieved from an
    empty cache gets handle 1, the purge releases it, and the retrieval after
    the purge makes a new creation call that returns handle 1 again. *)
Lemma C4_handle_value_returns_after_purge :
  ~ (forall (drv : Driver) self k it tr self1 tr1 h' self2 tr2,
        unique_live_pipelines drv ->
        ComputePipelineCache.find k (ComputePipelineCache.cache_ self) = Some it ->
        ComputePipelineCache.purge self tr = Ok self1 tr1 ->
        ComputePipelineCache.retrieve drv self1 k tr1 = Ok (h', self2) tr2 ->
        ComputePipelineCache.cache_ self1 = [] /\
        (exists evs, tr2 = tr1 ++ evs /\ pipeline_creations evs = 1%nat) /\
        h' <> ComputePipeline.handle it).
Proof.
  intros H.
  pose (tr := [EvLock 7%nat;
               EvCreateComputePipelines 1 5 1
                 (ComputePipeline.compute_pipeline_create_info key_8_8_1) VK_SUCCESS 1;
               EvUnlock 7%nat]).
  pose (self := ComputePipelineCache.mk 7%nat 1 5 [(key_8_8_1, ComputePipeline.mk 1 1)]).
  assert (Hreach :
            ComputePipelineCache.retrieve recycling_driver empty_pipeline_cache key_8_8_1 []
            = Ok (1, self) tr) by reflexivity.
  destruct (H recycling_driver self key_8_8_1 (ComputePipeline.mk 1 1) tr
              empty_pipeline_cache (tr ++ [EvDestroyPipeline 1 1])
              1 self
              (tr ++ [EvDestroyPipeline 1 1;
                      EvLock 7%nat;
                      EvCreateComputePipelines 1 5 1
                        (ComputePipeline.compute_pipeline_create_info key_8_8_1)
                        VK_SUCCESS 1;
                      EvUnlock 7%nat])
              recycling_driver_unique_live eq_refl eq_refl eq_refl)
    as (_ & _ & Hneq).
  apply Hneq. reflexivity.
Qed.

(** The same run, spelled out. *)
Example recycled_handle_run :
  ComputePipelineCache.retrieve recycling_driver empty_pipeline_cache key_8_8_1 []
  = Ok (1, ComputePipelineCache.mk 7%nat 1 5 [(key_8_8_1, ComputePipeline.mk 1 1)])
       [EvLock 7%nat;
        EvCreateComputePipelines 1 5 1
          (ComputePipeline.compute_pipeline_create_info key_8_8_1) VK_SUCCESS 1;
        EvUnlock 7%nat] /\
  ComputePipelineCache.purge
    (ComputePipelineCache.mk 7%nat 1 5 [(key_8_8_1, ComputePipeline.mk 1 1)])
    [EvLock 7%nat;
     EvCreateComputePipelines 1 5 1
       (ComputePipeline.compute_pipeline_create_info key_8_8_1) VK_SUCCESS 1;
     EvUnlock 7%nat]
  = Ok empty_pipeline_cache
       [EvLock 7%nat;
        EvCreateComputePipelines 1 5 1
          (ComputePipeline.compute_pipeline_create_info key_8_8_1) VK_SUCCESS 1;
        EvUnlock 7%nat;
        EvDestroyPipeline 1 1] /\
  ComputePipelineCache.retrieve recycling_driver empty_pipeline_cache key_8_8_1
    [EvLock 7%nat;
     EvCreateComputePipelines 1 5 1
       (ComputePipeline.compute_pipeline_create_info key_8_8_1) VK_SUCCESS 1;
     EvUnlock 7%nat;
     EvDestroyPipeline 1 1]
  = Ok (1, ComputePipelineCache.mk 7%nat 1 5 [(key_8_8_1, ComputePipeline.mk 1 1)])
       [EvLock 7%nat;
        EvCreateComputePipelines 1 5 1
          (ComputePipeline.compute_pipeline_create_info key_8_8_1) VK_SUCCESS 1;
        EvUnlock 7%nat;
        EvDestroyPipeline 1 1;
        EvLock 7%nat;
        EvCreateComputePipelines 1 5 1
          (ComputePipeline.compute_pipeline_create_info key_8_8_1) VK_SUCCESS 1;
        EvUnlock 7%nat].
Proof. repeat split. Qed.

Lemma C4_purge_then_retrieve_creates_anew_witness :
  let tr0 := [EvLock 7%nat;
              EvCreateComputePipelines 1 5 1
                (ComputePipeline.compute_pipeline_create_info key_8_8_1) VK_SUCCESS 1;
              EvUnlock 7%nat] in
  let self0 := ComputePipelineCache.mk 7%nat 1 5 [(key_8_8_1, ComputePipeline.mk 1 1)] in
  let tr2 := tr0 ++ [EvDestroyPipeline 1 1;
                     EvLock 7%nat;
                     EvCreateComputePipelines 1 5 1
                       (ComputePipeline.compute_pipeline_create_info key_8_8_1)
                       VK_SUCCESS 2;
                     EvUnlock 7%nat] in
  ComputePipelineCache.find key_8_8_1 (ComputePipelineCache.cache_ self0)
  = Some (ComputePipeline.mk 1 1) /\
  never_reissues_pipelines counting_driver /\
  In 1 (created_pipelines tr0) /\
  ComputePipelineCache.purge self0 tr0
  = Ok empty_pipeline_cache (tr0 ++ [EvDestroyPipeline 1 1]) /\
  ComputePipelineCache.retrieve counting_driver empty_pipeline_cache key_8_8_1
    (tr0 ++ [EvDestroyPipeline 1 1])
  = Ok (2, ComputePipelineCache.mk 7%nat 1 5 [(key_8_8_1, ComputePipeline.mk 1 2)]) tr2 /\
  (exists evs2,
      tr2 = (tr0 ++ [EvDestroyPipeline 1 1]) ++ evs2 /\
      pipeline_creations evs2 = 1%nat /\
      created_pipelines evs2 = [2]) /\
  2 <> 1.
Proof.
  intros tr0 self0 tr2.
  assert (Hf : ComputePipelineCache.find key_8_8_1 (ComputePipelineCache.cache_ self0)
               = Some (ComputePipeline.mk 1 1)) by reflexivity.
  assert (Hin : In 1 (created_pipelines tr0)) by (left; reflexivity).
  destruct (proj2 (C4_purge_then_retrieve_creates_anew counting_driver)
              self0 key_8_8_1 (ComputePipeline.mk 1 1) tr0 2
              (ComputePipelineCache.mk 7%nat 1 5 [(key_8_8_1, ComputePipeline.mk 1 2)])
              tr2 Hf)
    as (self1 & evs1 & Hp & Hc & Hr).
  assert (Hp' : ComputePipelineCache.purge self0 tr0
                = Ok empty_pipeline_cache (tr0 ++ [EvDestroyPipeline 1 1]))
    by reflexivity.
  rewrite Hp' in Hp. injection Hp as E1 E2. subst self1 evs1.
  destruct (Hr eq_refl) as (evs2 & Ht & Hn & Hcr & Hneq).
  repeat split; try assumption.
  - apply counting_driver_never_reissues_pipelines.
  - exists evs2. auto.
  - apply Hneq; [apply counting_driver_never_reissues_pipelines | exact Hin].
Defined.

(** ** Construction of a compute pipeline *)

Lemma bytes_value_uint32_bytes (v : Z) :
  utils.is_uint32 v -> utils.bytes_value (utils.uint32_bytes v) = v.
Proof.
  unfold utils.is_uint32, utils.uint32_bytes, utils.bytes_value. intros Hv.
  Z.div_mod_to_equations. lia.
Qed.

Lemma specialization_constants_of (d : ComputePipeline.Descriptor) :
  let g := ComputePipeline.local_work_group d in
  let sp := ComputePipeline.specialization_info d in
  specialization_constant sp 0 = Some (utils.bytes_value (utils.uint32_bytes (utils.data0 g))) /\
  specialization_constant sp 1 = Some (utils.bytes_value (utils.uint32_bytes (utils.data1 g))) /\
  specialization_constant sp 2 = Some (utils.bytes_value (utils.uint32_bytes (utils.data2 g))).
Proof. repeat split. Qed.

Lemma specialization_constant_other (d : ComputePipeline.Descriptor) (id : Z) :
  id <> 0 -> id <> 1 -> id <> 2 ->
  specialization_constant (ComputePipeline.specialization_info d) id = None.
Proof.
  intros H0 H1 H2. unfold specialization_constant.
  change (firstn (Z.to_nat (mapEntryCount (ComputePipeline.specialization_info d)))
            (pMapEntries (ComputePipeline.specialization_info d)))
    with ComputePipeline.specialization_map_entires.
  unfold ComputePipeline.specialization_map_entires. cbn [List.find constantID].
  apply Z.eqb_neq in H0, H1, H2.
  rewrite (Z.eqb_sym 0 id), (Z.eqb_sym 1 id), (Z.eqb_sym 2 id), H0, H1, H2.
  reflexivity.
Qed.

(** C6: the constructor of [ComputePipeline] makes one creation call, for one
    pipeline; the create-info it passes binds the compute stage of the
    descriptor's shader module at the entry symbol "main", and carries three
    specialization map entries with the ids 0, 1 and 2, through which the
    driver reads the x, y and z components of the descriptor's launch
    geometry. *)
Theorem C6_one_compute_stage_three_constants :
  forall (drv : Driver) (device : VkDevice) (descriptor : ComputePipeline.Descriptor)
         (pipeline_cache : VkPipelineCache) (tr : Trace),
    let g := ComputePipeline.local_work_group descriptor in
    utils.is_uint32 (utils.data g 0) ->
    utils.is_uint32 (utils.data g 1) ->
    utils.is_uint32 (utils.data g 2) ->
    exists info sp,
      let rh := vkCreateComputePipelines drv tr device pipeline_cache 1 info in
      let tr' := tr ++ [EvCreateComputePipelines device pipeline_cache 1 info
                          (fst rh) (snd rh)] in
      ComputePipeline.ctor drv device descriptor pipeline_cache tr
      = (if success (fst rh) then Ok (ComputePipeline.mk device (snd rh)) tr'
         else Fatal tr') /\
      stage (cp_stage info) = VK_SHADER_STAGE_COMPUTE_BIT /\
      pName (cp_stage info) = "main"%string /\
      module (cp_stage info) = ComputePipeline.shader_module descriptor /\
      layout info = ComputePipeline.pipeline_layout descriptor /\
      pSpecializationInfo (cp_stage info) = Some sp /\
      mapEntryCount sp = 3 /\
      map constantID (pMapEntries sp) = [0; 1; 2] /\
      specialization_constant sp 0 = Some (utils.data g 0) /\
      specialization_constant sp 1 = Some (utils.data g 1) /\
      specialization_constant sp 2 = Some (utils.data g 2) /\
      (forall id, id <> 0 -> id <> 1 -> id <> 2 -> specialization_constant sp id = None).
Proof.
  intros drv device descriptor pipeline_cache tr g Hx Hy Hz.
  exists (ComputePipeline.compute_pipeline_create_info descriptor),
         (ComputePipeline.specialization_info descriptor).
  cbv zeta. split.
  { unfold ComputePipeline.ctor. run_m.
    destruct (success _); [now rewrite app_nil_r || reflexivity | reflexivity]. }
  do 7 (split; [reflexivity|]).
  destruct (specialization_constants_of descriptor) as (E0 & E1 & E2).
  cbv zeta in E0, E1, E2. fold g in E0, E1, E2.
  change (utils.data g 0) with (utils.data0 g) in *.
  change (utils.data g 1) with (utils.data1 g) in *.
  change (utils.data g 2) with (utils.data2 g) in *.
  rewrite E0, E1, E2, !bytes_value_uint32_bytes by assumption.
  repeat split. apply specialization_constant_other.
Qed.

Lemma C6_one_compute_stage_three_constants_witness :
  utils.is_uint32 8 /\ utils.is_uint32 16 /\ utils.is_uint32 1 /\
  exists info sp,
    ComputePipeline.ctor counting_driver 1 key_8_16_1 5 []
    = Ok (ComputePipeline.mk 1 1)
         [EvCreateComputePipelines 1 5 1 info VK_SUCCESS 1] /\
    stage (cp_stage info) = VK_SHADER_STAGE_COMPUTE_BIT /\
    pName (cp_stage info) = "main"%string /\
    pSpecializationInfo (cp_stage info) = Some sp /\
    map constantID (pMapEntries sp) = [0; 1; 2] /\
    pData sp = [8; 0; 0; 0; 16; 0; 0; 0; 1; 0; 0; 0] /\
    specialization_constant sp 0 = Some 8 /\
    specialization_constant sp 1 = Some 16 /\
    specialization_constant sp 2 = Some 1.
Proof.
  assert (H8 : utils.is_uint32 8) by (unfold utils.is_uint32; lia).
  assert (H16 : utils.is_uint32 16) by (unfold utils.is_uint32; lia).
  assert (H1 : utils.is_uint32 1) by (unfold utils.is_uint32; lia).
  do 3 (split; [assumption|]).
  destruct (C6_one_compute_stage_three_constants counting_driver 1 key_8_16_1 5 []
              H8 H16 H1)
    as (info & sp & Hrun & Hst & Hn & Hm & Hl & Hsp & Hcnt & Hids & Hc0 & Hc1 & Hc2 & _).
  exists info, sp. cbn in Hrun. cbn in Hsp.
  repeat split; try assumption.
  unfold ComputePipeline.ctor in Hrun.
  unfold bind, call_vkCreateComputePipelines, VK_CHECK, ret in Hrun. cbn in Hrun.
  injection Hrun as Hinfo. subst info. cbn in Hsp. injection Hsp as <-. reflexivity.
Defined.

(** ** Destruction and move construction of the caches *)

Lemma pipeline_cache_dtor_run self tr :
  ComputePipelineCache.dtor self tr
  = Ok (ComputePipelineCache.mk (ComputePipelineCache.cache_mutex_ self)
          (ComputePipelineCache.device_ self)
          (if VK_NULL_HANDLE =? ComputePipelineCache.pipeline_cache_ self
           then ComputePipelineCache.pipeline_cache_ self else VK_NULL_HANDLE)
          [])
       (tr ++ pipeline_release_events (ComputePipelineCache.cache_ self)
           ++ (if VK_NULL_HANDLE =? ComputePipelineCache.pipeline_cache_ self then []
               else [EvDestroyPipelineCache (ComputePipelineCache.device_ self)
                       (ComputePipelineCache.pipeline_cache_ self)])).
Proof.
  unfold ComputePipelineCache.dtor, bind. rewrite pipeline_purge_run.
  destruct self as [m d pc c].
  cbn [ComputePipelineCache.set_cache_ ComputePipelineCache.pipeline_cache_
         ComputePipelineCache.cache_mutex_ ComputePipelineCache.device_
         ComputePipelineCache.cache_].
  destruct (VK_NULL_HANDLE =? pc); run_m; cbn; rewrite ?app_nil_r, <- ?app_assoc;
    reflexivity.
Qed.

Lemma layout_cache_dtor_run self tr :
  PipelineLayoutCache.dtor self tr
  = Ok (PipelineLayoutCache.set_cache_ self [])
       (tr ++ EvLock (PipelineLayoutCache.cache_mutex_ self)
           :: layout_release_events (PipelineLayoutCache.cache_ self)
           ++ [EvUnlock (PipelineLayoutCache.cache_mutex_ self)]).
Proof.
  unfold PipelineLayoutCache.dtor, bind. rewrite layout_purge_run.
  reflexivity.
Qed.

Lemma pipeline_release_events_no_cache_release m :
  Forall (fun e => is_pipeline_cache_release e = false) (pipeline_release_events m).
Proof.
  induction m as [|[k v] m IH]; [constructor|].
  cbn [pipeline_release_events flat_map snd].
  destruct (VK_NULL_HANDLE =? ComputePipeline.handle_ v); cbn [app]; [exact IH|].
  constructor; [reflexivity | exact IH].
Qed.

Lemma pipeline_release_events_cover m k v :
  In (k, v) m ->
  ComputePipeline.handle_ v <> VK_NULL_HANDLE ->
  In (EvDestroyPipeline (ComputePipeline.device_ v) (ComputePipeline.handle_ v))
     (pipeline_release_events m).
Proof.
  intros Hin Hnz. unfold pipeline_release_events. apply in_flat_map.
  exists (k, v). split; [exact Hin|]. cbn [snd].
  destruct (VK_NULL_HANDLE =? ComputePipeline.handle_ v) eqn:E.
  - apply Z.eqb_eq in E. congruence.
  - left. reflexivity.
Qed.

(** Where a marked event sits in a list whose other events are unmarked. *)
Lemma split_at_last_marked (p : Event -> bool) (l pre post : list Event) (e e' : Event) :
  Forall (fun x => p x = false) l ->
  p e' = true ->
  l ++ [e] = pre ++ e' :: post ->
  pre = l /\ e' = e /\ post = [].
Proof.
  intros Hl He'. revert pre. induction l as [|x l IH]; intros pre E.
  - destruct pre as [|y pre]; cbn in E.
    + injection E as <- <-. auto.
    + injection E as _ E. destruct pre; discriminate.
  - apply Forall_cons_iff in Hl. destruct Hl as [Hx Hl].
    destruct pre as [|y pre]; cbn in E.
    + injection E as <- _. congruence.
    + injection E as <- E. destruct (IH Hl pre E) as (-> & -> & ->). auto.
Qed.

Lemma no_marked_in_unmarked (p : Event -> bool) (l pre post : list Event) (e' : Event) :
  Forall (fun x => p x = false) l ->
  p e' = true ->
  l <> pre ++ e' :: post.
Proof.
  intros Hl He' E. subst l. apply Forall_app in Hl. destruct Hl as [_ Hl].
  apply Forall_cons_iff in Hl. destruct Hl as [Hx _]. congruence.
Qed.

(** C5: the destructor of a [ComputePipelineCache] succeeds, leaves the map
    empty, and makes the release calls of the resident pipelines first and
    the release call of [pipeline_cache_] (when it is not the empty sentinel)
    last: wherever the release of the acceleration object sits in the calls
    the destructor makes, every resident pipeline with a handle has been
    released before it and nothing follows it. *)
Theorem C5_pipelines_released_before_pipeline_cache :
  forall (self : ComputePipelineCache.t) (tr : Trace),
    exists self' evs,
      ComputePipelineCache.dtor self tr = Ok self' (tr ++ evs) /\
      ComputePipelineCache.cache_ self' = [] /\
      evs = pipeline_release_events (ComputePipelineCache.cache_ self)
            ++ (if VK_NULL_HANDLE =? ComputePipelineCache.pipeline_cache_ self then []
                else [EvDestroyPipelineCache (ComputePipelineCache.device_ self)
                        (ComputePipelineCache.pipeline_cache_ self)]) /\
      forall pre post device h,
        evs = pre ++ EvDestroyPipelineCache device h :: post ->
        h = ComputePipelineCache.pipeline_cache_ self /\
        post = [] /\
        filter is_pipeline_destruction post = [] /\
        forall k v,
          In (k, v) (ComputePipelineCache.cache_ self) ->
          ComputePipeline.handle_ v <> VK_NULL_HANDLE ->
          In (EvDestroyPipeline (ComputePipeline.device_ v) (ComputePipeline.handle_ v)) pre.
Proof.
  intros self tr. do 2 eexists.
  split; [apply pipeline_cache_dtor_run|]. split; [reflexivity|].
  split; [reflexivity|].
  intros pre post device h E.
  pose proof (pipeline_release_events_no_cache_release
                (ComputePipelineCache.cache_ self)) as Hno.
  destruct (VK_NULL_HANDLE =? ComputePipelineCache.pipeline_cache_ self).
  - rewrite app_nil_r in E.
    exfalso. revert E.
    apply (no_marked_in_unmarked is_pipeline_cache_release); [exact Hno | reflexivity].
  - apply (split_at_last_marked is_pipeline_cache_release) in E;
      [|exact Hno | reflexivity].
    destruct E as (-> & E & ->). injection E as -> ->.
    repeat split. intros k v. apply pipeline_release_events_cover.
Qed.

Lemma C5_pipelines_released_before_pipeline_cache_witness :
  ComputePipelineCache.dtor populated_pipeline_cache []
  = Ok (ComputePipelineCache.mk 7%nat 1 VK_NULL_HANDLE [])
       [EvDestroyPipeline 1 43; EvDestroyPipeline 1 42; EvDestroyPipelineCache 1 5] /\
  In (EvDestroyPipeline 1 43) [EvDestroyPipeline 1 43; EvDestroyPipeline 1 42] /\
  In (EvDestroyPipeline 1 42) [EvDestroyPipeline 1 43; EvDestroyPipeline 1 42].
Proof.
  destruct (C5_pipelines_released_before_pipeline_cache populated_pipeline_cache [])
    as (self' & evs & Hrun & Hc & Hevs & Hord).
  cbn in Hevs.
  destruct (Hord [EvDestroyPipeline 1 43; EvDestroyPipeline 1 42] [] 1 5 Hevs)
    as (_ & _ & _ & Hcover).
  split; [reflexivity|]. split.
  - apply (Hcover key_16_16_1 (ComputePipeline.mk 1 43)); [left; reflexivity | discriminate].
  - apply (Hcover key_8_8_1 (ComputePipeline.mk 1 42));
      [right; left; reflexivity | discriminate].
Defined.

Lemma pipeline_cache_move_ctor_run mutex other tr :
  ComputePipelineCache.move_ctor mutex other tr
  = Ok (ComputePipelineCache.mk mutex (ComputePipelineCache.device_ other)
          (ComputePipelineCache.pipeline_cache_ other)
          (ComputePipelineCache.cache_ other),
        ComputePipelineCache.mk (ComputePipelineCache.cache_mutex_ other)
          (ComputePipelineCache.device_ other) VK_NULL_HANDLE [])
       (tr ++ [EvLock (ComputePipelineCache.cache_mutex_ other);
               EvUnlock (ComputePipelineCache.cache_mutex_ other)]).
Proof.
  unfold ComputePipelineCache.move_ctor, ComputePipelineCache.move_assign,
    CacheMap.move_assign, CacheMap.clear.
  run_m. cbn. rewrite <- app_assoc. reflexivity.
Qed.

Lemma layout_cache_move_ctor_run mutex other tr :
  PipelineLayoutCache.move_ctor mutex other tr
  = Ok (PipelineLayoutCache.mk mutex (PipelineLayoutCache.device_ other)
          (PipelineLayoutCache.cache_ other),
        PipelineLayoutCache.mk (PipelineLayoutCache.cache_mutex_ other)
          (PipelineLayoutCache.device_ other) [])
       (tr ++ [EvLock (PipelineLayoutCache.cache_mutex_ other);
               EvUnlock (PipelineLayoutCache.cache_mutex_ other)]).
Proof.
  unfold PipelineLayoutCache.move_ctor, PipelineLayoutCache.move_assign,
    CacheMap.move_assign, CacheMap.clear.
  run_m. cbn. rewrite <- app_assoc. reflexivity.
Qed.




(** A populated cache is moved; the moved-from source dies, then the
    destination: the acceleration object 5 is released once, after the
    pipelines. *)
Example move_then_destroy_both :
  ComputePipelineCache.move_ctor 8%nat populated_pipeline_cache []
  = Ok (ComputePipelineCache.mk 8%nat 1 5
          [(key_16_16_1, ComputePipeline.mk 1 43); (key_8_8_1, ComputePipeline.mk 1 42)],
        ComputePipelineCache.mk 7%nat 1 0 [])
       [EvLock 7%nat; EvUnlock 7%nat] /\
  ComputePipelineCache.dtor (ComputePipelineCache.mk 7%nat 1 0 []) []
  = Ok (ComputePipelineCache.mk 7%nat 1 0 []) [] /\
  ComputePipelineCache.dtor
    (ComputePipelineCache.mk 8%nat 1 5
       [(key_16_16_1, ComputePipeline.mk 1 43); (key_8_8_1, ComputePipeline.mk 1 42)]) []
  = Ok (ComputePipelineCache.mk 8%nat 1 0 [])
       [EvDestroyPipeline 1 43; EvDestroyPipeline 1 42; EvDestroyPipelineCache 1 5].
Proof. repeat split. Qed.

(** ** Moves, swaps and destructions never release a resource twice *)

Lemma map_put {A B : Type} (f : A -> B) (i : nat) (x : A) (l : list A) :
  map f (put i x l) = put i (f x) (map f l).
Proof.
  revert i. induction l as [|y l IH]; intros [|i]; cbn; try reflexivity.
  now rewrite IH.
Qed.

(** Overwriting position [i] trades the element that was there. *)
Lemma put_trades {A : Type} (i : nat) (x b : A) (l : list A) :
  nth_error l i = Some b -> Permutation (b :: put i x l) (x :: l).
Proof.
  revert i. induction l as [|y l IH]; intros [|i] E; cbn in *; try discriminate.
  - injection E as ->. apply perm_swap.
  - specialize (IH i E).
    apply perm_trans with (y :: b :: put i x l); [apply perm_swap|].
    apply perm_trans with (y :: x :: l); [now apply perm_skip | apply perm_swap].
Qed.

Lemma put_exchange {A : Type} (i j : nat) (a b : A) (l : list A) :
  nth_error l i = Some a -> nth_error l j = Some b ->
  Permutation (put j a (put i b l)) l.
Proof.
  revert i j. induction l as [|y l IH]; intros [|i] [|j] Ei Ej; cbn in *;
    try discriminate.
  - injection Ei as ->. injection Ej as ->. apply Permutation_refl.
  - injection Ei as ->. apply (put_trades j a b l Ej).
  - injection Ej as ->. apply (put_trades i b a l Ei).
  - apply perm_skip. now apply IH.
Qed.

Lemma filter_permutation {A : Type} (p : A -> bool) (l l' : list A) :
  Permutation l l' -> Permutation (filter p l) (filter p l').
Proof.
  induction 1 as [| x l l' _ IH | x y l | l l' l'' _ IH1 _ IH2]; cbn.
  - apply perm_nil.
  - destruct (p x); [now apply perm_skip | exact IH].
  - destruct (p x), (p y); try apply Permutation_refl. apply perm_swap.
  - now apply perm_trans with (filter p l').
Qed.

Section HandleLaws.
Context {T : Type} `{HT : HandleType T}.

Hypothesis move_transfers : forall o : T,
    ht_handle (fst (ht_move_ctor o)) = ht_handle o /\
    ht_handle (snd (ht_move_ctor o)) = VK_NULL_HANDLE.

Hypothesis dtor_releases : forall (o : T) (tr : Trace),
    exists o' evs,
      ht_dtor o tr = Ok o' (tr ++ evs) /\
      ht_handle o' = VK_NULL_HANDLE /\
      ht_released evs = filter nonempty [ht_handle o].

Hypothesis swap_exchanges : forall l r : T,
    ht_handle (fst (ht_swap l r)) = ht_handle r /\
    ht_handle (snd (ht_swap l r)) = ht_handle l.

Hypothesis released_app : forall evs1 evs2,
    ht_released (evs1 ++ evs2) = ht_released evs1 ++ ht_released evs2.

Hypothesis released_nil : ht_released [] = [].

Lemma run_op_conserves (op : HandleOp) (objs : list T) (tr : Trace) :
  exists objs' evs,
    run_op op objs tr = Ok objs' (tr ++ evs) /\
    Permutation (ht_released evs ++ owned objs') (owned objs).
Proof.
  assert (Hstay : exists objs' evs,
             ret objs tr = Ok objs' (tr ++ evs) /\
             Permutation (ht_released evs ++ owned objs') (owned objs)).
  { exists objs, []. unfold ret. rewrite app_nil_r, released_nil.
    split; [reflexivity | apply Permutation_refl]. }
  destruct op as [other | self | lhs rhs]; cbn [run_op].
  - destruct (nth_error objs other) as [o|] eqn:E; [|exact Hstay].
    destruct (move_transfers o) as [Hnew Hold].
    destruct (ht_move_ctor o) as [new o']. cbn [fst snd] in Hnew, Hold.
    exists (put other o' objs ++ [new]), []. unfold ret.
    rewrite app_nil_r, released_nil. split; [reflexivity|]. cbn [app].
    unfold owned. rewrite map_app, map_put, Hold. cbn [map]. rewrite Hnew.
    apply (filter_permutation nonempty
             (put other VK_NULL_HANDLE (map ht_handle objs) ++ [ht_handle o])
             (VK_NULL_HANDLE :: map ht_handle objs)).
    apply perm_trans with (ht_handle o :: put other VK_NULL_HANDLE (map ht_handle objs)).
    + apply Permutation_sym, Permutation_cons_append.
    + apply put_trades. now rewrite nth_error_map, E.
  - destruct (nth_error objs self) as [o|] eqn:E; [|exact Hstay].
    destruct (dtor_releases o tr) as (o' & evs & Hrun & Hempty & Hrel).
    exists (put self o' objs), evs. unfold bind, ret. rewrite Hrun.
    split; [reflexivity|]. rewrite Hrel.
    unfold owned. rewrite map_put, Hempty.
    rewrite <- filter_app.
    apply (filter_permutation nonempty
             ([ht_handle o] ++ put self VK_NULL_HANDLE (map ht_handle objs))
             (VK_NULL_HANDLE :: map ht_handle objs)).
    apply put_trades. now rewrite nth_error_map, E.
  - destruct (nth_error objs lhs) as [l|] eqn:El; [|exact Hstay].
    destruct (nth_error objs rhs) as [r|] eqn:Er; [|exact Hstay].
    destruct (swap_exchanges l r) as [Hl Hr].
    destruct (ht_swap l r) as [l' r']. cbn [fst snd] in Hl, Hr.
    exists (put rhs r' (put lhs l' objs)), []. unfold ret.
    rewrite app_nil_r, released_nil. split; [reflexivity|]. cbn [app].
    unfold owned. rewrite !map_put, Hl, Hr.
    apply filter_permutation, put_exchange; now rewrite nth_error_map, ?El, ?Er.
Qed.

Lemma run_ops_conserves (ops : list HandleOp) (objs : list T) (tr : Trace) :
  exists objs' evs,
    run_ops ops objs tr = Ok objs' (tr ++ evs) /\
    Permutation (ht_released evs ++ owned objs') (owned objs).
Proof.
  revert objs tr. induction ops as [|op ops IH]; intros objs tr; cbn [run_ops].
  - exists objs, []. unfold ret. rewrite app_nil_r, released_nil.
    split; [reflexivity | apply Permutation_refl].
  - destruct (run_op_conserves op objs tr) as (objs1 & evs1 & Hrun1 & Hp1).
    destruct (IH objs1 (tr ++ evs1)) as (objs2 & evs2 & Hrun2 & Hp2).
    exists objs2, (evs1 ++ evs2). unfold bind. rewrite Hrun1, Hrun2, app_assoc.
    split; [reflexivity|].
    rewrite released_app, <- app_assoc.
    apply perm_trans with (ht_released evs1 ++ owned objs1); [|exact Hp1].
    now apply Permutation_app_head.
Qed.

Lemma run_ops_releases_once (ops : list HandleOp) (objs : list T) (tr : Trace) :
  NoDup (owned objs) ->
  exists objs' evs,
    run_ops ops objs tr = Ok objs' (tr ++ evs) /\
    NoDup (ht_released evs) /\
    Permutation (ht_released evs ++ owned objs') (owned objs).
Proof.
  intros Hnd. destruct (run_ops_conserves ops objs tr) as (objs' & evs & Hrun & Hp).
  exists objs', evs. split; [exact Hrun|]. split; [|exact Hp].
  apply Permutation_sym in Hp. apply (Permutation_NoDup Hp) in Hnd.
  now apply NoDup_app_remove_r in Hnd.
Qed.
End HandleLaws.

Lemma released_layouts_app evs1 evs2 :
  released_layouts (evs1 ++ evs2) = released_layouts evs1 ++ released_layouts evs2.
Proof.
  induction evs1 as [|e evs1 IH]; [reflexivity|].
  destruct e; cbn; rewrite ?IH; reflexivity.
Qed.

Lemma released_pipelines_app evs1 evs2 :
  released_pipelines (evs1 ++ evs2) = released_pipelines evs1 ++ released_pipelines evs2.
Proof.
  induction evs1 as [|e evs1 IH]; [reflexivity|].
  destruct e; cbn; rewrite ?IH; reflexivity.
Qed.

Lemma layout_dtor_releases (o : PipelineLayout.t) (tr : Trace) :
  exists o' evs,
    PipelineLayout.dtor o tr = Ok o' (tr ++ evs) /\
    PipelineLayout.handle_ o' = VK_NULL_HANDLE /\
    released_layouts evs = filter nonempty [PipelineLayout.handle_ o].
Proof.
  do 2 eexists. split; [apply layout_dtor_run|].
  cbn [PipelineLayout.handle_ filter]. unfold nonempty.
  destruct (VK_NULL_HANDLE =? PipelineLayout.handle_ o) eqn:E; cbn; [|auto].
  apply Z.eqb_eq in E. auto.
Qed.

Lemma pipeline_dtor_releases (o : ComputePipeline.t) (tr : Trace) :
  exists o' evs,
    ComputePipeline.dtor o tr = Ok o' (tr ++ evs) /\
    ComputePipeline.handle_ o' = VK_NULL_HANDLE /\
    released_pipelines evs = filter nonempty [ComputePipeline.handle_ o].
Proof.
  do 2 eexists. split; [apply pipeline_dtor_run|].
  cbn [ComputePipeline.handle_ filter]. unfold nonempty.
  destruct (VK_NULL_HANDLE =? ComputePipeline.handle_ o) eqn:E; cbn; [|auto].
  apply Z.eqb_eq in E. auto.
Qed.

(** C7: for [PipelineLayout] and for [ComputePipeline] alike, the move
    constructor gives the new object the device and the handle of the source
    and leaves the empty sentinel in the source; the destructor makes one
    release call for the handle exactly when the handle is not the empty
    sentinel, and leaves the empty sentinel; and when no two objects own the
    same resource to begin with, any sequence of move constructions, swaps
    and destructor runs (also repeated on one object) succeeds, never
    releases a handle twice, and leaves every resource either released or
    owned by one object. *)
Theorem C7_moves_and_destructions_release_once :
  ((forall other : PipelineLayout.t,
       PipelineLayout.move_ctor other
       = (PipelineLayout.mk (PipelineLayout.device_ other) (PipelineLayout.handle_ other),
          PipelineLayout.mk (PipelineLayout.device_ other) VK_NULL_HANDLE)) /\
   (forall (self : PipelineLayout.t) (tr : Trace),
       exists self',
         PipelineLayout.dtor self tr
         = Ok self'
              (tr ++ (if VK_NULL_HANDLE =? PipelineLayout.handle_ self then []
                      else [EvDestroyPipelineLayout (PipelineLayout.device_ self)
                              (PipelineLayout.handle_ self)])) /\
         PipelineLayout.handle_ self' = VK_NULL_HANDLE) /\
   (forall (ops : list HandleOp) (objs : list PipelineLayout.t) (tr : Trace),
       NoDup (owned objs) ->
       exists objs' evs,
         run_ops ops objs tr = Ok objs' (tr ++ evs) /\
         NoDup (released_layouts evs) /\
         Permutation (released_layouts evs ++ owned objs') (owned objs))) /\
  ((forall other : ComputePipeline.t,
       ComputePipeline.move_ctor other
       = (ComputePipeline.mk (ComputePipeline.device_ other) (ComputePipeline.handle_ other),
          ComputePipeline.mk (ComputePipeline.device_ other) VK_NULL_HANDLE)) /\
   (forall (self : ComputePipeline.t) (tr : Trace),
       exists self',
         ComputePipeline.dtor self tr
         = Ok self'
              (tr ++ (if VK_NULL_HANDLE =? ComputePipeline.handle_ self then []
                      else [EvDestroyPipeline (ComputePipeline.device_ self)
                              (ComputePipeline.handle_ self)])) /\
         ComputePipeline.handle_ self' = VK_NULL_HANDLE) /\
   (forall (ops : list HandleOp) (objs : list ComputePipeline.t) (tr : Trace),
       NoDup (owned objs) ->
       exists objs' evs,
         run_ops ops objs tr = Ok objs' (tr ++ evs) /\
         NoDup (released_pipelines evs) /\
         Permutation (released_pipelines evs ++ owned objs') (owned objs))).
Proof.
  split; (split; [reflexivity|]); split.
  - intros self tr. eexists. split; [apply layout_dtor_run|].
    cbn [PipelineLayout.handle_].
    destruct (VK_NULL_HANDLE =? PipelineLayout.handle_ self) eqn:E; [|reflexivity].
    apply Z.eqb_eq in E. auto.
  - intros ops objs tr Hnd.
    refine (run_ops_releases_once (HT := PipelineLayout_HandleType)
              _ _ _ _ _ ops objs tr Hnd).
    + intros o. split; reflexivity.
    + apply layout_dtor_releases.
    + intros l r. split; reflexivity.
    + apply released_layouts_app.
    + reflexivity.
  - intros self tr. eexists. split; [apply pipeline_dtor_run|].
    cbn [ComputePipeline.handle_].
    destruct (VK_NULL_HANDLE =? ComputePipeline.handle_ self) eqn:E; [|reflexivity].
    apply Z.eqb_eq in E. auto.
  - intros ops objs tr Hnd.
    refine (run_ops_releases_once (HT := ComputePipeline_HandleType)
              _ _ _ _ _ ops objs tr Hnd).
    + intros o. split; reflexivity.
    + apply pipeline_dtor_releases.
    + intros l r. split; reflexivity.
    + apply released_pipelines_app.
    + reflexivity.
Qed.

(** Two pipelines; the first is moved, the moved-from object and the new one
    are destroyed, the new one a second time, and the second pipeline is
    swapped with the moved-from first and destroyed at its new place. *)
Lemma C7_moves_and_destructions_release_once_witness :
  let objs := [ComputePipeline.mk 1 42; ComputePipeline.mk 1 43] in
  let ops := [OpMove 0%nat; OpDestroy 0%nat; OpDestroy 2%nat; OpDestroy 2%nat;
              OpSwap 0%nat 1%nat; OpDestroy 1%nat; OpDestroy 0%nat] in
  NoDup (owned objs) /\
  run_ops ops objs []
  = Ok [ComputePipeline.mk 1 0; ComputePipeline.mk 1 0; ComputePipeline.mk 1 0]
       [EvDestroyPipeline 1 42; EvDestroyPipeline 1 43] /\
  NoDup [42; 43].
Proof.
  intros objs ops.
  assert (Hnd : NoDup (owned objs)).
  { cbn. constructor; [intros [H|[]]; discriminate|].
    constructor; [intros []|constructor]. }
  destruct (proj2 (proj2 (proj2 C7_moves_and_destructions_release_once)) ops objs [] Hnd)
    as (objs' & evs & Hrun & Hrel & _).
  assert (Hrun' : run_ops ops objs []
                  = Ok [ComputePipeline.mk 1 0; ComputePipeline.mk 1 0;
                        ComputePipeline.mk 1 0]
                       [EvDestroyPipeline 1 42; EvDestroyPipeline 1 43])
    by reflexivity.
  rewrite Hrun' in Hrun. injection Hrun as <- <-.
  split; [exact Hnd|]. split; [reflexivity | exact Hrel].
Defined.

(** ** Overwriting one position of a list *)

Lemma put_length {A : Type} (i : nat) (x : A) (l : list A) :
  List.length (put i x l) = List.length l.
Proof.
  revert i. induction l as [|y l IH]; intros [|i]; cbn; try reflexivity.
  now rewrite IH.
Qed.

Lemma put_Forall {A : Type} (P : A -> Prop) (i : nat) (x : A) (l : list A) :
  Forall P l -> P x -> Forall P (put i x l).
Proof.
  intros Hl Hx. revert i. induction Hl as [|y l Hy Hl IH]; intros [|i]; cbn;
    constructor; auto.
Qed.

Lemma nth_error_Forall {A : Type} (P : A -> Prop) (i : nat) (a : A) (l : list A) :
  Forall P l -> nth_error l i = Some a -> P a.
Proof.
  intros Hl E. apply nth_error_In in E. rewrite Forall_forall in Hl. auto.
Qed.

(** ** Construction and insertion on a miss *)

Lemma layout_emplace_run drv self key tr :
  PipelineLayoutCache.find key (PipelineLayoutCache.cache_ self) = None ->
  let d := PipelineLayoutCache.device_ self in
  let rh := vkCreatePipelineLayout drv tr d (PipelineLayout.create_info key) in
  let ev := EvCreatePipelineLayout d (PipelineLayout.create_info key) (fst rh) (snd rh) in
  PipelineLayoutCache.emplace drv self key tr
  = if success (fst rh)
    then Ok (PipelineLayout.mk d (snd rh),
             PipelineLayoutCache.set_cache_ self
               ((key, PipelineLayout.mk d (snd rh)) :: PipelineLayoutCache.cache_ self))
            (tr ++ [ev])
    else Fatal (tr ++ [ev]).
Proof.
  intros Hf d rh ev.
  unfold PipelineLayoutCache.emplace, PipelineLayout.ctor,
    PipelineLayoutCache.insert, CacheMap.insert.
  run_m. fold d. fold rh.
  destruct (success (fst rh)); [|reflexivity].
  cbn [PipelineLayout.move_ctor fst snd].
  unfold PipelineLayoutCache.find in Hf. rewrite Hf. reflexivity.
Qed.

Lemma pipeline_emplace_run drv self key tr :
  ComputePipelineCache.find key (ComputePipelineCache.cache_ self) = None ->
  let d := ComputePipelineCache.device_ self in
  let pc := ComputePipelineCache.pipeline_cache_ self in
  let info := ComputePipeline.compute_pipeline_create_info key in
  let rh := vkCreateComputePipelines drv tr d pc 1 info in
  let ev := EvCreateComputePipelines d pc 1 info (fst rh) (snd rh) in
  ComputePipelineCache.emplace drv self key tr
  = if success (fst rh)
    then Ok (ComputePipeline.mk d (snd rh),
             ComputePipelineCache.set_cache_ self
               ((key, ComputePipeline.mk d (snd rh)) :: ComputePipelineCache.cache_ self))
            (tr ++ [ev])
    else Fatal (tr ++ [ev]).
Proof.
  intros Hf d pc info rh ev.
  unfold ComputePipelineCache.emplace, ComputePipeline.ctor,
    ComputePipelineCache.insert, CacheMap.insert.
  run_m. fold d pc info. fold rh.
  destruct (success (fst rh)); [|reflexivity].
  cbn [ComputePipeline.move_ctor fst snd].
  unfold ComputePipelineCache.find in Hf. rewrite Hf. reflexivity.
Qed.

Lemma layout_creations_app evs1 evs2 :
  layout_creations (evs1 ++ evs2) = (layout_creations evs1 + layout_creations evs2)%nat.
Proof. unfold layout_creations. now rewrite filter_app, length_app. Qed.

Lemma pipeline_creations_app evs1 evs2 :
  pipeline_creations (evs1 ++ evs2)
  = (pipeline_creations evs1 + pipeline_creations evs2)%nat.
Proof. unfold pipeline_creations. now rewrite filter_app, length_app. Qed.

(** ** A whole run *)

(** With the driver that numbers its objects: the first key gets pipeline 1
    twice, the second key pipeline 2, and after the purge the first key gets
    pipeline 3; three creations in all, each pipeline released once, and the
    acceleration object last. *)
Example pipeline_cache_life_counting :
  match pipeline_cache_life counting_driver key_8_8_1 key_16_16_1 [] with
  | Ok handles tr =>
      handles = [1; 1; 2; 3] /\
      pipeline_creations tr = 3%nat /\
      released_pipelines tr = [2; 1; 3] /\
      released_pipeline_caches tr = [1] /\
      last tr (EvLock 0%nat) = EvDestroyPipelineCache 1 1
  | Fatal _ => False
  end.
Proof. vm_compute. repeat split. Qed.

(** With a driver whose creations fail, the construction of the cache is
    already fatal. *)
Example pipeline_cache_life_failing :
  pipeline_cache_life failing_driver key_8_8_1 key_16_16_1 []
  = Fatal [EvCreatePipelineCache 1 ComputePipelineCache.pipeline_cache_create_info
             (VK_ERROR (-1)) VK_NULL_HANDLE].
Proof. reflexivity. Qed.

(** A retrieval that misses under a failing driver ends the run with the
    mutex still held. *)
Example retrieve_failing :
  ComputePipelineCache.retrieve failing_driver empty_pipeline_cache key_8_8_1 []
  = Fatal [EvLock 7%nat;
           EvCreateComputePipelines 1 5 1
             (ComputePipeline.compute_pipeline_create_info key_8_8_1)
             (VK_ERROR (-1)) VK_NULL_HANDLE].
Proof. reflexivity. Qed.

(** * More about the code *)

(** ** Sequences of calls: how to reason about them *)

Section CacheOpsRule.
Context {K C : Type}.
Variable retrieve : C -> K -> M (Z * C).
Variable purge : C -> M C.

(** A relation between a cache, the events of some calls and the cache
    afterwards holds of a sequence of calls when it holds of no call, of each
    call, and of one stretch after another. *)
Lemma run_cache_ops_rule (R : C -> Trace -> C -> Prop) :
  (forall c, R c [] c) ->
  (forall c1 evs1 c2 evs2 c3, R c1 evs1 c2 -> R c2 evs2 c3 -> R c1 (evs1 ++ evs2) c3) ->
  (forall c key tr h c' tr',
      retrieve c key tr = Ok (h, c') tr' -> exists evs, tr' = tr ++ evs /\ R c evs c') ->
  (forall c tr c' tr',
      purge c tr = Ok c' tr' -> exists evs, tr' = tr ++ evs /\ R c evs c') ->
  forall ops c tr hs c' tr',
    run_cache_ops retrieve purge ops c tr = Ok (hs, c') tr' ->
    exists evs, tr' = tr ++ evs /\ R c evs c'.
Proof.
  intros Hrefl Htrans Hret Hpur ops.
  induction ops as [|op ops IH]; intros c tr hs c' tr' Hrun; cbn [run_cache_ops] in Hrun.
  - unfold ret in Hrun. injection Hrun as <- <- <-.
    exists []. rewrite app_nil_r. auto.
  - destruct op as [key|]; unfold bind in Hrun.
    + destruct (retrieve c key tr) as [[h c1] tr1|] eqn:E1; [|discriminate].
      cbn [fst snd] in Hrun.
      destruct (run_cache_ops retrieve purge ops c1 tr1) as [[hs2 c2] tr2|] eqn:E2;
        [|discriminate].
      unfold ret in Hrun. cbn [fst snd] in Hrun. injection Hrun as <- <- <-.
      destruct (Hret _ _ _ _ _ _ E1) as (evs1 & -> & H1).
      destruct (IH _ _ _ _ _ E2) as (evs2 & -> & H2).
      exists (evs1 ++ evs2). rewrite app_assoc. eauto.
    + destruct (purge c tr) as [c1 tr1|] eqn:E1; [|discriminate].
      destruct (Hpur _ _ _ _ E1) as (evs1 & -> & H1).
      destruct (IH _ _ _ _ _ Hrun) as (evs2 & -> & H2).
      exists (evs1 ++ evs2). rewrite app_assoc. eauto.
Qed.
End CacheOpsRule.

(** ** What one call does, for the two caches *)

Lemma layout_retrieve_ok drv c key tr h c' tr' :
  PipelineLayoutCache.retrieve drv c key tr = Ok (h, c') tr' ->
  let m := PipelineLayoutCache.cache_mutex_ c in
  let d := PipelineLayoutCache.device_ c in
  let info := PipelineLayout.create_info key in
  (exists it,
      PipelineLayoutCache.find key (PipelineLayoutCache.cache_ c) = Some it /\
      h = PipelineLayout.handle it /\ c' = c /\
      tr' = tr ++ [EvLock m; EvUnlock m]) \/
  (PipelineLayoutCache.find key (PipelineLayoutCache.cache_ c) = None /\
   vkCreatePipelineLayout drv (tr ++ [EvLock m]) d info = (VK_SUCCESS, h) /\
   c' = PipelineLayoutCache.set_cache_ c
          ((key, PipelineLayout.mk d h) :: PipelineLayoutCache.cache_ c) /\
   tr' = tr ++ [EvLock m; EvCreatePipelineLayout d info VK_SUCCESS h; EvUnlock m]).
Proof.
  intros Hr m d info.
  destruct (PipelineLayoutCache.find key (PipelineLayoutCache.cache_ c)) as [it|] eqn:Hf.
  - left. exists it. rewrite (layout_retrieve_hit drv c key it tr Hf) in Hr.
    injection Hr as <- <- <-. auto.
  - right. split; [reflexivity|]. exact (layout_retrieve_miss_ok _ _ _ _ _ _ _ Hf Hr).
Qed.

Lemma pipeline_retrieve_ok drv c key tr h c' tr' :
  ComputePipelineCache.retrieve drv c key tr = Ok (h, c') tr' ->
  let m := ComputePipelineCache.cache_mutex_ c in
  let d := ComputePipelineCache.device_ c in
  let pc := ComputePipelineCache.pipeline_cache_ c in
  let info := ComputePipeline.compute_pipeline_create_info key in
  (exists it,
      ComputePipelineCache.find key (ComputePipelineCache.cache_ c) = Some it /\
      h = ComputePipeline.handle it /\ c' = c /\
      tr' = tr ++ [EvLock m; EvUnlock m]) \/
  (ComputePipelineCache.find key (ComputePipelineCache.cache_ c) = None /\
   vkCreateComputePipelines drv (tr ++ [EvLock m]) d pc 1 info = (VK_SUCCESS, h) /\
   c' = ComputePipelineCache.set_cache_ c
          ((key, ComputePipeline.mk d h) :: ComputePipelineCache.cache_ c) /\
   tr' = tr ++ [EvLock m; EvCreateComputePipelines d pc 1 info VK_SUCCESS h; EvUnlock m]).
Proof.
  intros Hr m d pc info.
  destruct (ComputePipelineCache.find key (ComputePipelineCache.cache_ c)) as [it|] eqn:Hf.
  - left. exists it. rewrite (pipeline_retrieve_hit drv c key it tr Hf) in Hr.
    injection Hr as <- <- <-. auto.
  - right. split; [reflexivity|]. exact (pipeline_retrieve_miss_ok _ _ _ _ _ _ _ Hf Hr).
Qed.

Lemma find_none_existsb {K V : Type} (key_eq : K -> K -> bool) (key : K)
    (m : list (K * V)) :
  CacheMap.find key_eq key m = None <->
  existsb (fun r => key_eq r key) (map fst m) = false.
Proof.
  induction m as [|[k v] m IH]; cbn; [tauto|].
  destruct (key_eq k key); cbn; [split; discriminate | exact IH].
Qed.

(** ** Laws of a cache, and what follows from them *)

Section CacheLaws.
Context {K C : Type}.
Variable key_eq : K -> K -> bool.
Variable retrieve : C -> K -> M (Z * C).
Variable purge : C -> M C.
Variable keys : C -> list K.
Variable handles : C -> list Z.
Variable lookup : C -> K -> option Z.
Variable creations : Trace -> nat.
Variable created : Trace -> list Z.
Variable released : Trace -> list Z.

Hypothesis key_eq_true : forall a b, key_eq a b = true <-> a = b.
Hypothesis lookup_none : forall c k,
    lookup c k = None <-> existsb (fun r => key_eq r k) (keys c) = false.
Hypothesis creations_app : forall evs1 evs2,
    creations (evs1 ++ evs2) = (creations evs1 + creations evs2)%nat.
Hypothesis creations_nil : creations [] = 0%nat.
Hypothesis created_app : forall evs1 evs2,
    created (evs1 ++ evs2) = created evs1 ++ created evs2.
Hypothesis created_nil : created [] = [].
Hypothesis released_app : forall evs1 evs2,
    released (evs1 ++ evs2) = released evs1 ++ released evs2.
Hypothesis released_nil : released [] = [].

Hypothesis retrieve_ok : forall c k tr h c' tr',
    retrieve c k tr = Ok (h, c') tr' ->
    exists evs,
      tr' = tr ++ evs /\ released evs = [] /\
      ((lookup c k = Some h /\ c' = c /\ creations evs = 0%nat /\ created evs = []) \/
       (lookup c k = None /\ keys c' = k :: keys c /\ handles c' = h :: handles c /\
        (forall k', lookup c' k' = if key_eq k k' then Some h else lookup c k') /\
        creations evs = 1%nat /\ created evs = [h])).

Hypothesis purge_ok : forall c tr c' tr',
    purge c tr = Ok c' tr' ->
    exists evs,
      tr' = tr ++ evs /\ keys c' = [] /\ handles c' = [] /\
      creations evs = 0%nat /\ created evs = [] /\
      released evs = filter nonempty (handles c).

Lemma retrievals_create_new_keys (ks : list K) :
  forall c tr hs c' tr',
    run_cache_ops retrieve purge (map CacheRetrieve ks) c tr = Ok (hs, c') tr' ->
    exists evs,
      tr' = tr ++ evs /\
      creations evs = List.length (new_keys key_eq (keys c) ks) /\
      keys c' = rev (new_keys key_eq (keys c) ks) ++ keys c /\
      List.length hs = List.length ks.
Proof.
  induction ks as [|k ks IH]; intros c tr hs c' tr' Hrun;
    cbn [map run_cache_ops] in Hrun.
  - unfold ret in Hrun. injection Hrun as <- <- <-.
    exists []. rewrite app_nil_r. cbn. auto.
  - unfold bind in Hrun.
    destruct (retrieve c k tr) as [[h c1] tr1|] eqn:E1; [|discriminate].
    cbn [fst snd] in Hrun.
    destruct (run_cache_ops retrieve purge (map CacheRetrieve ks) c1 tr1)
      as [[hs2 c2] tr2|] eqn:E2; [|discriminate].
    unfold ret in Hrun. cbn [fst snd] in Hrun. injection Hrun as <- <- <-.
    destruct (retrieve_ok _ _ _ _ _ _ E1) as (evs1 & -> & _ & Hcase).
    destruct (IH _ _ _ _ _ E2) as (evs2 & -> & Hc2 & Hk2 & Hl2).
    exists (evs1 ++ evs2). rewrite app_assoc. split; [reflexivity|].
    rewrite creations_app, Hc2, Hk2. cbn [new_keys List.length].
    destruct Hcase as [(Hl & -> & Hc1 & _) | (Hl & Hk1 & _ & _ & Hc1 & _)].
    + destruct (existsb (fun r => key_eq r k) (keys c)) eqn:Ex.
      * rewrite Hc1. auto.
      * apply lookup_none in Ex. congruence.
    + apply lookup_none in Hl. rewrite Hl, Hk1, Hc1. cbn [List.length rev].
      rewrite <- app_assoc. auto.
Qed.

Lemma retrievals_follow_the_cache (ks : list K) :
  forall c tr hs c' tr',
    run_cache_ops retrieve purge (map CacheRetrieve ks) c tr = Ok (hs, c') tr' ->
    map Some hs = map (lookup c') ks /\
    (forall k h, lookup c k = Some h -> lookup c' k = Some h).
Proof.
  induction ks as [|k ks IH]; intros c tr hs c' tr' Hrun;
    cbn [map run_cache_ops] in Hrun.
  - unfold ret in Hrun. injection Hrun as <- <- <-. auto.
  - unfold bind in Hrun.
    destruct (retrieve c k tr) as [[h c1] tr1|] eqn:E1; [|discriminate].
    cbn [fst snd] in Hrun.
    destruct (run_cache_ops retrieve purge (map CacheRetrieve ks) c1 tr1)
      as [[hs2 c2] tr2|] eqn:E2; [|discriminate].
    unfold ret in Hrun. cbn [fst snd] in Hrun. injection Hrun as <- <- <-.
    destruct (retrieve_ok _ _ _ _ _ _ E1) as (evs1 & -> & _ & Hcase).
    destruct (IH _ _ _ _ _ E2) as (Hmap & Hmono).
    assert (Hstep : lookup c1 k = Some h /\
                    (forall k0 h0, lookup c k0 = Some h0 -> lookup c1 k0 = Some h0)).
    { destruct Hcase as [(Hl & -> & _) | (Hl & _ & _ & Hl1 & _)].
      - auto.
      - split.
        + rewrite Hl1. now rewrite (proj2 (key_eq_true k k) eq_refl).
        + intros k0 h0 H0. rewrite Hl1.
          destruct (key_eq k k0) eqn:Ek; [|exact H0].
          apply key_eq_true in Ek. subst k0. congruence. }
    destruct Hstep as [Hk Hm1]. split.
    + cbn [map]. rewrite (Hmono _ _ Hk), Hmap. reflexivity.
    + intros k0 h0 H0. auto.
Qed.

Lemma calls_balance_resources (ops : list (CacheOp K)) :
  forall c tr hs c' tr',
    run_cache_ops retrieve purge ops c tr = Ok (hs, c') tr' ->
    exists evs,
      tr' = tr ++ evs /\
      Permutation (released evs ++ filter nonempty (handles c'))
                  (filter nonempty (handles c) ++ filter nonempty (created evs)).
Proof.
  apply (run_cache_ops_rule retrieve purge
           (fun c evs c' =>
              Permutation (released evs ++ filter nonempty (handles c'))
                          (filter nonempty (handles c) ++ filter nonempty (created evs)))).
  - intros c. rewrite released_nil, created_nil. cbn. rewrite app_nil_r. reflexivity.
  - intros c1 evs1 c2 evs2 c3 H1 H2.
    rewrite released_app, created_app, filter_app, <- app_assoc.
    apply perm_trans with (released evs1 ++ filter nonempty (handles c2)
                             ++ filter nonempty (created evs2)).
    + now apply Permutation_app_head.
    + rewrite !app_assoc. now apply Permutation_app_tail.
  - intros c k tr h c' tr' E. destruct (retrieve_ok _ _ _ _ _ _ E) as (evs & -> & Hr & Hcase).
    exists evs. split; [reflexivity|]. rewrite Hr. cbn [app].
    destruct Hcase as [(_ & Hc & _ & Hcr) | (_ & _ & Hh & _ & _ & Hcr)]; rewrite Hcr.
    + subst c'. cbn. now rewrite app_nil_r.
    + rewrite Hh. change (h :: handles c) with ([h] ++ handles c).
      rewrite filter_app. apply Permutation_app_comm.
  - intros c tr c' tr' E.
    destruct (purge_ok _ _ _ _ E) as (evs & -> & _ & Hh & _ & Hcr & Hr).
    exists evs. split; [reflexivity|]. rewrite Hh, Hcr, Hr. cbn. reflexivity.
Qed.
End CacheLaws.

(** ** The two caches obey the laws *)

Lemma layout_release_events_released m :
  released_layouts (layout_release_events m)
  = filter nonempty (map (fun kv => PipelineLayout.handle (snd kv)) m).
Proof.
  induction m as [|[k v] m IH]; [reflexivity|].
  cbn [layout_release_events flat_map map snd filter].
  fold (layout_release_events m). rewrite released_layouts_app, IH.
  unfold nonempty, PipelineLayout.handle.
  destruct (VK_NULL_HANDLE =? PipelineLayout.handle_ v); reflexivity.
Qed.

Lemma pipeline_release_events_released m :
  released_pipelines (pipeline_release_events m)
  = filter nonempty (map (fun kv => ComputePipeline.handle (snd kv)) m).
Proof.
  induction m as [|[k v] m IH]; [reflexivity|].
  cbn [pipeline_release_events flat_map map snd filter].
  fold (pipeline_release_events m). rewrite released_pipelines_app, IH.
  unfold nonempty, ComputePipeline.handle.
  destruct (VK_NULL_HANDLE =? ComputePipeline.handle_ v); reflexivity.
Qed.

Lemma layout_release_events_create_nothing m :
  created_layouts (layout_release_events m) = [] /\
  layout_creations (layout_release_events m) = 0%nat.
Proof.
  induction m as [|[k v] m [IH1 IH2]]; [split; reflexivity|].
  cbn [layout_release_events flat_map snd]. fold (layout_release_events m).
  rewrite created_layouts_app, layout_creations_app, IH1, IH2.
  destruct (VK_NULL_HANDLE =? PipelineLayout.handle_ v); split; reflexivity.
Qed.

Lemma pipeline_release_events_create_nothing m :
  created_pipelines (pipeline_release_events m) = [] /\
  pipeline_creations (pipeline_release_events m) = 0%nat.
Proof.
  induction m as [|[k v] m [IH1 IH2]]; [split; reflexivity|].
  cbn [pipeline_release_events flat_map snd]. fold (pipeline_release_events m).
  rewrite created_pipelines_app, pipeline_creations_app, IH1, IH2.
  destruct (VK_NULL_HANDLE =? ComputePipeline.handle_ v); split; reflexivity.
Qed.

Lemma layout_lookup_none c k :
  layout_lookup c k = None <->
  existsb (fun r => PipelineLayoutCache.Key_eq r k) (layout_keys c) = false.
Proof.
  unfold layout_lookup, layout_keys, PipelineLayoutCache.find.
  rewrite <- find_none_existsb.
  destruct (CacheMap.find PipelineLayoutCache.Key_eq k (PipelineLayoutCache.cache_ c));
    cbn; split; congruence.
Qed.

Lemma pipeline_lookup_none c k :
  pipeline_lookup c k = None <->
  existsb (fun r => ComputePipelineCache.Key_eq r k) (pipeline_keys c) = false.
Proof.
  unfold pipeline_lookup, pipeline_keys, ComputePipelineCache.find.
  rewrite <- find_none_existsb.
  destruct (CacheMap.find ComputePipelineCache.Key_eq k (ComputePipelineCache.cache_ c));
    cbn; split; congruence.
Qed.

Lemma layout_retrieve_law drv c k tr h c' tr' :
  PipelineLayoutCache.retrieve drv c k tr = Ok (h, c') tr' ->
  exists evs,
    tr' = tr ++ evs /\ released_layouts evs = [] /\
    ((layout_lookup c k = Some h /\ c' = c /\
      layout_creations evs = 0%nat /\ created_layouts evs = []) \/
     (layout_lookup c k = None /\ layout_keys c' = k :: layout_keys c /\
      layout_handles c' = h :: layout_handles c /\
      (forall k', layout_lookup c' k'
                  = if PipelineLayoutCache.Key_eq k k' then Some h else layout_lookup c k') /\
      layout_creations evs = 1%nat /\ created_layouts evs = [h])).
Proof.
  intros Hr. apply layout_retrieve_ok in Hr. cbv zeta in Hr.
  destruct Hr as [(it & Hf & -> & -> & ->) | (Hf & _ & -> & ->)];
    eexists; (split; [reflexivity|]); (split; [reflexivity|]).
  - left. unfold layout_lookup. rewrite Hf. auto.
  - right. unfold layout_lookup. rewrite Hf. repeat split; try reflexivity.
    intros k'. cbn. unfold PipelineLayoutCache.find.
    destruct (PipelineLayoutCache.Key_eq k k'); reflexivity.
Qed.

Lemma pipeline_retrieve_law drv c k tr h c' tr' :
  ComputePipelineCache.retrieve drv c k tr = Ok (h, c') tr' ->
  exists evs,
    tr' = tr ++ evs /\ released_pipelines evs = [] /\
    ((pipeline_lookup c k = Some h /\ c' = c /\
      pipeline_creations evs = 0%nat /\ created_pipelines evs = []) \/
     (pipeline_lookup c k = None /\ pipeline_keys c' = k :: pipeline_keys c /\
      pipeline_handles c' = h :: pipeline_handles c /\
      (forall k', pipeline_lookup c' k'
                  = if ComputePipelineCache.Key_eq k k' then Some h
                    else pipeline_lookup c k') /\
      pipeline_creations evs = 1%nat /\ created_pipelines evs = [h])).
Proof.
  intros Hr. apply pipeline_retrieve_ok in Hr. cbv zeta in Hr.
  destruct Hr as [(it & Hf & -> & -> & ->) | (Hf & _ & -> & ->)];
    eexists; (split; [reflexivity|]); (split; [reflexivity|]).
  - left. unfold pipeline_lookup. rewrite Hf. auto.
  - right. unfold pipeline_lookup. rewrite Hf. repeat split; try reflexivity.
    intros k'. cbn. unfold ComputePipelineCache.find.
    destruct (ComputePipelineCache.Key_eq k k'); reflexivity.
Qed.

Lemma layout_purge_law c tr c' tr' :
  PipelineLayoutCache.purge c tr = Ok c' tr' ->
  exists evs,
    tr' = tr ++ evs /\ layout_keys c' = [] /\ layout_handles c' = [] /\
    layout_creations evs = 0%nat /\ created_layouts evs = [] /\
    released_layouts evs = filter nonempty (layout_handles c).
Proof.
  rewrite layout_purge_run. intros E. injection E as <- <-.
  eexists. split; [reflexivity|]. split; [reflexivity|]. split; [reflexivity|].
  destruct (layout_release_events_create_nothing (PipelineLayoutCache.cache_ c))
    as [Hcr Hc].
  change (EvLock (PipelineLayoutCache.cache_mutex_ c)
            :: layout_release_events (PipelineLayoutCache.cache_ c)
            ++ [EvUnlock (PipelineLayoutCache.cache_mutex_ c)])
    with ([EvLock (PipelineLayoutCache.cache_mutex_ c)]
            ++ layout_release_events (PipelineLayoutCache.cache_ c)
            ++ [EvUnlock (PipelineLayoutCache.cache_mutex_ c)]).
  rewrite !layout_creations_app, !created_layouts_app, !released_layouts_app, Hcr, Hc,
    layout_release_events_released.
  cbn. rewrite app_nil_r. auto.
Qed.

Lemma pipeline_purge_law c tr c' tr' :
  ComputePipelineCache.purge c tr = Ok c' tr' ->
  exists evs,
    tr' = tr ++ evs /\ pipeline_keys c' = [] /\ pipeline_handles c' = [] /\
    pipeline_creations evs = 0%nat /\ created_pipelines evs = [] /\
    released_pipelines evs = filter nonempty (pipeline_handles c).
Proof.
  rewrite pipeline_purge_run. intros E. injection E as <- <-.
  eexists. split; [reflexivity|]. split; [reflexivity|]. split; [reflexivity|].
  destruct (pipeline_release_events_create_nothing (ComputePipelineCache.cache_ c))
    as [Hcr Hc].
  rewrite Hcr, Hc, pipeline_release_events_released. auto.
Qed.

(** ** Retrieval after retrieval *)

(** X1: a run of retrievals makes one creation call for each key that is
    neither resident at the start nor retrieved earlier in the run, and no
    other; the keys resident afterwards are those keys together with the
    keys resident at the start; every retrieval returns a handle. *)
Theorem retrievals_create_once_per_new_key :
  forall (drv : Driver),
    (forall ks c tr hs c' tr',
        layout_cache_run drv (map CacheRetrieve ks) c tr = Ok (hs, c') tr' ->
        exists evs,
          tr' = tr ++ evs /\
          layout_creations evs
          = List.length (new_keys PipelineLayoutCache.Key_eq (layout_keys c) ks) /\
          Permutation (layout_keys c')
            (new_keys PipelineLayoutCache.Key_eq (layout_keys c) ks ++ layout_keys c) /\
          List.length hs = List.length ks) /\
    (forall ks c tr hs c' tr',
        pipeline_cache_run drv (map CacheRetrieve ks) c tr = Ok (hs, c') tr' ->
        exists evs,
          tr' = tr ++ evs /\
          pipeline_creations evs
          = List.length (new_keys ComputePipelineCache.Key_eq (pipeline_keys c) ks) /\
          Permutation (pipeline_keys c')
            (new_keys ComputePipelineCache.Key_eq (pipeline_keys c) ks
               ++ pipeline_keys c) /\
          List.length hs = List.length ks).
Proof.
  intros drv. split; intros ks c tr hs c' tr' Hrun.
  - destruct (retrievals_create_new_keys PipelineLayoutCache.Key_eq
                (PipelineLayoutCache.retrieve drv) PipelineLayoutCache.purge
                layout_keys layout_handles layout_lookup
                layout_creations created_layouts released_layouts
                layout_lookup_none layout_creations_app eq_refl
                (layout_retrieve_law drv) ks c tr hs c' tr' Hrun)
      as (evs & Ht & Hc & Hk & Hl).
    exists evs. repeat split; try assumption.
    rewrite Hk. apply Permutation_app_tail, Permutation_sym, Permutation_rev.
  - destruct (retrievals_create_new_keys ComputePipelineCache.Key_eq
                (ComputePipelineCache.retrieve drv) ComputePipelineCache.purge
                pipeline_keys pipeline_handles pipeline_lookup
                pipeline_creations created_pipelines released_pipelines
                pipeline_lookup_none pipeline_creations_app eq_refl
                (pipeline_retrieve_law drv) ks c tr hs c' tr' Hrun)
      as (evs & Ht & Hc & Hk & Hl).
    exists evs. repeat split; try assumption.
    rewrite Hk. apply Permutation_app_tail, Permutation_sym, Permutation_rev.
Qed.

(** Five retrievals of three different keys from an empty cache: three
    creations. *)
Lemma retrievals_create_once_per_new_key_witness :
  List.length (new_keys ComputePipelineCache.Key_eq
                 (pipeline_keys empty_pipeline_cache) sample_keys) = 3%nat /\
  match pipeline_cache_run counting_driver (map CacheRetrieve sample_keys)
          empty_pipeline_cache [] with
  | Ok (hs, c') tr' =>
      hs = [1; 2; 1; 3; 2] /\
      exists evs,
        tr' = [] ++ evs /\
        pipeline_creations evs
        = List.length (new_keys ComputePipelineCache.Key_eq
                         (pipeline_keys empty_pipeline_cache) sample_keys) /\
        Permutation (pipeline_keys c')
          (new_keys ComputePipelineCache.Key_eq
             (pipeline_keys empty_pipeline_cache) sample_keys
             ++ pipeline_keys empty_pipeline_cache) /\
        List.length hs = List.length sample_keys
  | Fatal _ => False
  end.
Proof.
  split; [reflexivity|].
  destruct (pipeline_cache_run counting_driver (map CacheRetrieve sample_keys)
              empty_pipeline_cache []) as [[hs c'] tr'|tr'] eqn:E.
  - split.
    + vm_compute in E. now injection E as <- _ _.
    + exact (proj2 (retrievals_create_once_per_new_key counting_driver)
               sample_keys empty_pipeline_cache [] hs c' tr' E).
  - vm_compute in E. discriminate.
Defined.

(** X2: between purges a cache is a function of the key.  After a run of
    retrievals each handle returned is the handle resident for its key at the
    end of the run, so two retrievals of one key have returned the same
    handle, and a key that was resident at the start still has the handle it
    had. *)
Theorem retrievals_return_the_resident_handle :
  forall (drv : Driver),
    (forall ks c tr hs c' tr',
        layout_cache_run drv (map CacheRetrieve ks) c tr = Ok (hs, c') tr' ->
        map Some hs = map (layout_lookup c') ks /\
        (forall k h, layout_lookup c k = Some h -> layout_lookup c' k = Some h)) /\
    (forall ks c tr hs c' tr',
        pipeline_cache_run drv (map CacheRetrieve ks) c tr = Ok (hs, c') tr' ->
        map Some hs = map (pipeline_lookup c') ks /\
        (forall k h, pipeline_lookup c k = Some h -> pipeline_lookup c' k = Some h)).
Proof.
  intros drv. split; intros ks c tr hs c' tr' Hrun.
  - refine (retrievals_follow_the_cache PipelineLayoutCache.Key_eq
              (PipelineLayoutCache.retrieve drv) PipelineLayoutCache.purge
              layout_keys layout_handles layout_lookup
              layout_creations created_layouts released_layouts
              layout_Key_eq_true _ ks c tr hs c' tr' Hrun).
    intros c0 k tr0 h c1 tr1 E.
    destruct (layout_retrieve_law _ _ _ _ _ _ _ E) as (evs & Ht & Hr & Hcase).
    exists evs. auto.
  - refine (retrievals_follow_the_cache ComputePipelineCache.Key_eq
              (ComputePipelineCache.retrieve drv) ComputePipelineCache.purge
              pipeline_keys pipeline_handles pipeline_lookup
              pipeline_creations created_pipelines released_pipelines
              Descriptor_eq_true _ ks c tr hs c' tr' Hrun).
    intros c0 k tr0 h c1 tr1 E.
    destruct (pipeline_retrieve_law _ _ _ _ _ _ _ E) as (evs & Ht & Hr & Hcase).
    exists evs. auto.
Qed.

Lemma retrievals_return_the_resident_handle_witness :
  pipeline_lookup populated_pipeline_cache key_8_8_1 = Some 42 /\
  match pipeline_cache_run counting_driver (map CacheRetrieve sample_keys)
          populated_pipeline_cache [] with
  | Ok (hs, c') tr' =>
      hs = [42; 43; 42; 1; 43] /\
      map Some hs = map (pipeline_lookup c') sample_keys /\
      pipeline_lookup c' key_8_8_1 = Some 42
  | Fatal _ => False
  end.
Proof.
  assert (Hl : pipeline_lookup populated_pipeline_cache key_8_8_1 = Some 42)
    by reflexivity.
  split; [exact Hl|].
  destruct (pipeline_cache_run counting_driver (map CacheRetrieve sample_keys)
              populated_pipeline_cache []) as [[hs c'] tr'|tr'] eqn:E.
  - destruct (proj2 (retrievals_return_the_resident_handle counting_driver)
                sample_keys populated_pipeline_cache [] hs c' tr' E) as [Hmap Hmono].
    split; [|split; [exact Hmap | exact (Hmono _ _ Hl)]].
    vm_compute in E. now injection E as <- _ _.
  - vm_compute in E. discriminate.
Defined.

(** ** What the calls of a cache look like *)

Lemma pipeline_event_of_same c c' e :
  ComputePipelineCache.cache_mutex_ c' = ComputePipelineCache.cache_mutex_ c ->
  ComputePipelineCache.device_ c' = ComputePipelineCache.device_ c ->
  ComputePipelineCache.pipeline_cache_ c' = ComputePipelineCache.pipeline_cache_ c ->
  pipeline_event_of c' e -> pipeline_event_of c e.
Proof. intros Hm Hd Hp. destruct e; cbn; rewrite ?Hm, ?Hd, ?Hp; auto. Qed.

Lemma layout_event_of_same c c' e :
  PipelineLayoutCache.cache_mutex_ c' = PipelineLayoutCache.cache_mutex_ c ->
  PipelineLayoutCache.device_ c' = PipelineLayoutCache.device_ c ->
  layout_event_of c' e -> layout_event_of c e.
Proof. intros Hm Hd. destruct e; cbn; rewrite ?Hm, ?Hd; auto. Qed.

Lemma pipeline_release_events_on_device c :
  pipelines_on_device c ->
  Forall (pipeline_event_of c) (pipeline_release_events (ComputePipelineCache.cache_ c)).
Proof.
  unfold pipelines_on_device. generalize (ComputePipelineCache.cache_ c) as m.
  induction m as [|[k v] m IH]; intros Hon; [constructor|].
  apply Forall_cons_iff in Hon. destruct Hon as [Hv Hon]. cbn [snd] in Hv.
  cbn [pipeline_release_events flat_map snd]. fold (pipeline_release_events m).
  destruct (VK_NULL_HANDLE =? ComputePipeline.handle_ v) eqn:E; cbn [app]; [auto|].
  constructor; [|auto]. cbn. split; [exact Hv|].
  apply Z.eqb_neq in E. congruence.
Qed.

Lemma layout_release_events_on_device c :
  layouts_on_device c ->
  Forall (layout_event_of c) (layout_release_events (PipelineLayoutCache.cache_ c)).
Proof.
  unfold layouts_on_device. generalize (PipelineLayoutCache.cache_ c) as m.
  induction m as [|[k v] m IH]; intros Hon; [constructor|].
  apply Forall_cons_iff in Hon. destruct Hon as [Hv Hon]. cbn [snd] in Hv.
  cbn [layout_release_events flat_map snd]. fold (layout_release_events m).
  destruct (VK_NULL_HANDLE =? PipelineLayout.handle_ v) eqn:E; cbn [app]; [auto|].
  constructor; [|auto]. cbn. split; [exact Hv|].
  apply Z.eqb_neq in E. congruence.
Qed.

Lemma layout_calls_on_device drv ops c tr hs c' tr' :
  layouts_on_device c ->
  layout_cache_run drv ops c tr = Ok (hs, c') tr' ->
  exists evs,
    tr' = tr ++ evs /\
    Forall (layout_event_of c) evs /\
    PipelineLayoutCache.cache_mutex_ c' = PipelineLayoutCache.cache_mutex_ c /\
    PipelineLayoutCache.device_ c' = PipelineLayoutCache.device_ c /\
    layouts_on_device c'.
Proof.
  intros Hon Hrun.
  pose proof (run_cache_ops_rule (PipelineLayoutCache.retrieve drv)
                PipelineLayoutCache.purge
                (fun c evs c' =>
                   PipelineLayoutCache.cache_mutex_ c'
                   = PipelineLayoutCache.cache_mutex_ c /\
                   PipelineLayoutCache.device_ c' = PipelineLayoutCache.device_ c /\
                   (layouts_on_device c ->
                    layouts_on_device c' /\ Forall (layout_event_of c) evs))) as Rule.
  destruct (Rule) with (5 := Hrun) as (evs & -> & Hm & Hd & H); clear Rule.
  + intros c0. auto.
  + intros c1 evs1 c2 evs2 c3 (Hm1 & Hd1 & H1) (Hm2 & Hd2 & H2).
    split; [congruence|]. split; [congruence|]. intros H0.
    destruct (H1 H0) as [Hon2 Hev1]. destruct (H2 Hon2) as [Hon3 Hev2].
    split; [exact Hon3|]. apply Forall_app. split; [exact Hev1|].
    eapply Forall_impl; [|exact Hev2]. intros e. now apply layout_event_of_same.
  + intros c0 key tr0 h c1 tr1 E. apply layout_retrieve_ok in E. cbv zeta in E.
    destruct E as [(it & _ & _ & -> & ->) | (_ & _ & -> & ->)]; eexists;
      (split; [reflexivity|]); (split; [reflexivity|]); (split; [reflexivity|]);
      intros H0.
    * split; [exact H0|]. repeat constructor.
    * split; [constructor; [reflexivity | exact H0]|].
      repeat constructor. cbn. eauto.
  + intros c0 tr0 c1 tr1 E. rewrite layout_purge_run in E. injection E as <- <-.
    eexists. split; [reflexivity|]. split; [reflexivity|]. split; [reflexivity|].
    intros H0. split; [constructor|].
    constructor; [reflexivity|]. apply Forall_app. split.
    * now apply layout_release_events_on_device.
    * repeat constructor.
  + exists evs. destruct (H Hon). auto.
Qed.

Lemma pipeline_calls_on_device drv ops c tr hs c' tr' :
  pipelines_on_device c ->
  pipeline_cache_run drv ops c tr = Ok (hs, c') tr' ->
  exists evs,
    tr' = tr ++ evs /\
    Forall (pipeline_event_of c) evs /\
    ComputePipelineCache.cache_mutex_ c' = ComputePipelineCache.cache_mutex_ c /\
    ComputePipelineCache.device_ c' = ComputePipelineCache.device_ c /\
    ComputePipelineCache.pipeline_cache_ c' = ComputePipelineCache.pipeline_cache_ c /\
    pipelines_on_device c'.
Proof.
  intros Hon Hrun.
  pose proof (run_cache_ops_rule (ComputePipelineCache.retrieve drv)
                ComputePipelineCache.purge
                (fun c evs c' =>
                   ComputePipelineCache.cache_mutex_ c'
                   = ComputePipelineCache.cache_mutex_ c /\
                   ComputePipelineCache.device_ c' = ComputePipelineCache.device_ c /\
                   ComputePipelineCache.pipeline_cache_ c'
                   = ComputePipelineCache.pipeline_cache_ c /\
                   (pipelines_on_device c ->
                    pipelines_on_device c' /\ Forall (pipeline_event_of c) evs)))
    as Rule.
  destruct (Rule) with (5 := Hrun) as (evs & -> & Hm & Hd & Hp & H); clear Rule.
  + intros c0. auto.
  + intros c1 evs1 c2 evs2 c3 (Hm1 & Hd1 & Hp1 & H1) (Hm2 & Hd2 & Hp2 & H2).
    split; [congruence|]. split; [congruence|]. split; [congruence|]. intros H0.
    destruct (H1 H0) as [Hon2 Hev1]. destruct (H2 Hon2) as [Hon3 Hev2].
    split; [exact Hon3|]. apply Forall_app. split; [exact Hev1|].
    eapply Forall_impl; [|exact Hev2]. intros e. now apply pipeline_event_of_same.
  + intros c0 key tr0 h c1 tr1 E. apply pipeline_retrieve_ok in E. cbv zeta in E.
    destruct E as [(it & _ & _ & -> & ->) | (_ & _ & -> & ->)]; eexists;
      (split; [reflexivity|]); (split; [reflexivity|]); (split; [reflexivity|]);
      (split; [reflexivity|]); intros H0.
    * split; [exact H0|]. repeat constructor.
    * split; [constructor; [reflexivity | exact H0]|].
      repeat constructor. cbn. eauto 10.
  + intros c0 tr0 c1 tr1 E. rewrite pipeline_purge_run in E. injection E as <- <-.
    eexists. split; [reflexivity|]. split; [reflexivity|]. split; [reflexivity|].
    split; [reflexivity|].
    intros H0. split; [constructor|].
    now apply pipeline_release_events_on_device.
  + exists evs. destruct (H Hon). auto 10.
Qed.

(** X3: whatever retrievals and purges a user makes on a cache whose resident
    values are on the device of the cache, the cache makes no call but these:
    locks and unlocks of its own mutex, successful creations on its own device
    (for a pipeline: of one pipeline, with its own acceleration object) from
    the create-info of a key, and releases of non-empty handles on its own
    device.  Its mutex, its device and its acceleration object stay what
    they were, and the resident values stay on its device. *)
Theorem cache_calls_stay_on_the_device :
  forall (drv : Driver),
    (forall ops c tr hs c' tr',
        layouts_on_device c ->
        layout_cache_run drv ops c tr = Ok (hs, c') tr' ->
        exists evs,
          tr' = tr ++ evs /\
          Forall (layout_event_of c) evs /\
          PipelineLayoutCache.cache_mutex_ c' = PipelineLayoutCache.cache_mutex_ c /\
          PipelineLayoutCache.device_ c' = PipelineLayoutCache.device_ c /\
          layouts_on_device c') /\
    (forall ops c tr hs c' tr',
        pipelines_on_device c ->
        pipeline_cache_run drv ops c tr = Ok (hs, c') tr' ->
        exists evs,
          tr' = tr ++ evs /\
          Forall (pipeline_event_of c) evs /\
          ComputePipelineCache.cache_mutex_ c' = ComputePipelineCache.cache_mutex_ c /\
          ComputePipelineCache.device_ c' = ComputePipelineCache.device_ c /\
          ComputePipelineCache.pipeline_cache_ c'
          = ComputePipelineCache.pipeline_cache_ c /\
          pipelines_on_device c').
Proof.
  intros drv. split; intros ops c tr hs c' tr' Hon Hrun.
  - eapply layout_calls_on_device; eassumption.
  - eapply pipeline_calls_on_device; eassumption.
Qed.

(** ** Lock discipline *)

Lemma scan_lock_app needs m held evs1 evs2 :
  scan_lock needs m held (evs1 ++ evs2)
  = match scan_lock needs m held evs1 with
    | Some held' => scan_lock needs m held' evs2
    | None => None
    end.
Proof.
  revert held. induction evs1 as [|e evs1 IH]; intros held; [reflexivity|].
  destruct e; cbn [app scan_lock];
    repeat match goal with
           | |- context [if ?b then _ else _] => destruct b
           end; auto.
Qed.

Lemma scan_lock_quiet needs m held evs :
  Forall (fun e => is_lock_event e = false /\ needs e && negb held = false) evs ->
  scan_lock needs m held evs = Some held.
Proof.
  induction 1 as [|e evs [Hl Hn] _ IH]; [reflexivity|].
  destruct e; cbn in Hl; try discriminate; cbn [scan_lock]; now rewrite Hn.
Qed.

Lemma layout_release_events_scan needs m c :
  scan_lock needs m true (layout_release_events c) = Some true.
Proof.
  apply scan_lock_quiet. induction c as [|[k v] c IH]; [constructor|].
  cbn [layout_release_events flat_map snd]. fold (layout_release_events c).
  destruct (VK_NULL_HANDLE =? PipelineLayout.handle_ v); cbn [app]; [exact IH|].
  constructor; [|exact IH]. split; [reflexivity | apply andb_false_r].
Qed.

Lemma pipeline_release_events_scan m c :
  scan_lock is_pipeline_creation m false (pipeline_release_events c) = Some false.
Proof.
  apply scan_lock_quiet. induction c as [|[k v] c IH]; [constructor|].
  cbn [pipeline_release_events flat_map snd]. fold (pipeline_release_events c).
  destruct (VK_NULL_HANDLE =? ComputePipeline.handle_ v); cbn [app]; [exact IH|].
  constructor; [|exact IH]. split; reflexivity.
Qed.

(** X4: in the calls that retrievals and purges of a layout cache make, and
    in those of its destructor, the mutex of the cache is never locked while
    held nor unlocked while free, it is free at the end, and every driver
    call comes while it is held.  For a pipeline cache the same holds of the
    locks and of the creation calls. *)
Theorem cache_calls_keep_the_lock_discipline :
  forall (drv : Driver),
    (forall ops c tr hs c' tr',
        layout_cache_run drv ops c tr = Ok (hs, c') tr' ->
        exists evs,
          tr' = tr ++ evs /\
          PipelineLayoutCache.cache_mutex_ c' = PipelineLayoutCache.cache_mutex_ c /\
          scan_lock is_driver_call (PipelineLayoutCache.cache_mutex_ c) false evs
          = Some false /\
          exists c'' evs',
            PipelineLayoutCache.dtor c' tr' = Ok c'' (tr' ++ evs') /\
            scan_lock is_driver_call (PipelineLayoutCache.cache_mutex_ c) false
              (evs ++ evs') = Some false) /\
    (forall ops c tr hs c' tr',
        pipeline_cache_run drv ops c tr = Ok (hs, c') tr' ->
        exists evs,
          tr' = tr ++ evs /\
          ComputePipelineCache.cache_mutex_ c' = ComputePipelineCache.cache_mutex_ c /\
          scan_lock is_pipeline_creation (ComputePipelineCache.cache_mutex_ c) false evs
          = Some false).
Proof.
  intros drv. split; intros ops c tr hs c' tr' Hrun.
  - pose proof (run_cache_ops_rule (PipelineLayoutCache.retrieve drv)
                  PipelineLayoutCache.purge
                  (fun c evs c' =>
                     PipelineLayoutCache.cache_mutex_ c'
                     = PipelineLayoutCache.cache_mutex_ c /\
                     scan_lock is_driver_call (PipelineLayoutCache.cache_mutex_ c)
                       false evs = Some false)) as Rule.
    destruct (Rule) with (5 := Hrun) as (evs & -> & Hm & Hs); clear Rule.
    + intros c0. auto.
    + intros c1 evs1 c2 evs2 c3 (Hm1 & H1) (Hm2 & H2).
      split; [congruence|]. rewrite scan_lock_app, H1. now rewrite <- Hm1.
    + intros c0 key tr0 h c1 tr1 E. apply layout_retrieve_ok in E. cbv zeta in E.
      destruct E as [(it & _ & _ & -> & ->) | (_ & _ & -> & ->)]; eexists;
        (split; [reflexivity|]); (split; [reflexivity|]);
        cbn; now rewrite Nat.eqb_refl.
    + intros c0 tr0 c1 tr1 E. rewrite layout_purge_run in E. injection E as <- <-.
      eexists. split; [reflexivity|]. split; [reflexivity|].
      cbn [scan_lock]. rewrite Nat.eqb_refl, scan_lock_app, layout_release_events_scan.
      cbn. now rewrite Nat.eqb_refl.
    + exists evs. split; [reflexivity|]. split; [exact Hm|]. split; [exact Hs|].
      do 2 eexists. split; [apply layout_cache_dtor_run|].
      rewrite scan_lock_app, Hs, Hm.
      cbn [scan_lock]. rewrite Nat.eqb_refl, scan_lock_app, layout_release_events_scan.
      cbn. now rewrite Nat.eqb_refl.
  - pose proof (run_cache_ops_rule (ComputePipelineCache.retrieve drv)
                  ComputePipelineCache.purge
                  (fun c evs c' =>
                     ComputePipelineCache.cache_mutex_ c'
                     = ComputePipelineCache.cache_mutex_ c /\
                     scan_lock is_pipeline_creation (ComputePipelineCache.cache_mutex_ c)
                       false evs = Some false)) as Rule.
    destruct (Rule) with (5 := Hrun) as (evs & -> & Hm & Hs); clear Rule.
    + intros c0. auto.
    + intros c1 evs1 c2 evs2 c3 (Hm1 & H1) (Hm2 & H2).
      split; [congruence|]. rewrite scan_lock_app, H1. now rewrite <- Hm1.
    + intros c0 key tr0 h c1 tr1 E. apply pipeline_retrieve_ok in E. cbv zeta in E.
      destruct E as [(it & _ & _ & -> & ->) | (_ & _ & -> & ->)]; eexists;
        (split; [reflexivity|]); (split; [reflexivity|]);
        cbn; now rewrite Nat.eqb_refl.
    + intros c0 tr0 c1 tr1 E. rewrite pipeline_purge_run in E. injection E as <- <-.
      eexists. split; [reflexivity|]. split; [reflexivity|].
      apply pipeline_release_events_scan.
    + exists evs. auto.
Qed.

(** ** The whole life of a cache *)

Lemma released_pipeline_caches_app evs1 evs2 :
  released_pipeline_caches (evs1 ++ evs2)
  = released_pipeline_caches evs1 ++ released_pipeline_caches evs2.
Proof.
  induction evs1 as [|e evs1 IH]; [reflexivity|].
  destruct e; cbn; rewrite ?IH; reflexivity.
Qed.

Lemma created_pipeline_caches_app evs1 evs2 :
  created_pipeline_caches (evs1 ++ evs2)
  = created_pipeline_caches evs1 ++ created_pipeline_caches evs2.
Proof.
  induction evs1 as [|e evs1 IH]; [reflexivity|].
  destruct e; cbn [app created_pipeline_caches]; try apply IH.
  destruct r; [cbn; now rewrite IH | apply IH].
Qed.

Lemma pipeline_events_leave_the_acceleration_object c evs :
  Forall (pipeline_event_of c) evs ->
  created_pipeline_caches evs = [] /\ released_pipeline_caches evs = [].
Proof.
  induction 1 as [|e evs He _ [IH1 IH2]]; [split; reflexivity|].
  destruct e; cbn in He; try contradiction; cbn; auto.
Qed.

Lemma pipeline_cache_ctor_run drv mutex device tr :
  let rh := vkCreatePipelineCache drv tr device
              ComputePipelineCache.pipeline_cache_create_info in
  let ev := EvCreatePipelineCache device ComputePipelineCache.pipeline_cache_create_info
              (fst rh) (snd rh) in
  ComputePipelineCache.ctor drv mutex device tr
  = if success (fst rh)
    then Ok (ComputePipelineCache.mk mutex device (snd rh) []) (tr ++ [ev])
    else Fatal (tr ++ [ev]).
Proof.
  intros rh ev. unfold ComputePipelineCache.ctor. run_m. fold rh.
  destruct (success (fst rh)); reflexivity.
Qed.

Lemma layout_calls_balance drv ops c tr hs c' tr' :
  layout_cache_run drv ops c tr = Ok (hs, c') tr' ->
  exists evs,
    tr' = tr ++ evs /\
    Permutation (released_layouts evs ++ filter nonempty (layout_handles c'))
                (filter nonempty (layout_handles c) ++ filter nonempty (created_layouts evs)).
Proof.
  intros Hrun.
  refine (calls_balance_resources PipelineLayoutCache.Key_eq
            (PipelineLayoutCache.retrieve drv) PipelineLayoutCache.purge
            layout_keys layout_handles layout_lookup
            layout_creations created_layouts released_layouts
            created_layouts_app eq_refl released_layouts_app eq_refl
            _ _ ops c tr hs c' tr' Hrun).
  - intros c0 k tr0 h c1 tr1 E.
    destruct (layout_retrieve_law _ _ _ _ _ _ _ E) as (evs & Ht & Hr & Hcase).
    exists evs. auto.
  - apply layout_purge_law.
Qed.

Lemma pipeline_calls_balance drv ops c tr hs c' tr' :
  pipeline_cache_run drv ops c tr = Ok (hs, c') tr' ->
  exists evs,
    tr' = tr ++ evs /\
    Permutation (released_pipelines evs ++ filter nonempty (pipeline_handles c'))
                (filter nonempty (pipeline_handles c)
                   ++ filter nonempty (created_pipelines evs)).
Proof.
  intros Hrun.
  refine (calls_balance_resources ComputePipelineCache.Key_eq
            (ComputePipelineCache.retrieve drv) ComputePipelineCache.purge
            pipeline_keys pipeline_handles pipeline_lookup
            pipeline_creations created_pipelines released_pipelines
            created_pipelines_app eq_refl released_pipelines_app eq_refl
            _ _ ops c tr hs c' tr' Hrun).
  - intros c0 k tr0 h c1 tr1 E.
    destruct (pipeline_retrieve_law _ _ _ _ _ _ _ E) as (evs & Ht & Hr & Hcase).
    exists evs. auto.
  - apply pipeline_purge_law.
Qed.

(** X5: over the whole life of a cache (construction, any retrievals and
    purges, destruction) that runs to its end, the handles released are,
    counted with repetition, the non-empty handles that were created: nothing
    the cache created is left unreleased and nothing is released twice.  The
    pipeline cache also releases its acceleration object, once. *)
Theorem whole_life_releases_what_it_created :
  forall (drv : Driver) (mutex : MutexId) (device : VkDevice),
    (forall ops tr hs c tr',
        layout_cache_whole_life drv mutex device ops tr = Ok (hs, c) tr' ->
        exists evs,
          tr' = tr ++ evs /\
          Permutation (released_layouts evs) (filter nonempty (created_layouts evs)) /\
          PipelineLayoutCache.cache_ c = []) /\
    (forall ops tr hs c tr',
        pipeline_cache_whole_life drv mutex device ops tr = Ok (hs, c) tr' ->
        exists evs,
          tr' = tr ++ evs /\
          Permutation (released_pipelines evs) (filter nonempty (created_pipelines evs)) /\
          released_pipeline_caches evs = filter nonempty (created_pipeline_caches evs) /\
          ComputePipelineCache.cache_ c = [] /\
          ComputePipelineCache.pipeline_cache_ c = VK_NULL_HANDLE).
Proof.
  intros drv mutex device. split; intros ops tr hs c tr' Hlife.
  - unfold layout_cache_whole_life, bind, ret in Hlife.
    destruct (layout_cache_run drv ops (PipelineLayoutCache.ctor mutex device) tr)
      as [[hs1 c1] tr1|] eqn:Eops; [|discriminate].
    cbn [fst snd] in Hlife. rewrite layout_cache_dtor_run in Hlife.
    injection Hlife as <- <- <-.
    destruct (layout_calls_balance _ _ _ _ _ _ _ Eops) as (evs & -> & Hbal).
    eexists. rewrite <- app_assoc. split; [reflexivity|]. split; [|reflexivity].
    change (EvLock (PipelineLayoutCache.cache_mutex_ c1)
              :: layout_release_events (PipelineLayoutCache.cache_ c1)
              ++ [EvUnlock (PipelineLayoutCache.cache_mutex_ c1)])
      with ([EvLock (PipelineLayoutCache.cache_mutex_ c1)]
              ++ layout_release_events (PipelineLayoutCache.cache_ c1)
              ++ [EvUnlock (PipelineLayoutCache.cache_mutex_ c1)]).
    rewrite !released_layouts_app, !created_layouts_app.
    rewrite layout_release_events_released,
      (proj1 (layout_release_events_create_nothing _)).
    cbn [released_layouts created_layouts app]. rewrite !app_nil_r.
    exact Hbal.
  - unfold pipeline_cache_whole_life, bind, ret in Hlife.
    pose proof (pipeline_cache_ctor_run drv mutex device tr) as Hctor.
    cbv zeta in Hctor. rewrite Hctor in Hlife. clear Hctor.
    destruct (vkCreatePipelineCache drv tr device
                ComputePipelineCache.pipeline_cache_create_info) as [r h].
    cbn [fst snd] in Hlife. destruct r; cbn [success] in Hlife; [|discriminate].
    destruct (pipeline_cache_run drv ops (ComputePipelineCache.mk mutex device h []) _)
      as [[hs1 c1] tr1|] eqn:Eops; [|discriminate].
    cbn [fst snd] in Hlife. rewrite pipeline_cache_dtor_run in Hlife.
    injection Hlife as <- <- <-.
    destruct (pipeline_calls_balance _ _ _ _ _ _ _ Eops) as (evs & Ht & Hbal).
    assert (Hon : pipelines_on_device (ComputePipelineCache.mk mutex device h []))
      by constructor.
    destruct (pipeline_calls_on_device drv _ _ _ _ _ _ Hon Eops)
      as (evs' & Ht' & Hev & _ & _ & Hpc & _).
    rewrite Ht in Ht'. apply app_inv_head in Ht'. subst evs' tr1.
    destruct (pipeline_events_leave_the_acceleration_object _ _ Hev) as [Hcpc Hrpc].
    cbn [ComputePipelineCache.pipeline_cache_] in Hpc. rewrite Hpc.
    eexists. rewrite <- !app_assoc. split; [reflexivity|].
    cbn [app].
    cbn [released_pipelines created_pipelines released_pipeline_caches
           created_pipeline_caches].
    rewrite !released_pipelines_app, !created_pipelines_app,
      !released_pipeline_caches_app, !created_pipeline_caches_app.
    rewrite pipeline_release_events_released,
      (proj1 (pipeline_release_events_create_nothing _)), Hcpc, Hrpc.
    assert (Hrel0 : forall m, released_pipeline_caches (pipeline_release_events m) = []).
    { induction m as [|[k v] m IH]; [reflexivity|].
      cbn [pipeline_release_events flat_map snd].
      destruct (VK_NULL_HANDLE =? ComputePipeline.handle_ v); cbn; exact IH. }
    assert (Hcr0 : forall m, created_pipeline_caches (pipeline_release_events m) = []).
    { induction m as [|[k v] m IH]; [reflexivity|].
      cbn [pipeline_release_events flat_map snd].
      destruct (VK_NULL_HANDLE =? ComputePipeline.handle_ v); cbn; exact IH. }
    rewrite Hrel0, Hcr0.
    assert (HX : forall (b : bool) d,
               released_pipelines
                 (if b then [] else [EvDestroyPipelineCache d h]) = [] /\
               created_pipelines
                 (if b then [] else [EvDestroyPipelineCache d h]) = [] /\
               created_pipeline_caches
                 (if b then [] else [EvDestroyPipelineCache d h]) = []).
    { intros [] d; repeat split. }
    rewrite (proj1 (HX _ _)), (proj1 (proj2 (HX _ _))), (proj2 (proj2 (HX _ _))).
    rewrite !app_nil_r. cbn [app].
    split; [exact Hbal|]. clear. destruct h; repeat split.
Qed.

Lemma cache_calls_stay_on_the_device_witness :
  pipelines_on_device populated_pipeline_cache /\
  match pipeline_cache_run counting_driver sample_ops populated_pipeline_cache [] with
  | Ok (hs, c') tr' =>
      hs = [42; 43; 42; 1; 2] /\
      released_pipelines tr' = [43; 42] /\
      exists evs,
        tr' = [] ++ evs /\
        Forall (pipeline_event_of populated_pipeline_cache) evs /\
        ComputePipelineCache.cache_mutex_ c' = 7%nat /\
        ComputePipelineCache.device_ c' = 1 /\
        ComputePipelineCache.pipeline_cache_ c' = 5 /\
        pipelines_on_device c'
  | Fatal _ => False
  end.
Proof.
  assert (Hon : pipelines_on_device populated_pipeline_cache)
    by (repeat constructor).
  split; [exact Hon|].
  destruct (pipeline_cache_run counting_driver sample_ops populated_pipeline_cache [])
    as [[hs c'] tr'|tr'] eqn:E.
  - split; [|split].
    + vm_compute in E. now injection E as <- _ _.
    + vm_compute in E. now injection E as _ _ <-.
    + exact (proj2 (cache_calls_stay_on_the_device counting_driver)
               sample_ops populated_pipeline_cache [] hs c' tr' Hon E).
  - vm_compute in E. discriminate.
Defined.

Lemma cache_calls_keep_the_lock_discipline_witness :
  match layout_cache_run counting_driver sample_layout_ops populated_layout_cache [] with
  | Ok (hs, c') tr' =>
      hs = [60; 61; 60; 1] /\
      exists evs,
        tr' = [] ++ evs /\
        PipelineLayoutCache.cache_mutex_ c' = 3%nat /\
        scan_lock is_driver_call 3%nat false evs = Some false /\
        exists c'' evs',
          PipelineLayoutCache.dtor c' tr' = Ok c'' (tr' ++ evs') /\
          scan_lock is_driver_call 3%nat false (evs ++ evs') = Some false
  | Fatal _ => False
  end.
Proof.
  destruct (layout_cache_run counting_driver sample_layout_ops populated_layout_cache [])
    as [[hs c'] tr'|tr'] eqn:E.
  - split.
    + vm_compute in E. now injection E as <- _ _.
    + exact (proj1 (cache_calls_keep_the_lock_discipline counting_driver)
               sample_layout_ops populated_layout_cache [] hs c' tr' E).
  - vm_compute in E. discriminate.
Defined.

(** Read with every driver call in need of the lock, the calls of a pipeline
    cache fail the reading as soon as a purge finds a pipeline to release. *)
Example pipeline_purge_fails_the_strict_reading :
  match pipeline_cache_run counting_driver sample_ops empty_pipeline_cache [] with
  | Ok _ tr' =>
      scan_lock is_pipeline_creation 7%nat false tr' = Some false /\
      scan_lock is_driver_call 7%nat false tr' = None
  | Fatal _ => False
  end.
Proof. vm_compute. split; reflexivity. Qed.

Lemma whole_life_releases_what_it_created_witness :
  match pipeline_cache_whole_life counting_driver 7%nat 1 sample_ops [] with
  | Ok (hs, c) tr' =>
      hs = [1; 2; 1; 3; 4] /\
      created_pipelines tr' = [1; 2; 3; 4] /\
      released_pipelines tr' = [2; 1; 4; 3] /\
      exists evs,
        tr' = [] ++ evs /\
        Permutation (released_pipelines evs) (filter nonempty (created_pipelines evs)) /\
        released_pipeline_caches evs = filter nonempty (created_pipeline_caches evs) /\
        ComputePipelineCache.cache_ c = [] /\
        ComputePipelineCache.pipeline_cache_ c = VK_NULL_HANDLE
  | Fatal _ => False
  end.
Proof.
  destruct (pipeline_cache_whole_life counting_driver 7%nat 1 sample_ops [])
    as [[hs c] tr'|tr'] eqn:E.
  - split; [|split; [|split]].
    + vm_compute in E. now injection E as <- _ _.
    + vm_compute in E. now injection E as _ _ <-.
    + vm_compute in E. now injection E as _ _ <-.
    + exact (proj2 (whole_life_releases_what_it_created counting_driver 7%nat 1)
               sample_ops [] hs c tr' E).
  - vm_compute in E. discriminate.
Defined.

(** X6: the whole life of a pipeline cache that runs to its end starts with
    the creation of the acceleration object, with no initial data, and ends
    with its release (when its handle is not the empty sentinel); every call
    in between is a call of the cache on the same device, and every pipeline
    is created with that acceleration object.  The handles returned are one
    per retrieval. *)
Theorem pipeline_cache_life_is_bracketed_by_its_acceleration_object :
  forall (drv : Driver) (mutex : MutexId) (device : VkDevice) ops tr hs c tr',
    pipeline_cache_whole_life drv mutex device ops tr = Ok (hs, c) tr' ->
    exists h evs,
      vkCreatePipelineCache drv tr device ComputePipelineCache.pipeline_cache_create_info
      = (VK_SUCCESS, h) /\
      initialDataSize ComputePipelineCache.pipeline_cache_create_info = 0 /\
      pInitialData ComputePipelineCache.pipeline_cache_create_info = [] /\
      tr' = tr
            ++ [EvCreatePipelineCache device
                  ComputePipelineCache.pipeline_cache_create_info VK_SUCCESS h]
            ++ evs
            ++ (if VK_NULL_HANDLE =? h then [] else [EvDestroyPipelineCache device h]) /\
      Forall (pipeline_event_of (ComputePipelineCache.mk mutex device h [])) evs.
Proof.
  intros drv mutex device ops tr hs c tr' Hlife.
  unfold pipeline_cache_whole_life, bind, ret in Hlife.
  pose proof (pipeline_cache_ctor_run drv mutex device tr) as Hctor.
  cbv zeta in Hctor. rewrite Hctor in Hlife. clear Hctor.
  destruct (vkCreatePipelineCache drv tr device
              ComputePipelineCache.pipeline_cache_create_info) as [r h] eqn:Ecreate.
  cbn [fst snd] in Hlife. destruct r; cbn [success] in Hlife; [|discriminate].
  destruct (pipeline_cache_run drv ops (ComputePipelineCache.mk mutex device h []) _)
    as [[hs1 c1] tr1|] eqn:Eops; [|discriminate].
  cbn [fst snd] in Hlife. rewrite pipeline_cache_dtor_run in Hlife.
  injection Hlife as <- <- <-.
  assert (Hon : pipelines_on_device (ComputePipelineCache.mk mutex device h []))
    by constructor.
  destruct (pipeline_calls_on_device drv _ _ _ _ _ _ Hon Eops)
    as (evs & -> & Hev & Hm & Hd & Hpc & Hon1).
  cbn [ComputePipelineCache.cache_mutex_ ComputePipelineCache.device_
         ComputePipelineCache.pipeline_cache_] in Hm, Hd, Hpc.
  exists h, (evs ++ pipeline_release_events (ComputePipelineCache.cache_ c1)).
  split; [reflexivity|]. split; [reflexivity|]. split; [reflexivity|]. split.
  - rewrite Hd, Hpc, <- !app_assoc. reflexivity.
  - apply Forall_app. split; [exact Hev|].
    eapply Forall_impl; [|exact (pipeline_release_events_on_device c1 Hon1)].
    intros e. now apply pipeline_event_of_same.
Qed.

Lemma pipeline_cache_life_is_bracketed_by_its_acceleration_object_witness :
  match pipeline_cache_whole_life counting_driver 7%nat 1 sample_ops [] with
  | Ok (hs, c) tr' =>
      hd_error tr'
      = Some (EvCreatePipelineCache 1 ComputePipelineCache.pipeline_cache_create_info
                VK_SUCCESS 1) /\
      last tr' (EvLock 0%nat) = EvDestroyPipelineCache 1 1 /\
      exists h evs,
        vkCreatePipelineCache counting_driver [] 1
          ComputePipelineCache.pipeline_cache_create_info = (VK_SUCCESS, h) /\
        initialDataSize ComputePipelineCache.pipeline_cache_create_info = 0 /\
        pInitialData ComputePipelineCache.pipeline_cache_create_info = [] /\
        tr' = []
              ++ [EvCreatePipelineCache 1
                    ComputePipelineCache.pipeline_cache_create_info VK_SUCCESS h]
              ++ evs
              ++ (if VK_NULL_HANDLE =? h then [] else [EvDestroyPipelineCache 1 h]) /\
        Forall (pipeline_event_of (ComputePipelineCache.mk 7%nat 1 h [])) evs
  | Fatal _ => False
  end.
Proof.
  destruct (pipeline_cache_whole_life counting_driver 7%nat 1 sample_ops [])
    as [[hs c] tr'|tr'] eqn:E.
  - split; [|split].
    + vm_compute in E. now injection E as _ _ <-.
    + vm_compute in E. now injection E as _ _ <-.
    + exact (pipeline_cache_life_is_bracketed_by_its_acceleration_object
               counting_driver 7%nat 1 sample_ops [] hs c tr' E).
  - vm_compute in E. discriminate.
Defined.

(** ** When a retrieval fails *)

(** X7: a retrieval is fatal exactly when the key is not resident and the
    creation call of the driver does not succeed; the run then ends right
    after the creation call, with the mutex of the cache still locked and
    nothing released.  A resident key is served whatever the driver would
    answer. *)
Theorem retrieve_is_fatal_only_on_a_failed_creation :
  forall (drv : Driver),
    (forall c key tr tr',
        PipelineLayoutCache.retrieve drv c key tr = Fatal tr' <->
        PipelineLayoutCache.find key (PipelineLayoutCache.cache_ c) = None /\
        exists r h,
          vkCreatePipelineLayout drv
            (tr ++ [EvLock (PipelineLayoutCache.cache_mutex_ c)])
            (PipelineLayoutCache.device_ c) (PipelineLayout.create_info key) = (r, h) /\
          success r = false /\
          tr' = tr ++ [EvLock (PipelineLayoutCache.cache_mutex_ c);
                       EvCreatePipelineLayout (PipelineLayoutCache.device_ c)
                         (PipelineLayout.create_info key) r h]) /\
    (forall c key tr tr',
        ComputePipelineCache.retrieve drv c key tr = Fatal tr' <->
        ComputePipelineCache.find key (ComputePipelineCache.cache_ c) = None /\
        exists r h,
          vkCreateComputePipelines drv
            (tr ++ [EvLock (ComputePipelineCache.cache_mutex_ c)])
            (ComputePipelineCache.device_ c) (ComputePipelineCache.pipeline_cache_ c) 1
            (ComputePipeline.compute_pipeline_create_info key) = (r, h) /\
          success r = false /\
          tr' = tr ++ [EvLock (ComputePipelineCache.cache_mutex_ c);
                       EvCreateComputePipelines (ComputePipelineCache.device_ c)
                         (ComputePipelineCache.pipeline_cache_ c) 1
                         (ComputePipeline.compute_pipeline_create_info key) r h]).
Proof.
  intros drv. split; intros c key tr tr'.
  - destruct (PipelineLayoutCache.find key (PipelineLayoutCache.cache_ c))
      as [it|] eqn:Hf.
    + rewrite (layout_retrieve_hit drv c key it tr Hf).
      split; [discriminate | intros [H _]; discriminate].
    + pose proof (layout_retrieve_miss drv c key tr Hf) as Hm. cbv zeta in Hm.
      rewrite Hm. clear Hm.
      destruct (vkCreatePipelineLayout drv _ _ _) as [r h]. cbn [fst snd].
      destruct (success r) eqn:Es; split.
      * discriminate.
      * intros (_ & r' & h' & E & Es' & _). injection E as <- <-. congruence.
      * intros E. injection E as <-. split; [reflexivity|]. exists r, h. auto.
      * intros (_ & r' & h' & E & _ & ->). injection E as <- <-. reflexivity.
  - destruct (ComputePipelineCache.find key (ComputePipelineCache.cache_ c))
      as [it|] eqn:Hf.
    + rewrite (pipeline_retrieve_hit drv c key it tr Hf).
      split; [discriminate | intros [H _]; discriminate].
    + pose proof (pipeline_retrieve_miss drv c key tr Hf) as Hm. cbv zeta in Hm.
      rewrite Hm. clear Hm.
      destruct (vkCreateComputePipelines drv _ _ _ _ _) as [r h]. cbn [fst snd].
      destruct (success r) eqn:Es; split.
      * discriminate.
      * intros (_ & r' & h' & E & Es' & _). injection E as <- <-. congruence.
      * intros E. injection E as <-. split; [reflexivity|]. exists r, h. auto.
      * intros (_ & r' & h' & E & _ & ->). injection E as <- <-. reflexivity.
Qed.

(** ** The device a handle is released on *)

Lemma in_put {A : Type} (i : nat) (x y : A) (l : list A) :
  In y (put i x l) -> y = x \/ In y l.
Proof.
  revert i. induction l as [|z l IH]; intros i; destruct i as [|i]; cbn;
    try tauto.
  - intros [->|H]; auto.
  - intros [->|H]; [tauto|]. destruct (IH i H); tauto.
Qed.

Section HandleDevices.
Context {T : Type} `{HT : HandleType T}.
Variable device_of : T -> VkDevice.
Variable released_on : Trace -> list (VkDevice * Z).

Hypothesis move_keeps : forall o : T,
    device_of (fst (ht_move_ctor o)) = device_of o /\
    ht_handle (fst (ht_move_ctor o)) = ht_handle o /\
    ht_handle (snd (ht_move_ctor o)) = VK_NULL_HANDLE.

Hypothesis dtor_releases_on : forall (o : T) (tr : Trace),
    exists o' evs,
      ht_dtor o tr = Ok o' (tr ++ evs) /\
      ht_handle o' = VK_NULL_HANDLE /\
      released_on evs
      = if nonempty (ht_handle o) then [(device_of o, ht_handle o)] else [].

Hypothesis swap_keeps : forall l r : T,
    device_of (fst (ht_swap l r)) = device_of r /\
    ht_handle (fst (ht_swap l r)) = ht_handle r /\
    device_of (snd (ht_swap l r)) = device_of l /\
    ht_handle (snd (ht_swap l r)) = ht_handle l.

Hypothesis released_on_app : forall evs1 evs2,
    released_on (evs1 ++ evs2) = released_on evs1 ++ released_on evs2.

Hypothesis released_on_nil : released_on [] = [].

Lemma in_held_pairs (p : VkDevice * Z) (objs : list T) :
  In p (held_pairs device_of objs) <->
  exists o, In o objs /\ nonempty (ht_handle o) = true /\ p = (device_of o, ht_handle o).
Proof.
  unfold held_pairs. rewrite in_map_iff. split.
  - intros (o & <- & Hin). apply filter_In in Hin. destruct Hin. eauto.
  - intros (o & Hin & Hne & ->). exists o. split; [reflexivity|].
    apply filter_In. auto.
Qed.

Lemma held_of_owner (o : T) (objs : list T) :
  In o objs -> nonempty (ht_handle o) = true ->
  In (device_of o, ht_handle o) (held_pairs device_of objs).
Proof. intros Hin Hne. apply in_held_pairs. eauto. Qed.

Lemma run_op_releases_on_the_device (op : HandleOp) (objs : list T) (tr : Trace) :
  exists objs' evs,
    run_op op objs tr = Ok objs' (tr ++ evs) /\
    incl (released_on evs) (held_pairs device_of objs) /\
    incl (held_pairs device_of objs') (held_pairs device_of objs).
Proof.
  assert (Hstay : exists objs' evs,
             ret objs tr = Ok objs' (tr ++ evs) /\
             incl (released_on evs) (held_pairs device_of objs) /\
             incl (held_pairs device_of objs') (held_pairs device_of objs)).
  { exists objs, []. unfold ret. rewrite app_nil_r, released_on_nil.
    split; [reflexivity|]. split; [intros p []| apply incl_refl]. }
  destruct op as [other | self | lhs rhs]; cbn [run_op].
  - destruct (nth_error objs other) as [o|] eqn:E; [|exact Hstay].
    apply nth_error_In in E.
    destruct (move_keeps o) as (Hd & Hh & Hnull).
    destruct (ht_move_ctor o) as [new o']. cbn [fst snd] in Hd, Hh, Hnull.
    exists (put other o' objs ++ [new]), []. unfold ret.
    rewrite app_nil_r, released_on_nil. split; [reflexivity|].
    split; [intros p []|].
    intros p Hp. apply in_held_pairs in Hp. destruct Hp as (x & Hin & Hne & ->).
    apply in_app_or in Hin. destruct Hin as [Hin | [<- | []]].
    + apply in_put in Hin. destruct Hin as [-> | Hin].
      * rewrite Hnull in Hne. discriminate.
      * now apply held_of_owner.
    + rewrite Hd, Hh. apply held_of_owner; [exact E | now rewrite <- Hh].
  - destruct (nth_error objs self) as [o|] eqn:E; [|exact Hstay].
    apply nth_error_In in E.
    destruct (dtor_releases_on o tr) as (o' & evs & Hrun & Hnull & Hrel).
    exists (put self o' objs), evs. unfold bind, ret. rewrite Hrun.
    split; [reflexivity|]. split.
    + rewrite Hrel. destruct (nonempty (ht_handle o)) eqn:Hne; [|intros p []].
      intros p [<- | []]. now apply held_of_owner.
    + intros p Hp. apply in_held_pairs in Hp. destruct Hp as (x & Hin & Hne & ->).
      apply in_put in Hin. destruct Hin as [-> | Hin].
      * rewrite Hnull in Hne. discriminate.
      * now apply held_of_owner.
  - destruct (nth_error objs lhs) as [l|] eqn:El; [|exact Hstay].
    destruct (nth_error objs rhs) as [r|] eqn:Er; [|exact Hstay].
    apply nth_error_In in El, Er.
    destruct (swap_keeps l r) as (Hd1 & Hh1 & Hd2 & Hh2).
    destruct (ht_swap l r) as [l' r']. cbn [fst snd] in Hd1, Hh1, Hd2, Hh2.
    exists (put rhs r' (put lhs l' objs)), []. unfold ret.
    rewrite app_nil_r, released_on_nil. split; [reflexivity|].
    split; [intros p []|].
    intros p Hp. apply in_held_pairs in Hp. destruct Hp as (x & Hin & Hne & ->).
    apply in_put in Hin. destruct Hin as [-> | Hin].
    + rewrite Hd2, Hh2. apply held_of_owner; [exact El | now rewrite <- Hh2].
    + apply in_put in Hin. destruct Hin as [-> | Hin].
      * rewrite Hd1, Hh1. apply held_of_owner; [exact Er | now rewrite <- Hh1].
      * now apply held_of_owner.
Qed.

Lemma run_ops_releases_on_the_device (ops : list HandleOp) (objs : list T) (tr : Trace) :
  exists objs' evs,
    run_ops ops objs tr = Ok objs' (tr ++ evs) /\
    incl (released_on evs) (held_pairs device_of objs) /\
    incl (held_pairs device_of objs') (held_pairs device_of objs).
Proof.
  revert objs tr. induction ops as [|op ops IH]; intros objs tr; cbn [run_ops].
  - exists objs, []. unfold ret. rewrite app_nil_r, released_on_nil.
    split; [reflexivity|]. split; [intros p [] | apply incl_refl].
  - destruct (run_op_releases_on_the_device op objs tr) as (objs1 & evs1 & Hrun1 & Hr1 & Hh1).
    destruct (IH objs1 (tr ++ evs1)) as (objs2 & evs2 & Hrun2 & Hr2 & Hh2).
    exists objs2, (evs1 ++ evs2). unfold bind. rewrite Hrun1, Hrun2, app_assoc.
    split; [reflexivity|]. split.
    + rewrite released_on_app. apply incl_app; [exact Hr1|].
      eapply incl_tran; eassumption.
    + eapply incl_tran; eassumption.
Qed.
End HandleDevices.

Lemma released_layouts_on_app evs1 evs2 :
  released_layouts_on (evs1 ++ evs2)
  = released_layouts_on evs1 ++ released_layouts_on evs2.
Proof.
  induction evs1 as [|e evs1 IH]; [reflexivity|].
  destruct e; cbn; rewrite ?IH; reflexivity.
Qed.

Lemma released_pipelines_on_app evs1 evs2 :
  released_pipelines_on (evs1 ++ evs2)
  = released_pipelines_on evs1 ++ released_pipelines_on evs2.
Proof.
  induction evs1 as [|e evs1 IH]; [reflexivity|].
  destruct e; cbn; rewrite ?IH; reflexivity.
Qed.

(** X8: a handle stays with the device it was created on.  Whatever move
    constructions, swaps and destructor runs are made on objects of a handle
    type, every release call names a device and a handle that one object held
    together at the start, and the objects never come to hold a device and a
    handle that were not together at the start. *)
Theorem handles_are_released_on_their_device :
  (forall (ops : list HandleOp) (objs : list PipelineLayout.t) (tr : Trace),
      exists objs' evs,
        run_ops ops objs tr = Ok objs' (tr ++ evs) /\
        incl (released_layouts_on evs) (layout_pairs objs) /\
        incl (layout_pairs objs') (layout_pairs objs)) /\
  (forall (ops : list HandleOp) (objs : list ComputePipeline.t) (tr : Trace),
      exists objs' evs,
        run_ops ops objs tr = Ok objs' (tr ++ evs) /\
        incl (released_pipelines_on evs) (pipeline_pairs objs) /\
        incl (pipeline_pairs objs') (pipeline_pairs objs)).
Proof.
  split; intros ops objs tr.
  - refine (run_ops_releases_on_the_device (HT := PipelineLayout_HandleType)
              PipelineLayout.device_ released_layouts_on
              _ _ _ released_layouts_on_app eq_refl ops objs tr).
    + intros o. repeat split.
    + intros o tr0. do 2 eexists. split; [apply layout_dtor_run|].
      cbn [ht_handle PipelineLayout_HandleType PipelineLayout.handle_
             PipelineLayout.device_].
      unfold nonempty.
      destruct (VK_NULL_HANDLE =? PipelineLayout.handle_ o) eqn:E; cbn; [|auto].
      apply Z.eqb_eq in E. auto.
    + intros l r. repeat split.
  - refine (run_ops_releases_on_the_device (HT := ComputePipeline_HandleType)
              ComputePipeline.device_ released_pipelines_on
              _ _ _ released_pipelines_on_app eq_refl ops objs tr).
    + intros o. repeat split.
    + intros o tr0. do 2 eexists. split; [apply pipeline_dtor_run|].
      cbn [ht_handle ComputePipeline_HandleType ComputePipeline.handle_
             ComputePipeline.device_].
      unfold nonempty.
      destruct (VK_NULL_HANDLE =? ComputePipeline.handle_ o) eqn:E; cbn; [|auto].
      apply Z.eqb_eq in E. auto.
    + intros l r. repeat split.
Qed.

(** Two pipelines on two devices are swapped and destroyed where they have
    come to be: each is released on its own device. *)
Example swapped_pipelines_keep_their_devices :
  run_ops [OpSwap 0%nat 1%nat; OpMove 0%nat; OpDestroy 2%nat; OpDestroy 1%nat]
    [ComputePipeline.mk 1 42; ComputePipeline.mk 2 43] []
  = Ok [ComputePipeline.mk 2 0; ComputePipeline.mk 1 0; ComputePipeline.mk 2 0]
       [EvDestroyPipeline 2 43; EvDestroyPipeline 1 42].
Proof. reflexivity. Qed.

(** ** A value from its construction to its destruction *)

(** X9: a pipeline layout is created with exactly one descriptor-set layout,
    the key, and no push-constant range.  A value of either handle type that
    is constructed, moved twice the way an insertion moves it, and destroyed
    together with the two temporaries it was moved from, makes one creation
    call and, when the driver succeeded with a non-empty handle, one release
    call of that handle on the same device; the temporaries release nothing.
    When the creation does not succeed the run ends right after it. *)
Theorem value_is_created_once_and_released_once :
  forall (drv : Driver) (device : VkDevice),
    (forall (key : VkDescriptorSetLayout) (tr : Trace),
        let info := PipelineLayout.create_info key in
        let rh := vkCreatePipelineLayout drv tr device info in
        setLayoutCount info = 1 /\
        pSetLayouts info = [key] /\
        pushConstantRangeCount info = 0 /\
        pPushConstantRanges info = [] /\
        layout_built_moved_destroyed drv device key tr
        = if success (fst rh)
          then Ok (PipelineLayout.mk device VK_NULL_HANDLE)
                  (tr ++ EvCreatePipelineLayout device info (fst rh) (snd rh)
                      :: (if VK_NULL_HANDLE =? snd rh then []
                          else [EvDestroyPipelineLayout device (snd rh)]))
          else Fatal (tr ++ [EvCreatePipelineLayout device info (fst rh) (snd rh)])) /\
    (forall (descriptor : ComputePipeline.Descriptor) (pipeline_cache : VkPipelineCache)
            (tr : Trace),
        let info := ComputePipeline.compute_pipeline_create_info descriptor in
        let rh := vkCreateComputePipelines drv tr device pipeline_cache 1 info in
        pipeline_built_moved_destroyed drv device descriptor pipeline_cache tr
        = if success (fst rh)
          then Ok (ComputePipeline.mk device VK_NULL_HANDLE)
                  (tr ++ EvCreateComputePipelines device pipeline_cache 1 info
                           (fst rh) (snd rh)
                      :: (if VK_NULL_HANDLE =? snd rh then []
                          else [EvDestroyPipeline device (snd rh)]))
          else Fatal (tr ++ [EvCreateComputePipelines device pipeline_cache 1 info
                               (fst rh) (snd rh)])).
Proof.
  intros drv device. split.
  - intros key tr info rh. do 4 (split; [reflexivity|]).
    unfold layout_built_moved_destroyed, PipelineLayout.ctor. run_m.
    fold info. fold rh. destruct (success (fst rh)); [|reflexivity].
    cbn [PipelineLayout.move_ctor PipelineLayout.device_ PipelineLayout.handle_].
    rewrite !layout_dtor_run.
    cbn [PipelineLayout.device_ PipelineLayout.handle_].
    rewrite Z.eqb_refl, !app_nil_r.
    destruct (VK_NULL_HANDLE =? snd rh) eqn:E; rewrite <- app_assoc; cbn [app];
      [|reflexivity].
    apply Z.eqb_eq in E. now rewrite <- E.
  - intros descriptor pipeline_cache tr info rh.
    unfold pipeline_built_moved_destroyed, ComputePipeline.ctor. run_m.
    fold info. fold rh. destruct (success (fst rh)); [|reflexivity].
    cbn [ComputePipeline.move_ctor ComputePipeline.device_ ComputePipeline.handle_].
    rewrite !pipeline_dtor_run.
    cbn [ComputePipeline.device_ ComputePipeline.handle_].
    rewrite Z.eqb_refl, !app_nil_r.
    destruct (VK_NULL_HANDLE =? snd rh) eqn:E; rewrite <- app_assoc; cbn [app];
      [|reflexivity].
    apply Z.eqb_eq in E. now rewrite <- E.
Qed.

(** ** Moving a cache, then destroying both *)

(** X10: moving a cache does not change what is released.  When a cache is
    move-constructed and then the moved-from source and the new cache are
    destroyed, the move locks and unlocks the mutex of the source only and
    calls no driver, the destructor of the source releases nothing, and the
    destructor of the new cache makes the release calls that the destructor
    of the original would have made, in the same order. *)
Theorem moved_cache_releases_what_the_original_would :
  forall (mutex : MutexId) (tr : Trace),
    (forall other : PipelineLayoutCache.t,
        let mo := PipelineLayoutCache.cache_mutex_ other in
        let releases := layout_release_events (PipelineLayoutCache.cache_ other) in
        layout_cache_moved_then_destroyed mutex other tr
        = Ok (PipelineLayoutCache.mk mo (PipelineLayoutCache.device_ other) [],
              PipelineLayoutCache.mk mutex (PipelineLayoutCache.device_ other) [])
             (tr ++ [EvLock mo; EvUnlock mo] ++ [EvLock mo; EvUnlock mo]
                 ++ [EvLock mutex] ++ releases ++ [EvUnlock mutex]) /\
        PipelineLayoutCache.dtor other tr
        = Ok (PipelineLayoutCache.mk mo (PipelineLayoutCache.device_ other) [])
             (tr ++ [EvLock mo] ++ releases ++ [EvUnlock mo])) /\
    (forall other : ComputePipelineCache.t,
        let mo := ComputePipelineCache.cache_mutex_ other in
        let d := ComputePipelineCache.device_ other in
        let pc := ComputePipelineCache.pipeline_cache_ other in
        let releases :=
          pipeline_release_events (ComputePipelineCache.cache_ other)
            ++ (if VK_NULL_HANDLE =? pc then [] else [EvDestroyPipelineCache d pc]) in
        pipeline_cache_moved_then_destroyed mutex other tr
        = Ok (ComputePipelineCache.mk mo d VK_NULL_HANDLE [],
              ComputePipelineCache.mk mutex d VK_NULL_HANDLE [])
             (tr ++ [EvLock mo; EvUnlock mo] ++ releases) /\
        ComputePipelineCache.dtor other tr
        = Ok (ComputePipelineCache.mk mo d VK_NULL_HANDLE []) (tr ++ releases)).
Proof.
  intros mutex tr. split; intros other; cbv zeta.
  - split.
    + unfold layout_cache_moved_then_destroyed, bind, ret.
      rewrite layout_cache_move_ctor_run. cbn [fst snd].
      rewrite !layout_cache_dtor_run.
      cbn [PipelineLayoutCache.set_cache_ PipelineLayoutCache.cache_mutex_
             PipelineLayoutCache.device_ PipelineLayoutCache.cache_
             layout_release_events flat_map app].
      rewrite <- !app_assoc. reflexivity.
    + rewrite layout_cache_dtor_run. destruct other as [m d c]. reflexivity.
  - assert (Hnull : forall pc : Z,
               (if VK_NULL_HANDLE =? pc then pc else VK_NULL_HANDLE) = VK_NULL_HANDLE).
    { intros pc. destruct (VK_NULL_HANDLE =? pc) eqn:E; [|reflexivity].
      apply Z.eqb_eq in E. auto. }
    split.
    + unfold pipeline_cache_moved_then_destroyed, bind, ret.
      rewrite pipeline_cache_move_ctor_run. cbn [fst snd].
      rewrite !pipeline_cache_dtor_run.
      cbn [ComputePipelineCache.cache_mutex_ ComputePipelineCache.device_
             ComputePipelineCache.pipeline_cache_ ComputePipelineCache.cache_
             pipeline_release_events flat_map].
      rewrite Z.eqb_refl, Hnull. cbn [app]. rewrite app_nil_r, <- !app_assoc.
      reflexivity.
    + rewrite pipeline_cache_dtor_run, Hnull. reflexivity.
Qed.

(** ** Threads that retrieve the same key *)

Lemma inside_count_put (i : nat) (a x : ThreadState) (l : list ThreadState) :
  nth_error l i = Some a ->
  (inside_count (put i x l) + (if inside a then 1 else 0)
   = inside_count l + (if inside x then 1 else 0))%nat.
Proof.
  unfold inside_count. revert i.
  induction l as [|y l IH]; intros [|i] E; cbn in *; try discriminate.
  - injection E as ->. destruct (inside a), (inside x); cbn; lia.
  - specialize (IH i E). destruct (inside y); cbn; lia.
Qed.

Lemma inside_count_zero (l : list ThreadState) :
  inside_count l = 0%nat -> Forall (fun t => inside t = false) l.
Proof.
  unfold inside_count. induction l as [|y l IH]; cbn; [constructor|].
  destruct (inside y) eqn:E; cbn; [discriminate|]. intros H. constructor; auto.
Qed.

Lemma inside_count_pos (i : nat) (a : ThreadState) (l : list ThreadState) :
  nth_error l i = Some a -> inside a = true -> (1 <= inside_count l)%nat.
Proof.
  unfold inside_count. revert i.
  induction l as [|y l IH]; intros [|i] E Ha; cbn in *; try discriminate.
  - injection E as ->. rewrite Ha. cbn. lia.
  - specialize (IH i E Ha). destruct (inside y); cbn; lia.
Qed.

(** When one thread only is inside, the others are outside: what holds of
    them survives a change of what holds of threads outside. *)
Lemma put_sole_inside (P Q : ThreadState -> Prop) (i : nat) (a x : ThreadState)
    (l : list ThreadState) :
  inside_count l = 1%nat ->
  nth_error l i = Some a ->
  inside a = true ->
  (forall t, inside t = false -> P t -> Q t) ->
  Forall P l -> Q x -> Forall Q (put i x l).
Proof.
  intros Hc E Ha HPQ Hl Hx. revert i E Hc.
  induction Hl as [|y l Hy Hl IH]; intros [|i] E Hc; cbn in *; try discriminate.
  - injection E as ->. constructor; [exact Hx|].
    unfold inside_count in Hc. cbn in Hc. rewrite Ha in Hc. cbn in Hc.
    assert (Hz : inside_count l = 0%nat) by (unfold inside_count; lia).
    apply inside_count_zero in Hz.
    rewrite Forall_forall in *. intros t Ht. auto.
  - pose proof (inside_count_pos i a l E Ha) as Hpos.
    unfold inside_count in Hc, Hpos. cbn in Hc.
    destruct (inside y) eqn:Ey; cbn in Hc; [lia|].
    constructor; [now apply HPQ|]. apply IH; [exact E|]. unfold inside_count. lia.
Qed.

Lemma put_none_inside (Q : ThreadState -> Prop) (i : nat) (x : ThreadState)
    (l : list ThreadState) :
  inside_count l = 0%nat ->
  (forall t, inside t = false -> Q t) -> Q x -> Forall Q (put i x l).
Proof.
  intros Hc HQ Hx. apply put_Forall; [|exact Hx].
  apply inside_count_zero in Hc. rewrite Forall_forall in *. auto.
Qed.

Lemma held_when_inside (i : nat) (a : ThreadState) (l : list ThreadState) (held : bool) :
  inside_count l = (if held then 1%nat else 0%nat) ->
  nth_error l i = Some a -> inside a = true ->
  held = true /\ inside_count l = 1%nat.
Proof.
  intros Hc E Ha. pose proof (inside_count_pos i a l E Ha) as Hpos.
  destruct held; [auto | lia].
Qed.

Lemma returned_handles_put (i : nat) (a x : ThreadState) (l : list ThreadState) :
  nth_error l i = Some a ->
  Permutation (returned_handles (a :: put i x l)) (returned_handles (x :: l)).
Proof.
  intros E. unfold returned_handles. apply Permutation_flat_map.
  now apply put_trades.
Qed.

Lemma all_returned_handles (l : list ThreadState) :
  forallb is_returned l = true -> l = map Returned (returned_handles l).
Proof.
  induction l as [|t l IH]; cbn; [reflexivity|].
  intros H. apply andb_true_iff in H. destruct H as [Ht Hl].
  destruct t; try discriminate. cbn. f_equal. exact (IH Hl).
Qed.

Lemma all_returned_none_inside (l : list ThreadState) :
  forallb is_returned l = true -> inside_count l = 0%nat.
Proof.
  unfold inside_count. induction l as [|t l IH]; cbn; [reflexivity|].
  intros H. apply andb_true_iff in H. destruct H as [Ht Hl].
  destruct t; try discriminate. cbn. auto.
Qed.

Lemma all_returned_late (h : Z) (l : list ThreadState) :
  Forall (late h) l -> forallb is_returned l = true ->
  l = repeat (Returned h) (List.length l).
Proof.
  induction 1 as [|t l Ht Hl IH]; cbn; [reflexivity|].
  intros Hr. apply andb_true_iff in Hr. destruct Hr as [Hr1 Hr2].
  destruct t; try discriminate. cbn in Ht. subst. now rewrite <- IH.
Qed.

Lemma inside_count_at_entry (n : nat) : inside_count (repeat AtEntry n) = 0%nat.
Proof. unfold inside_count. induction n; cbn; auto. Qed.

Lemma returned_handles_at_entry (n : nat) : returned_handles (repeat AtEntry n) = [].
Proof. unfold returned_handles. induction n; cbn; auto. Qed.

Lemma nth_error_middle {A : Type} (l1 l2 : list A) (x : A) :
  nth_error (l1 ++ x :: l2) (List.length l1) = Some x.
Proof. induction l1 as [|y l1 IH]; cbn; auto. Qed.

Lemma put_middle {A : Type} (l1 l2 : list A) (x y : A) :
  put (List.length l1) y (l1 ++ x :: l2) = l1 ++ y :: l2.
Proof. induction l1 as [|z l1 IH]; cbn; [reflexivity | now rewrite IH]. Qed.

(** All the handles of a run of retrievals of one key are the handle that is
    resident for the key at the end. *)
Lemma handles_of_one_key {K : Type} (lookup : K -> option Z) (key : K) (n : nat)
    (hs : list Z) (h : Z) :
  map Some hs = map lookup (repeat key n) -> lookup key = Some h -> hs = repeat h n.
Proof.
  intros Hmap Hl. revert hs Hmap. induction n as [|n IH]; intros [|x hs] Hmap;
    cbn in Hmap; try discriminate; [reflexivity|].
  injection Hmap as Hx Hrest. cbn. rewrite (IH hs Hrest). congruence.
Qed.

Lemma new_keys_of_one_key {K : Type} (key_eq : K -> K -> bool) (resident : list K)
    (key : K) (n : nat) :
  key_eq key key = true ->
  existsb (fun r => key_eq r key) resident = false ->
  new_keys key_eq resident (repeat key (S n)) = [key].
Proof.
  intros Hrefl Hex. cbn [repeat new_keys]. rewrite Hex. f_equal.
  induction n as [|n IH]; cbn [repeat new_keys existsb]; [reflexivity|].
  rewrite Hrefl. cbn [orb]. exact IH.
Qed.

Section CacheOpsApp.
Context {K C : Type}.
Variable retrieve : C -> K -> M (Z * C).
Variable purge : C -> M C.

Lemma run_cache_ops_app (ops1 ops2 : list (CacheOp K)) :
  forall c tr hs1 c1 tr1,
    run_cache_ops retrieve purge ops1 c tr = Ok (hs1, c1) tr1 ->
    run_cache_ops retrieve purge (ops1 ++ ops2) c tr
    = match run_cache_ops retrieve purge ops2 c1 tr1 with
      | Ok (hs2, c2) tr2 => Ok (hs1 ++ hs2, c2) tr2
      | Fatal t => Fatal t
      end.
Proof.
  induction ops1 as [|[k|] ops1 IH]; intros c tr hs1 c1 tr1 H;
    cbn [app run_cache_ops] in *.
  - unfold ret in H. injection H as <- <- <-.
    destruct (run_cache_ops retrieve purge ops2 c tr) as [[hs2 c2] tr2|]; reflexivity.
  - unfold bind in *.
    destruct (retrieve c k tr) as [[h c'] tr'|]; [|discriminate].
    cbn [fst snd] in *.
    destruct (run_cache_ops retrieve purge ops1 c' tr') as [[hs c''] tr''|] eqn:E;
      [|discriminate].
    unfold ret in H. cbn [fst snd] in H. injection H as <- <- <-.
    rewrite (IH _ _ _ _ _ E).
    destruct (run_cache_ops retrieve purge ops2 c'' tr'') as [[hs2 c2] tr2|];
      reflexivity.
  - unfold bind in *.
    destruct (purge c tr) as [c' tr'|]; [|discriminate].
    now apply IH.
Qed.

Lemma run_cache_ops_one_more (key : K) (d : nat) c tr hs c1 tr1 h c2 tr2 :
  run_cache_ops retrieve purge (map CacheRetrieve (repeat key d)) c tr = Ok (hs, c1) tr1 ->
  retrieve c1 key tr1 = Ok (h, c2) tr2 ->
  run_cache_ops retrieve purge (map CacheRetrieve (repeat key (S d))) c tr
  = Ok (hs ++ [h], c2) tr2.
Proof.
  intros H1 H2.
  change (repeat key (S d)) with (key :: repeat key d).
  rewrite repeat_cons, map_app, (run_cache_ops_app _ _ _ _ _ _ _ H1).
  cbn [map run_cache_ops]. unfold bind, ret. rewrite H2. reflexivity.
Qed.
End CacheOpsApp.

Section ThreadsSerial.
Context {K C : Type}.
Variable retrieve : C -> K -> M (Z * C).
Variable purge : C -> M C.
Variable mutex_of : C -> MutexId.
Variable body : C -> M (Z * C).
Variable key : K.

(** The call is a [lock_guard] on the mutex of the object around the body,
    and the body leaves the mutex of the object in place. *)
Hypothesis retrieve_is_guarded : forall c tr,
    retrieve c key tr = lock_guard (mutex_of c) (body c) tr.
Hypothesis body_keeps_mutex : forall c tr h c' tr',
    body c tr = Ok (h, c') tr' -> mutex_of c' = mutex_of c.

Lemma guarded_call_returns c tr h c' tr' :
  body c (tr ++ [EvLock (mutex_of c)]) = Ok (h, c') tr' ->
  retrieve c key tr = Ok (h, c') (tr' ++ [EvUnlock (mutex_of c)]).
Proof.
  intros E. rewrite retrieve_is_guarded. unfold lock_guard, bind, emit, ret.
  rewrite E. reflexivity.
Qed.

Lemma guarded_call_returned c tr h c' tr' :
  retrieve c key tr = Ok (h, c') tr' ->
  exists trb,
    body c (tr ++ [EvLock (mutex_of c)]) = Ok (h, c') trb /\
    tr' = trb ++ [EvUnlock (mutex_of c)].
Proof.
  rewrite retrieve_is_guarded. unfold lock_guard, bind, emit, ret.
  destruct (body c (tr ++ [EvLock (mutex_of c)])) as [[h0 c0] trb|]; [|discriminate].
  intros E. injection E as <- <- <-. eauto.
Qed.

Lemma start_threads_serial (n : nat) (c : C) (tr : Trace) :
  serial_shape retrieve purge mutex_of body key n c tr (start_threads n c tr).
Proof.
  unfold serial_shape, start_threads.
  cbn [threads mutex_held object history].
  split; [apply repeat_length|].
  split; [apply inside_count_at_entry|].
  exists [], c, tr. split; [reflexivity|].
  rewrite returned_handles_at_entry.
  split; [apply perm_nil|]. split; [auto|].
  apply Forall_forall. intros t Ht. apply repeat_spec in Ht. subst t. exact I.
Qed.

Lemma thread_step_serial (n : nat) (c : C) (tr : Trace) (i : nat) (cfg cfg' : Config C) :
  serial_shape retrieve purge mutex_of body key n c tr cfg ->
  thread_step mutex_of body i cfg = Some cfg' ->
  serial_shape retrieve purge mutex_of body key n c tr cfg'.
Proof.
  intros Hs Hstep. pose proof Hs as Hs0.
  destruct Hs as (Hlen & Hcount & hs & c1 & tr1 & Hser & Hperm & Hfree & Hph).
  unfold thread_step in Hstep.
  destruct (nth_error (threads cfg) i) as [t|] eqn:Et;
    [|injection Hstep as <-; exact Hs0].
  pose proof (nth_error_Forall _ _ _ _ Hph Et) as Hi.
  destruct t as [| |h|h].
  - (* the constructor of the lock_guard *)
    destruct (mutex_held cfg) eqn:Eh; injection Hstep as <-; [exact Hs0|].
    destruct (Hfree eq_refl) as [Ho Hh].
    unfold serial_shape. cbn [threads mutex_held object history].
    split; [now rewrite put_length|].
    split.
    { pose proof (inside_count_put i AtEntry Inside _ Et) as Hp. cbn in Hp. lia. }
    exists hs, c1, tr1. split; [exact Hser|].
    split.
    { apply perm_trans with (1 := Hperm). apply Permutation_sym.
      exact (returned_handles_put i AtEntry Inside _ Et). }
    split; [discriminate|].
    apply put_none_inside; [exact Hcount | |].
    + intros [| |h|h]; cbn; intros Hin; try discriminate; exact I.
    + cbn. now rewrite Ho, Hh.
  - (* the guarded body *)
    cbn in Hi. destruct Hi as [Ho Hh].
    destruct (held_when_inside i Inside _ _ Hcount Et eq_refl) as [Eh Hone].
    destruct (body (object cfg) (history cfg)) as [[h c'] tr'|] eqn:Eb; [|discriminate].
    injection Hstep as <-.
    unfold serial_shape. cbn [threads mutex_held object history].
    split; [now rewrite put_length|].
    split.
    { pose proof (inside_count_put i Inside (Leaving h) _ Et) as Hp. cbn in Hp.
      rewrite <- Hcount. lia. }
    exists hs, c1, tr1. split; [exact Hser|].
    split.
    { apply perm_trans with (1 := Hperm). apply Permutation_sym.
      exact (returned_handles_put i Inside (Leaving h) _ Et). }
    split; [rewrite Eh; discriminate|].
    apply (put_sole_inside (thread_phase mutex_of body c1 tr1 cfg) _ i Inside);
      try assumption; try reflexivity.
    + intros [| |h0|h0]; cbn; intros Hin Hp; try discriminate; exact I.
    + cbn. rewrite Ho, Hh in Eb. exact Eb.
  - (* the destructor of the lock_guard *)
    cbn in Hi.
    destruct (held_when_inside i (Leaving h) _ _ Hcount Et eq_refl) as [Eh Hone].
    injection Hstep as <-.
    unfold serial_shape. cbn [threads mutex_held object history].
    split; [now rewrite put_length|].
    split.
    { pose proof (inside_count_put i (Leaving h) (Returned h) _ Et) as Hp. cbn in Hp.
      lia. }
    exists (hs ++ [h]), (object cfg),
      (history cfg ++ [EvUnlock (mutex_of (object cfg))]).
    split.
    { rewrite length_app. cbn [List.length]. rewrite Nat.add_1_r.
      apply (run_cache_ops_one_more _ _ _ _ _ _ _ _ _ _ _ _ Hser).
      rewrite (body_keeps_mutex _ _ _ _ _ Hi).
      now apply guarded_call_returns. }
    split.
    { apply perm_trans with (h :: returned_handles (threads cfg)).
      - apply perm_trans with (h :: hs).
        + apply Permutation_sym, Permutation_cons_append.
        + now apply perm_skip.
      - apply Permutation_sym.
        exact (returned_handles_put i (Leaving h) (Returned h) _ Et). }
    split; [auto|].
    apply (put_sole_inside (thread_phase mutex_of body c1 tr1 cfg) _ i (Leaving h));
      try assumption; try reflexivity.
    intros [| |h0|h0]; cbn; intros Hin Hp; try discriminate; exact I.
  - injection Hstep as <-. exact Hs0.
Qed.

Lemma run_threads_serial (n : nat) (c : C) (tr : Trace) (sched : list nat) :
  forall cfg cfg',
    serial_shape retrieve purge mutex_of body key n c tr cfg ->
    run_threads mutex_of body sched cfg = Some cfg' ->
    serial_shape retrieve purge mutex_of body key n c tr cfg'.
Proof.
  induction sched as [|i sched IH]; intros cfg cfg' Hs Hrun; cbn in Hrun.
  - injection Hrun as <-. exact Hs.
  - destruct (thread_step mutex_of body i cfg) as [cfg1|] eqn:E; [|discriminate].
    eapply IH; [|exact Hrun]. eapply thread_step_serial; eauto.
Qed.

(** Whatever the schedule, once the calls have all returned the mutex is
    free, and the cache, the trace and the handles are those of [n] calls of
    [retrieve] made one after the other. *)
Lemma threads_are_serial (n : nat) (c : C) (tr : Trace) (sched : list nat)
    (cfg' : Config C) :
  run_threads mutex_of body sched (start_threads n c tr) = Some cfg' ->
  all_returned cfg' = true ->
  mutex_held cfg' = false /\
  exists hs,
    run_cache_ops retrieve purge (map CacheRetrieve (repeat key n)) c tr
    = Ok (hs, object cfg') (history cfg') /\
    Permutation hs (returned_handles (threads cfg')) /\
    threads cfg' = map Returned (returned_handles (threads cfg')).
Proof.
  intros Hrun Hall.
  destruct (run_threads_serial n c tr sched _ _ (start_threads_serial n c tr) Hrun)
    as (Hlen & Hcount & hs & c1 & tr1 & Hser & Hperm & Hfree & _).
  unfold all_returned in Hall.
  pose proof (all_returned_handles _ Hall) as Hthreads.
  rewrite (all_returned_none_inside _ Hall) in Hcount.
  assert (Eh : mutex_held cfg' = false) by (destruct (mutex_held cfg'); [lia | reflexivity]).
  split; [exact Eh|].
  destruct (Hfree Eh) as [-> ->].
  exists hs. split; [|split; [exact Hperm | exact Hthreads]].
  assert (Hn : List.length hs = n).
  { rewrite (Permutation_length Hperm), <- Hlen.
    rewrite Hthreads at 2. now rewrite length_map. }
  rewrite Hn in Hser. exact Hser.
Qed.

Lemma run_threads_app (s1 s2 : list nat) (cfg : Config C) :
  run_threads mutex_of body (s1 ++ s2) cfg
  = match run_threads mutex_of body s1 cfg with
    | Some cfg' => run_threads mutex_of body s2 cfg'
    | None => None
    end.
Proof.
  revert cfg. induction s1 as [|i s1 IH]; intros cfg; cbn; [reflexivity|].
  destruct (thread_step mutex_of body i cfg); [apply IH | reflexivity].
Qed.

(** A thread that finds the mutex free and is given three steps in a row
    does what one call of [retrieve] does. *)
Lemma one_thread_runs (pre post : list ThreadState) c1 tr1 h c2 tr2 :
  retrieve c1 key tr1 = Ok (h, c2) tr2 ->
  let i := List.length pre in
  run_threads mutex_of body [i; i; i] (mk_config false c1 tr1 (pre ++ AtEntry :: post))
  = Some (mk_config false c2 tr2 (pre ++ Returned h :: post)).
Proof.
  intros E i. destruct (guarded_call_returned _ _ _ _ _ E) as (trb & Eb & ->).
  subst i. cbn [run_threads].
  unfold thread_step at 1. cbn [threads mutex_held object history].
  rewrite nth_error_middle, put_middle.
  unfold thread_step at 1. cbn [threads mutex_held object history].
  rewrite nth_error_middle, Eb, put_middle.
  unfold thread_step. cbn [threads mutex_held object history].
  rewrite nth_error_middle, put_middle.
  now rewrite (body_keeps_mutex _ _ _ _ _ Eb).
Qed.

Lemma threads_run_in_turn (m : nat) :
  forall (pre : list ThreadState) c1 tr1 hs c2 tr2,
    run_cache_ops retrieve purge (map CacheRetrieve (repeat key m)) c1 tr1
    = Ok (hs, c2) tr2 ->
    run_threads mutex_of body
      (flat_map (fun i => [i; i; i]) (seq (List.length pre) m))
      (mk_config false c1 tr1 (pre ++ repeat AtEntry m))
    = Some (mk_config false c2 tr2 (pre ++ map Returned hs)).
Proof.
  induction m as [|m IH]; intros pre c1 tr1 hs c2 tr2 H;
    cbn [repeat map run_cache_ops seq flat_map] in *.
  - unfold ret in H. injection H as <- <- <-. reflexivity.
  - unfold bind in H.
    destruct (retrieve c1 key tr1) as [[h c'] tr'|] eqn:E1; [|discriminate].
    cbn [fst snd] in H.
    destruct (run_cache_ops retrieve purge (map CacheRetrieve (repeat key m)) c' tr')
      as [[hs2 c''] tr''|] eqn:E2; [|discriminate].
    unfold ret in H. cbn [fst snd] in H. injection H as <- <- <-.
    rewrite run_threads_app, (one_thread_runs pre (repeat AtEntry m) _ _ _ _ _ E1).
    specialize (IH (pre ++ [Returned h]) _ _ _ _ _ E2).
    rewrite length_app, Nat.add_1_r, <- !app_assoc in IH. exact IH.
Qed.

Lemma one_after_the_other_returns (n : nat) (c : C) (tr : Trace) hs c' tr' :
  run_cache_ops retrieve purge (map CacheRetrieve (repeat key n)) c tr = Ok (hs, c') tr' ->
  run_threads mutex_of body (one_after_the_other n) (start_threads n c tr)
  = Some (mk_config false c' tr' (map Returned hs)).
Proof.
  intros H. exact (threads_run_in_turn n [] _ _ _ _ _ H).
Qed.
End ThreadsSerial.

(** ** Threads that retrieve a resident key *)

Section ThreadsResident.
Context {C : Type}.
Variable mutex_of : C -> MutexId.
Variable body : C -> M (Z * C).
Variable creations : Trace -> nat.
Variable c : C.
Variable h : Z.

Hypothesis creations_app : forall evs1 evs2,
    creations (evs1 ++ evs2) = (creations evs1 + creations evs2)%nat.
Hypothesis creations_nil : creations [] = 0%nat.
Hypothesis creations_lock : forall m, creations [EvLock m] = 0%nat.
Hypothesis creations_unlock : forall m, creations [EvUnlock m] = 0%nat.
(** With the key resident the body is a hit. *)
Hypothesis body_hit : forall tr, body c tr = Ok (h, c) tr.

Lemma thread_step_resident (n : nat) (tr0 : Trace) (i : nat) (cfg : Config C) :
  resident_shape creations n c h tr0 cfg ->
  exists cfg',
    thread_step mutex_of body i cfg = Some cfg' /\
    resident_shape creations n c h tr0 cfg'.
Proof.
  intros (Hlen & Hobj & evs & Hhist & Hc & Hf).
  unfold thread_step.
  destruct (nth_error (threads cfg) i) as [t|] eqn:Et;
    [|eexists; split; [reflexivity|]; unfold resident_shape; eauto 10].
  pose proof (nth_error_Forall _ _ _ _ Hf Et) as Ht.
  destruct t as [| |h'|h']; cbn in Ht.
  - destruct (mutex_held cfg);
      (eexists; split; [reflexivity|]); unfold resident_shape; cbn;
      [eauto 10|].
    split; [now rewrite put_length|]. split; [exact Hobj|].
    exists (evs ++ [EvLock (mutex_of (object cfg))]).
    rewrite Hhist, app_assoc, creations_app, creations_lock, Hc.
    repeat split. apply put_Forall; cbn; auto.
  - rewrite Hobj, body_hit. eexists. split; [reflexivity|]. unfold resident_shape. cbn.
    split; [now rewrite put_length|]. split; [reflexivity|].
    exists evs. repeat split; auto. apply put_Forall; cbn; auto.
  - eexists. split; [reflexivity|]. unfold resident_shape. cbn.
    split; [now rewrite put_length|]. split; [exact Hobj|].
    exists (evs ++ [EvUnlock (mutex_of (object cfg))]).
    rewrite Hhist, app_assoc, creations_app, creations_unlock, Hc.
    repeat split. apply put_Forall; cbn; auto.
  - eexists. split; [reflexivity|]. unfold resident_shape. eauto 10.
Qed.

Lemma run_threads_resident (n : nat) (tr0 : Trace) (sched : list nat) :
  forall cfg,
    resident_shape creations n c h tr0 cfg ->
    exists cfg',
      run_threads mutex_of body sched cfg = Some cfg' /\
      resident_shape creations n c h tr0 cfg'.
Proof.
  induction sched as [|i sched IH]; intros cfg Hs; cbn.
  - eauto.
  - destruct (thread_step_resident n tr0 i cfg Hs) as (cfg1 & -> & Hs1).
    now apply IH.
Qed.

Lemma threads_serve_a_resident_key (n : nat) (tr : Trace) (sched : list nat) :
  exists cfg',
    run_threads mutex_of body sched (start_threads n c tr) = Some cfg' /\
    object cfg' = c /\
    (exists evs, history cfg' = tr ++ evs /\ creations evs = 0%nat) /\
    (all_returned cfg' = true -> threads cfg' = repeat (Returned h) n).
Proof.
  assert (Hstart : resident_shape creations n c h tr (start_threads n c tr)).
  { unfold resident_shape, start_threads. cbn.
    split; [apply repeat_length|]. split; [reflexivity|].
    exists []. rewrite app_nil_r. repeat split; auto.
    clear. induction n; cbn; constructor; cbn; auto. }
  destruct (run_threads_resident n tr sched _ Hstart)
    as (cfg' & Hrun & Hlen & Hobj & evs & Hhist & Hc & Hf).
  exists cfg'. split; [exact Hrun|]. split; [exact Hobj|]. split; [eauto|].
  intros Hall. rewrite <- Hlen. now apply all_returned_late.
Qed.
End ThreadsResident.

(** ** The threads of a cache *)

Lemma forallb_is_returned (hs : list Z) : forallb is_returned (map Returned hs) = true.
Proof. induction hs; cbn; auto. Qed.

Lemma returned_handles_returned (hs : list Z) : returned_handles (map Returned hs) = hs.
Proof. unfold returned_handles. induction hs as [|x hs IH]; cbn; [reflexivity|]. now rewrite IH. Qed.

Section ThreadsOfACache.
Context {K C : Type}.
Variable key_eq : K -> K -> bool.
Variable retrieve : C -> K -> M (Z * C).
Variable purge : C -> M C.
Variable keys : C -> list K.
Variable handles : C -> list Z.
Variable lookup : C -> K -> option Z.
Variable creations : Trace -> nat.
Variable created : Trace -> list Z.
Variable released : Trace -> list Z.
Variable mutex_of : C -> MutexId.
Variable body : C -> K -> M (Z * C).

Hypothesis key_eq_true : forall a b, key_eq a b = true <-> a = b.
Hypothesis lookup_none : forall c k,
    lookup c k = None <-> existsb (fun r => key_eq r k) (keys c) = false.
Hypothesis creations_app : forall evs1 evs2,
    creations (evs1 ++ evs2) = (creations evs1 + creations evs2)%nat.
Hypothesis creations_nil : creations [] = 0%nat.
Hypothesis creations_lock : forall m, creations [EvLock m] = 0%nat.
Hypothesis creations_unlock : forall m, creations [EvUnlock m] = 0%nat.
Hypothesis retrieve_ok : forall c k tr h c' tr',
    retrieve c k tr = Ok (h, c') tr' ->
    exists evs,
      tr' = tr ++ evs /\ released evs = [] /\
      ((lookup c k = Some h /\ c' = c /\ creations evs = 0%nat /\ created evs = []) \/
       (lookup c k = None /\ keys c' = k :: keys c /\ handles c' = h :: handles c /\
        (forall k', lookup c' k' = if key_eq k k' then Some h else lookup c k') /\
        creations evs = 1%nat /\ created evs = [h])).
Hypothesis retrieve_is_guarded : forall c k tr,
    retrieve c k tr = lock_guard (mutex_of c) (body c k) tr.
Hypothesis body_keeps_mutex : forall c k tr h c' tr',
    body c k tr = Ok (h, c') tr' -> mutex_of c' = mutex_of c.
Hypothesis body_hit : forall c k h tr,
    lookup c k = Some h -> body c k tr = Ok (h, c) tr.

Lemma serial_handles_agree (n : nat) (key : K) c tr hs c' tr' :
  (0 < n)%nat ->
  run_cache_ops retrieve purge (map CacheRetrieve (repeat key n)) c tr = Ok (hs, c') tr' ->
  exists h, lookup c' key = Some h /\ hs = repeat h n.
Proof.
  intros Hn Hrun.
  destruct (retrievals_follow_the_cache key_eq retrieve purge keys handles lookup
              creations created released key_eq_true retrieve_ok
              _ _ _ _ _ _ Hrun) as [Hmap _].
  destruct n as [|n]; [lia|]. destruct hs as [|x hs]; [discriminate|].
  exists x. assert (Hl : lookup c' key = Some x) by (cbn in Hmap; congruence).
  split; [exact Hl|]. exact (handles_of_one_key (lookup c') key (S n) _ x Hmap Hl).
Qed.

Lemma serial_creates_once (n : nat) (key : K) c tr hs c' tr' :
  (0 < n)%nat ->
  lookup c key = None ->
  run_cache_ops retrieve purge (map CacheRetrieve (repeat key n)) c tr = Ok (hs, c') tr' ->
  exists evs, tr' = tr ++ evs /\ creations evs = 1%nat.
Proof.
  intros Hn Hl Hrun.
  destruct (retrievals_create_new_keys key_eq retrieve purge keys handles lookup
              creations created released lookup_none creations_app creations_nil
              retrieve_ok _ _ _ _ _ _ Hrun) as (evs & Ht & Hc & _).
  exists evs. split; [exact Ht|]. rewrite Hc.
  destruct n as [|n]; [lia|].
  rewrite new_keys_of_one_key; [reflexivity | now apply key_eq_true | now apply lookup_none].
Qed.

Lemma hits_return (key : K) c h (m : nat) :
  lookup c key = Some h ->
  forall tr, exists tr',
    run_cache_ops retrieve purge (map CacheRetrieve (repeat key m)) c tr
    = Ok (repeat h m, c) tr'.
Proof.
  intros Hl. induction m as [|m IH]; intros tr; cbn [repeat map run_cache_ops].
  - eexists. reflexivity.
  - unfold bind. rewrite retrieve_is_guarded. unfold lock_guard, bind, emit, ret.
    rewrite (body_hit _ _ _ _ Hl). cbn [fst snd].
    destruct (IH ((tr ++ [EvLock (mutex_of c)]) ++ [EvUnlock (mutex_of c)]))
      as (tr' & ->).
    eexists. reflexivity.
Qed.

Lemma serial_returns (n : nat) (key : K) c tr h1 c1 tr1 :
  retrieve c key tr = Ok (h1, c1) tr1 ->
  exists hs c' tr',
    run_cache_ops retrieve purge (map CacheRetrieve (repeat key n)) c tr = Ok (hs, c') tr'.
Proof.
  intros E. destruct n as [|n]; cbn [repeat map run_cache_ops].
  - do 3 eexists. reflexivity.
  - unfold bind. rewrite E. cbn [fst snd].
    assert (Hl : lookup c1 key = Some h1).
    { destruct (retrieve_ok _ _ _ _ _ _ E) as (evs & _ & _ & Hcase).
      destruct Hcase as [(Hl & -> & _) | (_ & _ & _ & Hl1 & _)]; [exact Hl|].
      rewrite Hl1. now rewrite (proj2 (key_eq_true key key) eq_refl). }
    destruct (hits_return key c1 h1 n Hl tr1) as (tr' & ->).
    do 3 eexists. reflexivity.
Qed.

(** Threads that retrieve one key: whatever the schedule, once the calls
    have returned the mutex is free, they have done what [n] calls one after
    the other do and they all have the same handle, and one creation has
    been made if there are threads and the key was absent; and they all
    return when they run one after the other, provided one call alone
    returns. *)
Lemma threads_retrieve_as_one (n : nat) (key : K) (c : C) (tr : Trace) :
  (forall sched cfg',
      run_threads mutex_of (fun c => body c key) sched (start_threads n c tr) = Some cfg' ->
      all_returned cfg' = true ->
      mutex_held cfg' = false /\
      (exists h,
          threads cfg' = repeat (Returned h) n /\
          run_cache_ops retrieve purge (map CacheRetrieve (repeat key n)) c tr
          = Ok (repeat h n, object cfg') (history cfg')) /\
      ((0 < n)%nat -> lookup c key = None ->
       exists evs, history cfg' = tr ++ evs /\ creations evs = 1%nat)) /\
  (forall h1 c1 tr1,
      retrieve c key tr = Ok (h1, c1) tr1 ->
      exists cfg',
        run_threads mutex_of (fun c => body c key) (one_after_the_other n)
          (start_threads n c tr) = Some cfg' /\
        all_returned cfg' = true).
Proof.
  split.
  - intros sched cfg' Hrun Hall.
    destruct (threads_are_serial retrieve purge mutex_of (fun c => body c key) key
                (fun c tr => retrieve_is_guarded c key tr)
                (fun c tr => body_keeps_mutex c key tr)
                n c tr sched cfg' Hrun Hall) as (Hfree & hs & Hser & Hperm & Hthreads).
    split; [exact Hfree|]. split.
    + destruct (Nat.eq_dec n 0) as [->|Hn].
      * exists 0. cbn [repeat map run_cache_ops] in *.
        unfold ret in Hser. injection Hser as <- Ho Hh.
        apply Permutation_nil in Hperm. rewrite Hperm in Hthreads.
        rewrite Hthreads, <- Ho, <- Hh. auto.
      * assert (Hpos : (0 < n)%nat) by lia.
        destruct (serial_handles_agree n key _ _ _ _ _ Hpos Hser) as (h & Hl & ->).
        exists h. apply Permutation_sym, Permutation_repeat in Hperm.
        rewrite Hperm in Hthreads. rewrite map_repeat in Hthreads. auto.
    + intros Hn Hnone. exact (serial_creates_once n key _ _ _ _ _ Hn Hnone Hser).
  - intros h1 c1 tr1 E.
    destruct (serial_returns n key _ _ _ _ _ E) as (hs & c' & tr' & Hser).
    eexists. split.
    + exact (one_after_the_other_returns retrieve purge mutex_of (fun c => body c key) key
               (fun c tr => retrieve_is_guarded c key tr)
               (fun c tr => body_keeps_mutex c key tr)
               n c tr hs c' tr' Hser).
    + unfold all_returned. cbn [threads]. apply forallb_is_returned.
Qed.

(** Threads that retrieve a resident key: no step is fatal, the cache stays
    as it was, nothing is created, and once the calls have returned they
    have done what [n] calls one after the other do. *)
Lemma threads_retrieve_a_resident_key (n : nat) (key : K) (c : C) (h : Z) (tr : Trace)
    (sched : list nat) :
  lookup c key = Some h ->
  exists cfg',
    run_threads mutex_of (fun c => body c key) sched (start_threads n c tr) = Some cfg' /\
    object cfg' = c /\
    (exists evs, history cfg' = tr ++ evs /\ creations evs = 0%nat) /\
    (all_returned cfg' = true ->
     threads cfg' = repeat (Returned h) n /\
     run_cache_ops retrieve purge (map CacheRetrieve (repeat key n)) c tr
     = Ok (repeat h n, c) (history cfg')).
Proof.
  intros Hl.
  destruct (threads_serve_a_resident_key mutex_of (fun c => body c key) creations c h
              creations_app creations_nil creations_lock creations_unlock
              (fun tr => body_hit c key h tr Hl) n tr sched)
    as (cfg' & Hrun & Hobj & Hevs & Hret).
  exists cfg'. split; [exact Hrun|]. split; [exact Hobj|]. split; [exact Hevs|].
  intros Hall. specialize (Hret Hall). split; [exact Hret|].
  destruct (threads_are_serial retrieve purge mutex_of (fun c => body c key) key
              (fun c tr => retrieve_is_guarded c key tr)
              (fun c tr => body_keeps_mutex c key tr)
              n c tr sched cfg' Hrun Hall) as (_ & hs & Hser & Hperm & _).
  rewrite Hret in Hperm.
  replace (repeat (Returned h) n) with (map Returned (repeat h n)) in Hperm
    by apply map_repeat.
  rewrite returned_handles_returned in Hperm.
  apply Permutation_repeat in Hperm. subst hs. rewrite Hobj in Hser. exact Hser.
Qed.
End ThreadsOfACache.

(** ** The threads of the two caches *)

(** [retrieve] is the [lock_guard] on [cache_mutex_] around
    [retrieve_locked]: the mutex and the body the threads run are the ones
    of the function. *)
Lemma layout_retrieve_is_guarded drv c key tr :
  PipelineLayoutCache.retrieve drv c key tr
  = lock_guard (PipelineLayoutCache.cache_mutex_ c)
      (PipelineLayoutCache.retrieve_locked drv c key) tr.
Proof. reflexivity. Qed.

Lemma pipeline_retrieve_is_guarded drv c key tr :
  ComputePipelineCache.retrieve drv c key tr
  = lock_guard (ComputePipelineCache.cache_mutex_ c)
      (ComputePipelineCache.retrieve_locked drv c key) tr.
Proof. reflexivity. Qed.

Lemma layout_body_keeps_mutex drv c key tr h c' tr' :
  PipelineLayoutCache.retrieve_locked drv c key tr = Ok (h, c') tr' ->
  PipelineLayoutCache.cache_mutex_ c' = PipelineLayoutCache.cache_mutex_ c.
Proof.
  unfold PipelineLayoutCache.retrieve_locked.
  destruct (PipelineLayoutCache.find key (PipelineLayoutCache.cache_ c)) as [it|] eqn:Hf.
  - unfold ret. intros E. now injection E as _ <- _.
  - unfold bind. rewrite (layout_emplace_run drv c key tr Hf). cbv zeta.
    destruct (success _); [|discriminate].
    unfold ret. cbn [fst snd]. intros E. now injection E as _ <- _.
Qed.

Lemma pipeline_body_keeps_mutex drv c key tr h c' tr' :
  ComputePipelineCache.retrieve_locked drv c key tr = Ok (h, c') tr' ->
  ComputePipelineCache.cache_mutex_ c' = ComputePipelineCache.cache_mutex_ c.
Proof.
  unfold ComputePipelineCache.retrieve_locked.
  destruct (ComputePipelineCache.find key (ComputePipelineCache.cache_ c)) as [it|] eqn:Hf.
  - unfold ret. intros E. now injection E as _ <- _.
  - unfold bind. rewrite (pipeline_emplace_run drv c key tr Hf). cbv zeta.
    destruct (success _); [|discriminate].
    unfold ret. cbn [fst snd]. intros E. now injection E as _ <- _.
Qed.

Lemma layout_body_hit drv c key h tr :
  layout_lookup c key = Some h ->
  PipelineLayoutCache.retrieve_locked drv c key tr = Ok (h, c) tr.
Proof.
  unfold layout_lookup, PipelineLayoutCache.retrieve_locked.
  destruct (PipelineLayoutCache.find key (PipelineLayoutCache.cache_ c)) as [it|];
    [|discriminate].
  cbn. intros E. injection E as <-. reflexivity.
Qed.

Lemma pipeline_body_hit drv c key h tr :
  pipeline_lookup c key = Some h ->
  ComputePipelineCache.retrieve_locked drv c key tr = Ok (h, c) tr.
Proof.
  unfold pipeline_lookup, ComputePipelineCache.retrieve_locked.
  destruct (ComputePipelineCache.find key (ComputePipelineCache.cache_ c)) as [it|];
    [|discriminate].
  cbn. intros E. injection E as <-. reflexivity.
Qed.

Lemma layout_threads_retrieve_as_one drv n key c tr :
  (forall sched cfg',
      layout_run_threads drv key sched (start_threads n c tr) = Some cfg' ->
      all_returned cfg' = true ->
      mutex_held cfg' = false /\
      (exists h,
          threads cfg' = repeat (Returned h) n /\
          layout_cache_run drv (map CacheRetrieve (repeat key n)) c tr
          = Ok (repeat h n, object cfg') (history cfg')) /\
      ((0 < n)%nat -> layout_lookup c key = None ->
       exists evs, history cfg' = tr ++ evs /\ layout_creations evs = 1%nat)) /\
  (forall h1 c1 tr1,
      PipelineLayoutCache.retrieve drv c key tr = Ok (h1, c1) tr1 ->
      exists cfg',
        layout_run_threads drv key (one_after_the_other n) (start_threads n c tr)
        = Some cfg' /\
        all_returned cfg' = true).
Proof.
  exact (threads_retrieve_as_one PipelineLayoutCache.Key_eq
           (PipelineLayoutCache.retrieve drv) PipelineLayoutCache.purge
           layout_keys layout_handles layout_lookup
           layout_creations created_layouts released_layouts
           PipelineLayoutCache.cache_mutex_ (PipelineLayoutCache.retrieve_locked drv)
           layout_Key_eq_true layout_lookup_none layout_creations_app eq_refl
           (layout_retrieve_law drv) (layout_retrieve_is_guarded drv)
           (layout_body_keeps_mutex drv) (layout_body_hit drv) n key c tr).
Qed.

Lemma pipeline_threads_retrieve_as_one drv n key c tr :
  (forall sched cfg',
      pipeline_run_threads drv key sched (start_threads n c tr) = Some cfg' ->
      all_returned cfg' = true ->
      mutex_held cfg' = false /\
      (exists h,
          threads cfg' = repeat (Returned h) n /\
          pipeline_cache_run drv (map CacheRetrieve (repeat key n)) c tr
          = Ok (repeat h n, object cfg') (history cfg')) /\
      ((0 < n)%nat -> pipeline_lookup c key = None ->
       exists evs, history cfg' = tr ++ evs /\ pipeline_creations evs = 1%nat)) /\
  (forall h1 c1 tr1,
      ComputePipelineCache.retrieve drv c key tr = Ok (h1, c1) tr1 ->
      exists cfg',
        pipeline_run_threads drv key (one_after_the_other n) (start_threads n c tr)
        = Some cfg' /\
        all_returned cfg' = true).
Proof.
  exact (threads_retrieve_as_one ComputePipelineCache.Key_eq
           (ComputePipelineCache.retrieve drv) ComputePipelineCache.purge
           pipeline_keys pipeline_handles pipeline_lookup
           pipeline_creations created_pipelines released_pipelines
           ComputePipelineCache.cache_mutex_ (ComputePipelineCache.retrieve_locked drv)
           Descriptor_eq_true pipeline_lookup_none pipeline_creations_app eq_refl
           (pipeline_retrieve_law drv) (pipeline_retrieve_is_guarded drv)
           (pipeline_body_keeps_mutex drv) (pipeline_body_hit drv) n key c tr).
Qed.




